(** * tf-mirror: the downloader's acquisition pipeline, embedded and verified

    A shallow embedding of the Go sources of the Terraform registry mirror
    (packages [common], [downloader] and [downloader/binaries]) together with
    the properties that its specification states about them.

    Conventions.
    - Go [int] and [time.Duration] are 64-bit: they are [Z] values and every
      arithmetic step that can leave the range goes through [wrap64].
    - Go strings are [string]; [fmt.Sprintf] is written out with [+:+].
    - Go maps are [gmap]; ranging over a map yields its keys in an order the
      language leaves open, which is an explicit argument of the model.
    - The operating system and the network are oracles: an argument gives the
      result of each [os.Stat], [os.ReadDir] or HTTP round trip. *)

From Stdlib Require Import ZArith Lia Ascii String.
From stdpp Require Import base option gmap strings list pretty.

(** ** Machine integers *)

Definition wrap64 (z : Z) : Z := ((z + 2 ^ 63) mod 2 ^ 64 - 2 ^ 63)%Z.

Lemma wrap64_small (z : Z) : (- 2 ^ 63 <= z < 2 ^ 63)%Z -> wrap64 z = z.
Proof.
  intros Hz. unfold wrap64.
  rewrite Z.mod_small; lia.
Qed.

(** ** internal/common/client.go *)

Module Client.

(** What the caller can see of an [*http.Response]. *)
Record Response := { StatusCode : Z; BodyClosed : bool }.

(** Result of one [c.client.Do(req)].  [net/http] returns a non-nil response
    whenever the error is nil; with an error the response is usually nil. *)
Inductive DoResult :=
| DoOk (r : Response)
| DoFail (e : string) (r : option Response).

Inductive Error :=
| ErrCreateRequest (cause : string)
| ErrRetriesExhausted (maxRetries : Z) (cause : string).

(** What the transport does, in order: the [i]-th call of [Do] and the
    argument (in nanoseconds) of each [time.Sleep]. *)
Inductive Event :=
| EvDo (i : nat)
| EvSleep (d : Z).

Record Outcome := { resp : option Response; err : option Error; trace : list Event }.

Definition Second : Z := 1000000000.

(** [time.Duration(1<<uint(i)) * time.Second] *)
Definition waitTime (i : nat) : Z :=
  wrap64 (wrap64 (Z.shiftl 1 (Z.of_nat i)) * Second).

Definition closeBody (r : Response) : Response :=
  {| StatusCode := StatusCode r; BodyClosed := true |}.

(** [if i < c.maxRetries { time.Sleep(waitTime) }] *)
Definition backoff (maxRetries : Z) (i : nat) (tr : list Event) : list Event :=
  if (Z.of_nat i <? maxRetries)%Z then tr ++ [EvSleep (waitTime i)] else tr.

(** The loop [for i := 0; i <= c.maxRetries; i++] with [rounds] iterations
    left, and the code after it.  The loop makes [maxRetries + 1] iterations
    (none when [maxRetries] is negative). *)
Fixpoint retryLoop (Do : nat -> DoResult) (maxRetries : Z) (rounds i : nat)
    (resp0 : option Response) (lastErr : option string) (tr : list Event) : Outcome :=
  match rounds with
  | O =>
      match lastErr with
      | Some e => {| resp := None; err := Some (ErrRetriesExhausted maxRetries e); trace := tr |}
      | None => {| resp := resp0; err := None; trace := tr |}
      end
  | S rounds' =>
      let tr1 := tr ++ [EvDo i] in
      match Do i with
      | DoOk r =>
          if (StatusCode r <? 500)%Z
          then {| resp := Some r; err := None; trace := tr1 |}
          else retryLoop Do maxRetries rounds' (S i) (Some (closeBody r)) None
                 (backoff maxRetries i tr1)
      | DoFail e r =>
          retryLoop Do maxRetries rounds' (S i) (closeBody <$> r) (Some e)
            (backoff maxRetries i tr1)
      end
  end.

(** [GetWithContext]; [reqErr] is the error of [http.NewRequestWithContext]. *)
Definition GetWithContext (Do : nat -> DoResult) (maxRetries : Z)
    (reqErr : option string) : Outcome :=
  match reqErr with
  | Some e => {| resp := None; err := Some (ErrCreateRequest e); trace := [] |}
  | None => retryLoop Do maxRetries (Z.to_nat (maxRetries + 1)) 0 None None []
  end.

(** An attempt after which the loop goes on: a transport error or a 5xx. *)
Definition retryable (d : DoResult) : bool :=
  match d with
  | DoOk r => negb (StatusCode r <? 500)%Z
  | DoFail _ _ => true
  end.

(** The retry policy in the specification's words: [n] attempts numbered
    from [i], with a pause of [2^i] seconds after attempt [i] when another
    attempt follows. *)
Fixpoint policy_trace (n i : nat) : list Event :=
  match n with
  | O => []
  | S n' =>
      match n' with
      | O => [EvDo i]
      | S _ => EvDo i :: EvSleep (2 ^ Z.of_nat i * Second) :: policy_trace n' (S i)
      end
  end.

(** The same schedule with the pause the code computes. *)
Fixpoint code_trace (n i : nat) : list Event :=
  match n with
  | O => []
  | S n' =>
      match n' with
      | O => [EvDo i]
      | S _ => EvDo i :: EvSleep (waitTime i) :: code_trace n' (S i)
      end
  end.

(** Number of round trips in a trace. *)
Fixpoint attempts (tr : list Event) : nat :=
  match tr with
  | [] => 0
  | EvDo _ :: tr' => S (attempts tr')
  | EvSleep _ :: tr' => attempts tr'
  end.

(** What the call hands back when [d] is the result of its last attempt. *)
Definition final_result (maxRetries : Z) (d : DoResult) (o : Outcome) : Prop :=
  match d with
  | DoOk r =>
      if (StatusCode r <? 500)%Z
      then resp o = Some r /\ err o = None
      else resp o = Some (closeBody r) /\ err o = None
  | DoFail e _ =>
      resp o = None /\ err o = Some (ErrRetriesExhausted maxRetries e)
  end.

(** Two attempts answered 503, then a 404: three round trips, pauses of one
    and two seconds, and the 404 comes back with a nil error. *)
Definition flaky (i : nat) : DoResult :=
  if (i <? 2)%nat then DoOk {| StatusCode := 503; BodyClosed := false |}
  else DoOk {| StatusCode := 404; BodyClosed := false |}.

Definition always503 (i : nat) : DoResult :=
  DoOk {| StatusCode := 503; BodyClosed := false |}.

(** Time spent in [time.Sleep] along a trace, in nanoseconds.  A negative
    argument makes [time.Sleep] return at once and counts as such. *)
Fixpoint total_sleep (tr : list Event) : Z :=
  match tr with
  | [] => 0
  | EvDo _ :: tr' => total_sleep tr'
  | EvSleep d :: tr' => (d + total_sleep tr')%Z
  end.

(** A transport that never gets an answer. *)
Definition unreachable (i : nat) : DoResult :=
  DoFail ("dial tcp: connection refused #" +:+ pretty i) None.

(** *** Properties of the retry loop *)

Lemma waitTime_exact (i : nat) :
  (i <= 33)%nat -> waitTime i = (2 ^ Z.of_nat i * Second)%Z.
Proof.
  intros Hi. unfold waitTime, Second.
  rewrite Z.shiftl_1_l.
  assert (Hpow : (0 < 2 ^ Z.of_nat i <= 2 ^ 33)%Z).
  { split; [apply Z.pow_pos_nonneg; lia|].
    apply Z.pow_le_mono_r; lia. }
  change (2 ^ 33)%Z with 8589934592%Z in Hpow.
  rewrite (wrap64_small (2 ^ Z.of_nat i)).
  - apply wrap64_small. change (2 ^ 63)%Z with 9223372036854775808%Z. lia.
  - change (2 ^ 63)%Z with 9223372036854775808%Z. lia.
Qed.

Lemma code_trace_policy (n i : nat) :
  (i + n <= 35)%nat -> code_trace n i = policy_trace n i.
Proof.
  revert i. induction n as [|n IH]; intros i Hn; [done|].
  destruct n as [|n]; [done|].
  cbn [code_trace policy_trace].
  rewrite waitTime_exact by lia.
  do 2 f_equal. apply IH. lia.
Qed.

Lemma retryLoop_step (Do : nat -> DoResult) (maxRetries : Z) (rounds i : nat)
    (resp0 : option Response) (lastErr : option string) (tr : list Event) :
  retryLoop Do maxRetries (S rounds) i resp0 lastErr tr =
  match Do i with
  | DoOk r =>
      if (StatusCode r <? 500)%Z
      then {| resp := Some r; err := None; trace := tr ++ [EvDo i] |}
      else retryLoop Do maxRetries rounds (S i) (Some (closeBody r)) None
             (backoff maxRetries i (tr ++ [EvDo i]))
  | DoFail e r =>
      retryLoop Do maxRetries rounds (S i) (closeBody <$> r) (Some e)
        (backoff maxRetries i (tr ++ [EvDo i]))
  end.
Proof. reflexivity. Qed.

(** The loop, started at attempt [i] with [S r] rounds left where the last
    round is attempt [maxRetries], makes some [n >= 1] attempts. *)
Lemma retryLoop_char (Do : nat -> DoResult) (maxRetries : Z) (r i : nat)
    (resp0 : option Response) (lastErr : option string) (tr : list Event) :
  Z.of_nat (i + r) = maxRetries ->
  exists n : nat,
    (1 <= n <= S r)%nat /\
    trace (retryLoop Do maxRetries (S r) i resp0 lastErr tr) = tr ++ code_trace n i /\
    (forall k, (k + 1 < n)%nat -> retryable (Do (i + k)%nat) = true) /\
    (retryable (Do (i + n - 1)%nat) = true -> n = S r) /\
    final_result maxRetries (Do (i + n - 1)%nat)
      (retryLoop Do maxRetries (S r) i resp0 lastErr tr).
Proof.
  revert i resp0 lastErr tr.
  induction r as [|r IH]; intros i resp0 lastErr tr Hi.
  - exists 1%nat. cbn [retryLoop code_trace].
    replace (i + 1 - 1)%nat with i by lia.
    assert (Hoff : backoff maxRetries i (tr ++ [EvDo i]) = tr ++ [EvDo i]).
    { unfold backoff.
      replace (Z.of_nat i <? maxRetries)%Z with false; [done|].
      symmetry. apply Z.ltb_ge. lia. }
    rewrite Hoff.
    split; [lia|]. unfold final_result.
    destruct (Do i) as [rsp|e rsp]; cbn [retryable].
    + destruct (StatusCode rsp <? 500)%Z; cbn [trace resp err];
        (split; [reflexivity|]); (split; [intros; lia|]); split; auto.
    + cbn [trace resp err].
      split; [reflexivity|]. split; [intros; lia|]. split; auto.
  - rewrite retryLoop_step.
    destruct (Do i) as [rsp|e rsp] eqn:HDo.
    + destruct (StatusCode rsp <? 500)%Z eqn:Hst.
      * exists 1%nat. replace (i + 1 - 1)%nat with i by lia.
        rewrite HDo. cbn [retryable final_result trace code_trace resp err].
        rewrite Hst. cbn [negb].
        split; [lia|]. split; [reflexivity|]. split; [intros; lia|].
        split; [discriminate|]. split; reflexivity.
      * destruct (IH (S i) (Some (closeBody rsp)) None
                     (backoff maxRetries i (tr ++ [EvDo i]))) as (n & Hn & Htr & Hre & Hlast & Hfin);
          [lia|].
        exists (S n). replace (i + S n - 1)%nat with (S i + n - 1)%nat by lia.
        split; [lia|]. split.
        { rewrite Htr. unfold backoff.
          replace (Z.of_nat i <? maxRetries)%Z with true by (symmetry; apply Z.ltb_lt; lia).
          destruct n as [|n]; [lia|]. cbn [code_trace].
          rewrite <- !app_assoc. reflexivity. }
        split.
        { intros k Hk. destruct k as [|k].
          - rewrite Nat.add_0_r, HDo. cbn. by rewrite Hst.
          - replace (i + S k)%nat with (S i + k)%nat by lia. apply Hre. lia. }
        split; [intros H; apply Hlast in H; lia | exact Hfin].
    + destruct (IH (S i) (closeBody <$> rsp) (Some e)
                   (backoff maxRetries i (tr ++ [EvDo i]))) as (n & Hn & Htr & Hre & Hlast & Hfin);
        [lia|].
      exists (S n). replace (i + S n - 1)%nat with (S i + n - 1)%nat by lia.
      split; [lia|]. split.
      { rewrite Htr. unfold backoff.
        replace (Z.of_nat i <? maxRetries)%Z with true by (symmetry; apply Z.ltb_lt; lia).
        destruct n as [|n]; [lia|]. cbn [code_trace].
        rewrite <- !app_assoc. reflexivity. }
      split.
      { intros k Hk. destruct k as [|k].
        - rewrite Nat.add_0_r, HDo. reflexivity.
        - replace (i + S k)%nat with (S i + k)%nat by lia. apply Hre. lia. }
      split; [intros H; apply Hlast in H; lia | exact Hfin].
Qed.

Lemma attempts_code_trace (n i : nat) : attempts (code_trace n i) = n.
Proof.
  revert i. induction n as [|n IH]; intros i; [done|].
  destruct n as [|n]; [done|].
  change (attempts (code_trace (S (S n)) i))
    with (S (attempts (code_trace (S n) (S i)))).
  by rewrite IH.
Qed.

(** C5. A GET whose request could be built makes [n] round trips with
    [1 <= n <= maxRetries + 1]: every attempt before the last one failed
    with a transport error or a status [>= 500]; after attempt [i] the
    client sleeps [2^i] seconds when another attempt follows, and sleeps at
    no other time; an attempt answered with a status below 500 (4xx
    included) ends the call at once with that response and a nil error, so
    only an exhausted retry budget lets the last attempt be a failed one.
    The bound on [maxRetries] keeps [2^i * 10^9] nanoseconds inside
    [time.Duration]; the program builds its clients with [maxRetries = 3]. *)
Theorem GetWithContext_retry_policy (Do : nat -> DoResult) (maxRetries : Z) :
  (0 <= maxRetries <= 34)%Z ->
  exists n : nat,
    (1 <= n)%nat /\ (Z.of_nat n <= maxRetries + 1)%Z /\
    trace (GetWithContext Do maxRetries None) = policy_trace n 0 /\
    (forall k, (k + 1 < n)%nat -> retryable (Do k) = true) /\
    (retryable (Do (n - 1)%nat) = true -> Z.of_nat n = (maxRetries + 1)%Z) /\
    (forall r, Do (n - 1)%nat = DoOk r -> (StatusCode r < 500)%Z ->
       resp (GetWithContext Do maxRetries None) = Some r /\
       err (GetWithContext Do maxRetries None) = None).
Proof.
  intros Hm. unfold GetWithContext.
  replace (Z.to_nat (maxRetries + 1)) with (S (Z.to_nat maxRetries)) by lia.
  destruct (retryLoop_char Do maxRetries (Z.to_nat maxRetries) 0 None None [])
    as (n & Hn & Htr & Hre & Hlast & Hfin); [lia|].
  exists n. cbn [Nat.add] in *.
  split; [lia|]. split; [lia|]. split.
  { rewrite Htr. cbn [app]. apply code_trace_policy. lia. }
  split; [exact Hre|]. split.
  { intros H. apply Hlast in H. lia. }
  intros r HDo Hst. rewrite HDo in Hfin. cbn [final_result] in Hfin.
  replace (StatusCode r <? 500)%Z with true in Hfin; [exact Hfin|].
  symmetry. apply Z.ltb_lt. exact Hst.
Qed.

Lemma GetWithContext_retry_policy_witness :
  (0 <= 3 <= 34)%Z /\
  exists n : nat,
    (1 <= n)%nat /\ (Z.of_nat n <= 3 + 1)%Z /\
    trace (GetWithContext flaky 3 None) = policy_trace n 0 /\
    (forall k, (k + 1 < n)%nat -> retryable (flaky k) = true) /\
    (retryable (flaky (n - 1)%nat) = true -> Z.of_nat n = (3 + 1)%Z) /\
    (forall r, flaky (n - 1)%nat = DoOk r -> (StatusCode r < 500)%Z ->
       resp (GetWithContext flaky 3 None) = Some r /\
       err (GetWithContext flaky 3 None) = None).
Proof.
  split; [lia|]. apply (GetWithContext_retry_policy flaky 3). lia.
Defined.

(** C10. When every attempt is answered, without a transport error, by a
    status [>= 500], the call makes all [maxRetries + 1] attempts and then
    returns the last 5xx response (its body already closed) with a nil
    error. *)
Theorem GetWithContext_all_5xx (Do : nat -> DoResult) (maxRetries : Z) :
  (0 <= maxRetries)%Z ->
  (forall i : nat, (Z.of_nat i <= maxRetries)%Z ->
     exists r, Do i = DoOk r /\ (500 <= StatusCode r)%Z) ->
  exists r,
    Do (Z.to_nat maxRetries) = DoOk r /\ (500 <= StatusCode r)%Z /\
    resp (GetWithContext Do maxRetries None) = Some (closeBody r) /\
    err (GetWithContext Do maxRetries None) = None /\
    attempts (trace (GetWithContext Do maxRetries None)) = Z.to_nat (maxRetries + 1).
Proof.
  intros Hm Hall. unfold GetWithContext.
  replace (Z.to_nat (maxRetries + 1)) with (S (Z.to_nat maxRetries)) by lia.
  destruct (retryLoop_char Do maxRetries (Z.to_nat maxRetries) 0 None None [])
    as (n & Hn & Htr & _ & Hlast & Hfin); [lia|].
  cbn [Nat.add app] in *.
  destruct (Hall (n - 1)%nat) as (r & HDo & Hst); [lia|].
  assert (Hn' : n = S (Z.to_nat maxRetries)).
  { apply Hlast. rewrite HDo. cbn [retryable].
    replace (StatusCode r <? 500)%Z with false; [done|].
    symmetry. apply Z.ltb_ge. exact Hst. }
  subst n.
  assert (Hidx : (S (Z.to_nat maxRetries) - 1)%nat = Z.to_nat maxRetries) by lia.
  rewrite Hidx in HDo, Hfin.
  exists r. split; [exact HDo|]. split; [exact Hst|].
  rewrite HDo in Hfin. cbn [final_result] in Hfin.
  replace (StatusCode r <? 500)%Z with false in Hfin
    by (symmetry; apply Z.ltb_ge; exact Hst).
  destruct Hfin as [Hr He]. split; [exact Hr|]. split; [exact He|].
  rewrite Htr. apply attempts_code_trace.
Qed.

Lemma GetWithContext_all_5xx_witness :
  exists r,
    always503 (Z.to_nat 3) = DoOk r /\ (500 <= StatusCode r)%Z /\
    resp (GetWithContext always503 3 None) = Some (closeBody r) /\
    err (GetWithContext always503 3 None) = None /\
    attempts (trace (GetWithContext always503 3 None)) = Z.to_nat (3 + 1).
Proof.
  apply (GetWithContext_all_5xx always503 3); [lia|].
  intros i _. eexists. split; [reflexivity|]. simpl. lia.
Defined.

(** *** Further properties of [GetWithContext] *)

Lemma total_sleep_code_trace (n i : nat) :
  (i + n <= 34)%nat ->
  total_sleep (code_trace (S n) i) =
    ((2 ^ Z.of_nat (i + n) - 2 ^ Z.of_nat i) * Second)%Z.
Proof.
  revert i. induction n as [|n IH]; intros i Hn.
  - cbn [code_trace total_sleep]. by rewrite Nat.add_0_r, Z.sub_diag.
  - change (total_sleep (code_trace (S (S n)) i))
      with (waitTime i + total_sleep (code_trace (S n) (S i)))%Z.
    rewrite IH by lia. rewrite waitTime_exact by lia.
    replace (Z.of_nat (S i + n)) with (Z.of_nat (i + S n)) by lia.
    replace (Z.of_nat (S i)) with (Z.of_nat i + 1)%Z by lia.
    rewrite Z.pow_add_r by lia. lia.
Qed.

(** X1.  When every attempt ends in a transport error, the call makes all
    [maxRetries + 1] attempts and returns a nil response with an error that
    wraps the error of the last attempt (the earlier ones are lost). *)
Theorem GetWithContext_all_transport_errors (Do : nat -> DoResult) (maxRetries : Z) :
  (0 <= maxRetries)%Z ->
  (forall i : nat, (Z.of_nat i <= maxRetries)%Z -> exists e r, Do i = DoFail e r) ->
  exists e r,
    Do (Z.to_nat maxRetries) = DoFail e r /\
    resp (GetWithContext Do maxRetries None) = None /\
    err (GetWithContext Do maxRetries None) = Some (ErrRetriesExhausted maxRetries e) /\
    attempts (trace (GetWithContext Do maxRetries None)) = Z.to_nat (maxRetries + 1).
Proof.
  intros Hm Hall. unfold GetWithContext.
  replace (Z.to_nat (maxRetries + 1)) with (S (Z.to_nat maxRetries)) by lia.
  destruct (retryLoop_char Do maxRetries (Z.to_nat maxRetries) 0 None None [])
    as (n & Hn & Htr & _ & Hlast & Hfin); [lia|].
  cbn [Nat.add app] in *.
  destruct (Hall (n - 1)%nat) as (e & r & HDo); [lia|].
  assert (Hn' : n = S (Z.to_nat maxRetries)).
  { apply Hlast. by rewrite HDo. }
  subst n.
  assert (Hidx : (S (Z.to_nat maxRetries) - 1)%nat = Z.to_nat maxRetries) by lia.
  rewrite Hidx in HDo, Hfin.
  exists e, r. split; [exact HDo|].
  rewrite HDo in Hfin. cbn [final_result] in Hfin.
  destruct Hfin as [Hr He]. split; [exact Hr|]. split; [exact He|].
  rewrite Htr. apply attempts_code_trace.
Qed.

Lemma GetWithContext_all_transport_errors_witness :
  exists e r,
    unreachable (Z.to_nat 3) = DoFail e r /\
    resp (GetWithContext unreachable 3 None) = None /\
    err (GetWithContext unreachable 3 None) = Some (ErrRetriesExhausted 3 e) /\
    attempts (trace (GetWithContext unreachable 3 None)) = Z.to_nat (3 + 1).
Proof.
  apply (GetWithContext_all_transport_errors unreachable 3); [lia|].
  intros i _. eexists _, _. reflexivity.
Defined.

(** X2.  With a retry budget that is not negative, the call hands back
    either a response with a nil error or a nil response with an error,
    never both and never neither, whether or not the request could be
    built. *)
Theorem GetWithContext_response_xor_error (Do : nat -> DoResult) (maxRetries : Z)
    (reqErr : option string) :
  (0 <= maxRetries)%Z ->
  (exists r, resp (GetWithContext Do maxRetries reqErr) = Some r /\
             err (GetWithContext Do maxRetries reqErr) = None) \/
  (exists e, resp (GetWithContext Do maxRetries reqErr) = None /\
             err (GetWithContext Do maxRetries reqErr) = Some e).
Proof.
  intros Hm. unfold GetWithContext. destruct reqErr as [e|].
  { right. by eexists. }
  replace (Z.to_nat (maxRetries + 1)) with (S (Z.to_nat maxRetries)) by lia.
  destruct (retryLoop_char Do maxRetries (Z.to_nat maxRetries) 0 None None [])
    as (n & _ & _ & _ & _ & Hfin); [lia|].
  unfold final_result in Hfin.
  destruct (Do (0 + n - 1)%nat) as [r|e r].
  - left. destruct (StatusCode r <? 500)%Z; destruct Hfin; by eexists.
  - right. destruct Hfin. by eexists.
Qed.

Lemma GetWithContext_response_xor_error_witness :
  (exists r, resp (GetWithContext flaky 3 None) = Some r /\
             err (GetWithContext flaky 3 None) = None) \/
  (exists e, resp (GetWithContext flaky 3 None) = None /\
             err (GetWithContext flaky 3 None) = Some e).
Proof. apply (GetWithContext_response_xor_error flaky 3 None). lia. Defined.

(** X3.  With a negative [maxRetries] the loop body never runs: no request
    is sent, nothing is slept, and the call returns a nil response together
    with a nil error. *)
Theorem GetWithContext_negative_budget (Do : nat -> DoResult) (maxRetries : Z) :
  (maxRetries < 0)%Z ->
  GetWithContext Do maxRetries None = {| resp := None; err := None; trace := [] |}.
Proof.
  intros Hm. unfold GetWithContext.
  replace (Z.to_nat (maxRetries + 1)) with 0%nat by lia. reflexivity.
Qed.

Lemma GetWithContext_negative_budget_witness :
  GetWithContext always503 (-1) None = {| resp := None; err := None; trace := [] |}.
Proof. apply (GetWithContext_negative_budget always503 (-1)). lia. Defined.

(** X4.  The time a call spends backing off is at most [2^maxRetries - 1]
    seconds, and exactly that when every attempt fails with a transport
    error or a 5xx (7 seconds for the program's three retries). *)
Theorem GetWithContext_total_backoff (Do : nat -> DoResult) (maxRetries : Z) :
  (0 <= maxRetries <= 34)%Z ->
  (0 <= total_sleep (trace (GetWithContext Do maxRetries None))
     <= (2 ^ maxRetries - 1) * Second)%Z /\
  ((forall i : nat, (Z.of_nat i <= maxRetries)%Z -> retryable (Do i) = true) ->
   total_sleep (trace (GetWithContext Do maxRetries None)) =
     ((2 ^ maxRetries - 1) * Second)%Z).
Proof.
  intros Hm. unfold GetWithContext.
  replace (Z.to_nat (maxRetries + 1)) with (S (Z.to_nat maxRetries)) by lia.
  destruct (retryLoop_char Do maxRetries (Z.to_nat maxRetries) 0 None None [])
    as (n & Hn & Htr & _ & Hlast & _); [lia|].
  cbn [Nat.add app] in *. rewrite Htr.
  destruct n as [|n]; [lia|].
  rewrite total_sleep_code_trace by lia. cbn [Nat.add Z.of_nat].
  change (2 ^ 0)%Z with 1%Z.
  assert (Hpow : (1 <= 2 ^ Z.of_nat n <= 2 ^ maxRetries)%Z).
  { split; [|apply Z.pow_le_mono_r; lia].
    change 1%Z with (2 ^ 0)%Z. apply Z.pow_le_mono_r; lia. }
  unfold Second. split; [lia|].
  intros Hall.
  assert (Hn' : S n = S (Z.to_nat maxRetries)).
  { apply Hlast. apply Hall. lia. }
  injection Hn' as ->. rewrite Z2Nat.id by lia. reflexivity.
Qed.

Lemma GetWithContext_total_backoff_witness :
  (0 <= total_sleep (trace (GetWithContext always503 3 None)) <= (2 ^ 3 - 1) * Second)%Z /\
  ((forall i : nat, (Z.of_nat i <= 3)%Z -> retryable (always503 i) = true) ->
   total_sleep (trace (GetWithContext always503 3 None)) = ((2 ^ 3 - 1) * Second)%Z).
Proof. apply (GetWithContext_total_backoff always503 3). lia. Defined.

End Client.

(** ** The functions of Go's [strings] package that the sources call

    Filter strings, file names and versions are ASCII in this program; a
    string is the sequence of its bytes. *)

Module Strings.

(** [strings.Split(s, sep)] for a one-byte separator. *)
Fixpoint Split (s : string) (sep : ascii) : list string :=
  match s with
  | EmptyString => [EmptyString]
  | String c s' =>
      if Ascii.eqb c sep then EmptyString :: Split s' sep
      else match Split s' sep with
           | [] => [String c EmptyString]
           | w :: ws => String c w :: ws
           end
  end.

Definition isSpace (c : ascii) : bool :=
  let n := nat_of_ascii c in
  ((9 <=? n) && (n <=? 13) || (n =? 32))%nat.

Fixpoint trimLeft (s : string) : string :=
  match s with
  | EmptyString => EmptyString
  | String c s' => if isSpace c then trimLeft s' else s
  end.

Fixpoint trimRight (s : string) : string :=
  match s with
  | EmptyString => EmptyString
  | String c s' =>
      match trimRight s' with
      | EmptyString => if isSpace c then EmptyString else String c EmptyString
      | t => String c t
      end
  end.

(** [strings.TrimSpace] *)
Definition TrimSpace (s : string) : string := trimRight (trimLeft s).

(** [strings.HasPrefix(s, prefix)] *)
Definition HasPrefix (s pre : string) : bool := String.prefix pre s.

(** [strings.HasSuffix(s, suffix)] *)
Fixpoint HasSuffix (s suf : string) : bool :=
  if String.eqb s suf then true
  else match s with
       | EmptyString => false
       | String _ s' => HasSuffix s' suf
       end.

(** [strings.Contains(s, substr)] *)
Fixpoint Contains (s sub : string) : bool :=
  if String.prefix sub s then true
  else match s with
       | EmptyString => false
       | String _ s' => Contains s' sub
       end.

(** The byte [c] occurs in [s]. *)
Fixpoint hasByte (c : ascii) (s : string) : bool :=
  match s with
  | EmptyString => false
  | String a s' => if Ascii.eqb a c then true else hasByte c s'
  end.

(** [strings.TrimPrefix(s, prefix)] *)
Fixpoint TrimPrefix (s pre : string) : string :=
  match pre, s with
  | EmptyString, _ => s
  | String p pre', String a s' =>
      if Ascii.eqb a p && String.prefix pre' s' then TrimPrefix s' pre' else s
  | String _ _, EmptyString => s
  end.

(** [strings.TrimSuffix(s, suffix)] *)
Fixpoint TrimSuffix (s suf : string) : string :=
  if String.eqb s suf then EmptyString
  else match s with
       | EmptyString => EmptyString
       | String a s' => if HasSuffix s' suf then String a (TrimSuffix s' suf) else s
       end.

(** [strings.ReplaceAll] for an [old] of one byte: every occurrence of the
    byte is replaced by [new]. *)
Fixpoint ReplaceAll (s : string) (old : ascii) (new : string) : string :=
  match s with
  | EmptyString => EmptyString
  | String c rest =>
      if Ascii.eqb c old then new +:+ ReplaceAll rest old new
      else String c (ReplaceAll rest old new)
  end.

(** *** Checks against the behaviour of the Go functions *)

Example Split_two : Split "consul>1.21.3" ">" = ["consul"; "1.21.3"].
Proof. reflexivity. Qed.

Example Split_trailing : Split "consul>" ">" = ["consul"; ""].
Proof. reflexivity. Qed.

Example Split_empty : Split "" "," = [""].
Proof. reflexivity. Qed.

Example TrimSpace_both : TrimSpace "  linux_amd64 " = "linux_amd64".
Proof. reflexivity. Qed.

Example HasSuffix_sig : HasSuffix "terraform-provider-aws_5.0.0_SHA256SUMS.sig" ".sig" = true.
Proof. reflexivity. Qed.

Example Contains_sums : Contains "terraform-provider-aws_5.0.0_SHA256SUMS" "SHA256SUMS" = true.
Proof. reflexivity. Qed.

Lemma Split_nonempty (s : string) (sep : ascii) : Split s sep <> [].
Proof.
  destruct s as [|c s]; cbn [Split]; [discriminate|].
  destruct (Ascii.eqb c sep); [discriminate|].
  destruct (Split s sep); discriminate.
Qed.

Example TrimPrefix_provider :
  TrimPrefix "terraform-provider-aws_5.0.0_linux_amd64.zip" "terraform-provider-"
  = "aws_5.0.0_linux_amd64.zip".
Proof. reflexivity. Qed.

Example TrimPrefix_absent : TrimPrefix "index.json" "terraform-provider-" = "index.json".
Proof. reflexivity. Qed.

Example TrimSuffix_zip : TrimSuffix "aws_5.0.0_linux_amd64.zip" ".zip" = "aws_5.0.0_linux_amd64".
Proof. reflexivity. Qed.

Example TrimSuffix_absent : TrimSuffix "5.0.0.json" ".zip" = "5.0.0.json".
Proof. reflexivity. Qed.

Example TrimSuffix_inner : TrimSuffix "a.zip.zip" ".zip" = "a.zip".
Proof. reflexivity. Qed.

(** A string without the separator is a single piece. *)
Lemma Split_free (s : string) (sep : ascii) : hasByte sep s = false -> Split s sep = [s].
Proof.
  induction s as [|a s IH]; cbn [hasByte Split]; [done|].
  destruct (Ascii.eqb a sep); [discriminate|]. intros H. by rewrite IH.
Qed.

(** The first separator ends the first piece. *)
Lemma Split_app (a b : string) (sep : ascii) :
  hasByte sep a = false ->
  Split (a +:+ String sep b) sep = a :: Split b sep.
Proof.
  induction a as [|c a IH]; cbn [hasByte].
  - intros _. change ("" +:+ String sep b) with (String sep b).
    cbn [Split]. by rewrite Ascii.eqb_refl.
  - destruct (Ascii.eqb c sep) eqn:Hc; [discriminate|]. intros H.
    change (String c a +:+ String sep b) with (String c (a +:+ String sep b)).
    cbn [Split]. by rewrite Hc, IH.
Qed.

(** Pieces that hold no separator come back from their concatenation. *)
Lemma Split_concat (l : list string) (sep : ascii) :
  l <> [] ->
  Forall (fun s => hasByte sep s = false) l ->
  Split (String.concat (String sep EmptyString) l) sep = l.
Proof.
  induction l as [|a l IH]; [done|]. intros _ Hall.
  apply Forall_cons in Hall as [Ha Hl].
  destruct l as [|b l].
  - cbn [String.concat]. by apply Split_free.
  - cbn [String.concat] in *.
    change (a +:+ String sep "" +:+ ?s) with (a +:+ String sep s).
    rewrite Split_app by done. f_equal. by apply IH.
Qed.

Lemma length_append (a b : string) :
  String.length (a +:+ b) = (String.length a + String.length b)%nat.
Proof.
  induction a as [|c a IH]; [done|].
  change (String c a +:+ b) with (String c (a +:+ b)). cbn [String.length]. by rewrite IH.
Qed.

Lemma HasPrefix_append (pre rest : string) : HasPrefix (pre +:+ rest) pre = true.
Proof.
  unfold HasPrefix. induction pre as [|c pre IH].
  - by destruct rest.
  - change (String c pre +:+ rest) with (String c (pre +:+ rest)). cbn [String.prefix].
    destruct (ascii_dec c c); [exact IH | done].
Qed.

(** A name that ends in a four-byte extension ends in no other one. *)
Lemma HasSuffix_other_extension (s ext ext' : string) :
  String.length ext = 4%nat -> String.length ext' = 4%nat -> ext <> ext' ->
  HasSuffix (s +:+ ext) ext' = false.
Proof.
  intros Hl Hl' Hne. induction s as [|c s IH].
  - change ("" +:+ ext) with ext.
    destruct ext as [|a1 [|a2 [|a3 [|a4 [|? ?]]]]]; try discriminate.
    cbn [HasSuffix].
    destruct (String.eqb_spec (String a1 (String a2 (String a3 (String a4 "")))) ext');
      [done|].
    destruct (String.eqb_spec (String a2 (String a3 (String a4 ""))) ext') as [<-|_];
      [discriminate|].
    destruct (String.eqb_spec (String a3 (String a4 "")) ext') as [<-|_]; [discriminate|].
    destruct (String.eqb_spec (String a4 "") ext') as [<-|_]; [discriminate|].
    destruct (String.eqb_spec "" ext') as [<-|_]; [discriminate|]. done.
  - change (String c s +:+ ext) with (String c (s +:+ ext)). cbn [HasSuffix].
    destruct (String.eqb_spec (String c (s +:+ ext)) ext') as [Heq|_]; [|exact IH].
    apply (f_equal String.length) in Heq. cbn [String.length] in Heq.
    rewrite length_append in Heq. lia.
Qed.

End Strings.

(** Errors carry the text that the Go code formats. *)
Inductive Result (A : Type) :=
| Ok (a : A)
| Err (msg : string).
Arguments Ok {A} a.
Arguments Err {A} msg.

(** ** internal/common/filters.go *)

Module Filters.
Import Strings.

Record ProviderFilterItem :=
  { Namespace : string; Name : string; MinVersion : string }.

Module ProviderFilter.
Record t := { providers : gmap string ProviderFilterItem; enabled : bool }.

Definition IsEnabled (f : t) : bool := enabled f.

Definition ShouldInclude (f : t) (namespace name : string) : bool :=
  if negb (enabled f) then true
  else bool_decide (is_Some (providers f !! (namespace +:+ "/" +:+ name))).

Definition GetMinVersion (f : t) (namespace name : string) : string :=
  if negb (enabled f) then ""
  else match providers f !! (namespace +:+ "/" +:+ name) with
       | None => ""
       | Some item => MinVersion item
       end.
End ProviderFilter.

Module PlatformFilter.
Record t := { platforms : gmap string bool; enabled : bool }.

Definition IsEnabled (f : t) : bool := enabled f.

Definition ShouldInclude (f : t) (os arch : string) : bool :=
  if negb (enabled f) then true
  else default false (platforms f !! (os +:+ "_" +:+ arch)).
End PlatformFilter.

(** The loop of [NewProviderFilter] over the comma-separated entries. *)
Fixpoint providerEntries (entries : list string) (f : ProviderFilter.t)
    : Result ProviderFilter.t :=
  match entries with
  | [] => Ok f
  | entry :: rest =>
      let entry := TrimSpace entry in
      if String.eqb entry "" then providerEntries rest f
      else
        let parts := Split entry ">" in
        let provider := hd "" parts in
        let minVersion :=
          match parts with
          | _ :: p1 :: _ => TrimSpace p1
          | _ => ""
          end in
        match Split provider "/" with
        | [ns; nm] =>
            if String.eqb ns "" || String.eqb nm ""
            then Err ("invalid provider format '" +:+ entry
                      +:+ "', expected 'namespace/name' or 'namespace/name>version'")
            else providerEntries rest
                   {| ProviderFilter.providers :=
                        <[ ns +:+ "/" +:+ nm :=
                           {| Namespace := ns; Name := nm; MinVersion := minVersion |} ]>
                          (ProviderFilter.providers f);
                      ProviderFilter.enabled := true |}
        | _ => Err ("invalid provider format '" +:+ entry
                      +:+ "', expected 'namespace/name' or 'namespace/name>version'")
        end
  end.

Definition NewProviderFilter (filterString : string) : Result ProviderFilter.t :=
  let empty := {| ProviderFilter.providers := ∅; ProviderFilter.enabled := false |} in
  if String.eqb filterString "" then Ok empty
  else providerEntries (Split filterString ",") empty.

(** The loop of [NewPlatformFilter]. *)
Fixpoint platformEntries (entries : list string) (f : PlatformFilter.t)
    : Result PlatformFilter.t :=
  match entries with
  | [] => Ok f
  | platform :: rest =>
      let platform := TrimSpace platform in
      if String.eqb platform "" then platformEntries rest f
      else
        match Split platform "_" with
        | [os; arch] =>
            if String.eqb os "" || String.eqb arch ""
            then Err ("invalid platform format '" +:+ platform +:+ "', expected 'os_arch'")
            else platformEntries rest
                   {| PlatformFilter.platforms :=
                        <[ platform := true ]> (PlatformFilter.platforms f);
                      PlatformFilter.enabled := true |}
        | _ => Err ("invalid platform format '" +:+ platform +:+ "', expected 'os_arch'")
        end
  end.

Definition NewPlatformFilter (filterString : string) : Result PlatformFilter.t :=
  let empty := {| PlatformFilter.platforms := ∅; PlatformFilter.enabled := false |} in
  if String.eqb filterString "" then Ok empty
  else platformEntries (Split filterString ",") empty.

(** [FilterVersionsByMin].  The semantic-version library
    (github.com/blang/semver/v4) is outside the repository: its tolerant
    parser and its comparison are the two arguments of the section. *)
Section VersionPredicate.
Context {Version : Type}.
Variable ParseTolerant : string -> option Version.
Variable GTE : Version -> Version -> bool.

(** One iteration of [for _, v := range versions]. *)
Definition keepVersion (minVer : Version) (filtered : list string) (v : string)
    : list string :=
  match ParseTolerant v with
  | None => filtered
  | Some ver => if GTE ver minVer then filtered ++ [v] else filtered
  end.

Definition FilterVersionsByMin (versions : list string) (minVersion : string)
    : list string :=
  if String.eqb minVersion "" then versions
  else match ParseTolerant minVersion with
       | None => versions
       | Some minVer => fold_left (keepVersion minVer) versions []
       end.

(** The specification's predicate: the candidate parses and is [>= m]. *)
Definition atLeast (m : Version) (v : string) : bool :=
  match ParseTolerant v with
  | Some ver => GTE ver m
  | None => false
  end.

End VersionPredicate.

(** A small tolerant parser to run the filter on: dotted decimal numbers with
    an optional leading [v], a missing minor or patch number read as 0.  It
    stands in for the library in the examples below and nowhere else. *)
Fixpoint digits (s : string) (acc : N) : option N :=
  match s with
  | EmptyString => Some acc
  | String c s' =>
      let n := N_of_ascii c in
      if ((48 <=? n) && (n <=? 57))%N then digits s' (acc * 10 + (n - 48))%N else None
  end.

Definition number (s : string) : option N :=
  if String.eqb s "" then None else digits s 0.

Definition dotted (s : string) : option (N * N * N) :=
  let s := match s with
           | String "v" s' => s'
           | _ => s
           end in
  match number <$> Split s "." with
  | [Some major] => Some (major, 0, 0)%N
  | [Some major; Some minor] => Some (major, minor, 0)%N
  | [Some major; Some minor; Some patch] => Some (major, minor, patch)
  | _ => None
  end.

Definition dottedGTE (a b : N * N * N) : bool :=
  let '(a1, a2, a3) := a in
  let '(b1, b2, b3) := b in
  ((b1 <? a1) || (b1 =? a1) && ((b2 <? a2) || (b2 =? a2) && (b3 <=? a3)))%N.

(** What the loop of [NewProviderFilter] keeps true of the filter. *)
Definition providerFilterOk (f : ProviderFilter.t) : Prop :=
  (ProviderFilter.enabled f = true <-> ProviderFilter.providers f <> ∅) /\
  forall key item,
    ProviderFilter.providers f !! key = Some item ->
    key = Namespace item +:+ "/" +:+ Name item /\ Namespace item <> "" /\ Name item <> "".

(** *** Properties of the version predicate *)

Section VersionFacts.
Context {Version : Type}.
Variable ParseTolerant : string -> option Version.
Variable GTE : Version -> Version -> bool.

Lemma keepVersion_fold (m : Version) (versions acc : list string) :
  fold_left (keepVersion ParseTolerant GTE m) versions acc = acc ++ List.filter (atLeast ParseTolerant GTE m) versions.
Proof.
  revert acc. induction versions as [|v vs IH]; intros acc; cbn [fold_left List.filter].
  - by rewrite app_nil_r.
  - rewrite IH. unfold keepVersion, atLeast.
    destruct (ParseTolerant v) as [ver|]; [|done].
    destruct (GTE ver m); [|done].
    by rewrite <- app_assoc.
Qed.

(** C6. With an empty or unparseable [minVersion] the candidates come
    back unchanged; otherwise the result is exactly the candidates that
    parse to a version [>= minVersion], in their original order, the
    unparseable ones dropped. *)
Theorem FilterVersionsByMin_spec (V : list string) (m : string) :
  (m = "" \/ ParseTolerant m = None -> FilterVersionsByMin ParseTolerant GTE V m = V) /\
  (forall mv, m <> "" -> ParseTolerant m = Some mv ->
     FilterVersionsByMin ParseTolerant GTE V m = List.filter (atLeast ParseTolerant GTE mv) V /\
     sublist (FilterVersionsByMin ParseTolerant GTE V m) V /\
     (forall v, v ∈ FilterVersionsByMin ParseTolerant GTE V m <->
        v ∈ V /\ exists ver, ParseTolerant v = Some ver /\ GTE ver mv = true)).
Proof.
  unfold FilterVersionsByMin. split.
  - intros [-> | Hm]; [done|].
    destruct (String.eqb m ""); [done|]. by rewrite Hm.
  - intros mv Hne Hm.
    destruct (String.eqb_spec m ""); [done|]. rewrite Hm.
    rewrite keepVersion_fold. cbn [app].
    split; [done|]. split.
    + clear. induction V as [|v V IH]; cbn [List.filter]; [constructor|].
      destruct (atLeast ParseTolerant GTE mv v); by constructor.
    + intros v. rewrite !list_elem_of_In, filter_In. unfold atLeast.
      split.
      * intros [Hin Hk]. split; [done|].
        destruct (ParseTolerant v) as [ver|]; [|done]. by exists ver.
      * intros [Hin (ver & Hp & Hg)]. split; [done|]. by rewrite Hp.
Qed.

End VersionFacts.

Example FilterVersionsByMin_scenario :
  FilterVersionsByMin dotted dottedGTE ["1.0.0"; "1.1.0"; "nightly"; "v1.2"; "1.10.0"] "1.1.0"
  = ["1.1.0"; "v1.2"; "1.10.0"].
Proof. reflexivity. Qed.

Example FilterVersionsByMin_no_minimum :
  FilterVersionsByMin dotted dottedGTE ["1.0.0"; "nightly"] "" = ["1.0.0"; "nightly"].
Proof. reflexivity. Qed.

Example FilterVersionsByMin_bad_minimum :
  FilterVersionsByMin dotted dottedGTE ["1.0.0"; "nightly"] "latest" = ["1.0.0"; "nightly"].
Proof. reflexivity. Qed.

(** *** Further properties of the filters *)

Section VersionLaws.
Context {Version : Type}.
Variable ParseTolerant : string -> option Version.
Variable GTE : Version -> Version -> bool.

Lemma filter_twice {A : Type} (f : A -> bool) (l : list A) :
  List.filter f (List.filter f l) = List.filter f l.
Proof.
  induction l as [|x l IH]; [done|]. cbn [List.filter].
  destruct (f x) eqn:Hx; [|done]. cbn [List.filter]. by rewrite Hx, IH.
Qed.

(** X5.  Filtering by the same minimum a second time changes nothing,
    whatever the version parser accepts. *)
Theorem FilterVersionsByMin_idempotent (V : list string) (m : string) :
  FilterVersionsByMin ParseTolerant GTE (FilterVersionsByMin ParseTolerant GTE V m) m =
  FilterVersionsByMin ParseTolerant GTE V m.
Proof.
  unfold FilterVersionsByMin.
  destruct (String.eqb m ""); [done|].
  destruct (ParseTolerant m) as [mv|]; [|done].
  rewrite !keepVersion_fold. cbn [app]. apply filter_twice.
Qed.

End VersionLaws.

Lemma platform_key_nonempty (os arch : string) : os +:+ "_" +:+ arch <> "".
Proof. by destruct os. Qed.

Lemma providerEntries_inv (entries : list string) (f0 f : ProviderFilter.t) :
  providerEntries entries f0 = Ok f ->
  providerFilterOk f0 ->
  providerFilterOk f /\
  (ProviderFilter.enabled f = true <->
   ProviderFilter.enabled f0 = true \/ exists e, e ∈ entries /\ TrimSpace e <> "").
Proof.
  revert f0. induction entries as [|e es IH]; intros f0 Hrun Hok; cbn [providerEntries] in Hrun.
  - injection Hrun as <-. split; [done|]. split; [by left|].
    intros [?|(e & Hin & _)]; [done | by apply elem_of_nil in Hin].
  - destruct (String.eqb_spec (TrimSpace e) "") as [Hblank|Hne].
    + destruct (IH f0 Hrun Hok) as [Hf Hen]. split; [done|]. rewrite Hen. split.
      * intros [?|(e' & Hin & He')]; [by left|]. right. exists e'. split; [by right | done].
      * intros [?|(e' & Hin & He')]; [by left|].
        apply elem_of_cons in Hin as [->|Hin]; [done|]. right. by exists e'.
    + destruct (Split (hd "" (Split (TrimSpace e) ">")) "/") as [|ns [|nm [|x l]]];
        try discriminate.
      destruct (String.eqb_spec ns "") as [?|Hns]; [discriminate|].
      destruct (String.eqb_spec nm "") as [?|Hnm]; [discriminate|].
      cbn [orb] in Hrun.
      match type of Hrun with providerEntries es ?f1 = _ =>
        destruct (IH f1 Hrun) as [Hf Hen] end.
      { split; cbn [ProviderFilter.enabled ProviderFilter.providers].
        - split; [intros _; apply insert_non_empty | done].
        - intros key item Hlook. destruct Hok as [_ Hitems].
          destruct (decide (key = ns +:+ "/" +:+ nm)) as [->|Hk].
          + rewrite lookup_insert_eq in Hlook. injection Hlook as <-. done.
          + rewrite lookup_insert_ne in Hlook by done. by apply Hitems. }
      split; [done|]. rewrite Hen. cbn [ProviderFilter.enabled]. split.
      * intros _. right. exists e. split; [by left | done].
      * intros _. by left.
Qed.

(** X6.  A provider filter that parses is enabled exactly when the filter
    string has an entry that is not blank, and exactly when it holds a
    provider; each provider is stored under [namespace/name] with both
    parts non-empty.  A string of commas and blanks alone therefore gives a
    filter that lets every provider through. *)
Theorem NewProviderFilter_wellFormed (filterString : string) (f : ProviderFilter.t) :
  NewProviderFilter filterString = Ok f ->
  (ProviderFilter.enabled f = true <->
   exists e, e ∈ Split filterString "," /\ TrimSpace e <> "") /\
  (ProviderFilter.enabled f = true <-> ProviderFilter.providers f <> ∅) /\
  (forall key item,
     ProviderFilter.providers f !! key = Some item ->
     key = Namespace item +:+ "/" +:+ Name item /\ Namespace item <> "" /\ Name item <> "") /\
  ((forall e, e ∈ Split filterString "," -> TrimSpace e = "") ->
   forall namespace name, ProviderFilter.ShouldInclude f namespace name = true).
Proof.
  intros Hparse. unfold NewProviderFilter in Hparse.
  assert (Hempty : providerFilterOk
            {| ProviderFilter.providers := ∅; ProviderFilter.enabled := false |}).
  { split; cbn; [split; [discriminate | done]|].
    intros key item Hlook. by rewrite lookup_empty in Hlook. }
  assert (Hen : ProviderFilter.enabled f = true <->
                exists e, e ∈ Split filterString "," /\ TrimSpace e <> "").
  { destruct (String.eqb_spec filterString "") as [->|Hne].
    - injection Hparse as <-. cbn. split; [discriminate|].
      intros (e & Hin & He). apply list_elem_of_singleton in Hin as ->. done.
    - destruct (providerEntries_inv _ _ _ Hparse Hempty) as [_ Hen].
      rewrite Hen. cbn. split; [intros [?|?]; done | by right]. }
  assert (Hok : providerFilterOk f).
  { destruct (String.eqb_spec filterString "") as [->|Hne].
    - by injection Hparse as <-.
    - by destruct (providerEntries_inv _ _ _ Hparse Hempty). }
  destruct Hok as [Hprov Hitems].
  split; [exact Hen|]. split; [exact Hprov|]. split; [exact Hitems|].
  intros Hblank namespace name. unfold ProviderFilter.ShouldInclude.
  destruct (ProviderFilter.enabled f) eqn:He; [|done].
  destruct Hen as [Hen _]. destruct (Hen eq_refl) as (e & Hin & Hne).
  by rewrite (Hblank e Hin) in Hne.
Qed.

Lemma NewProviderFilter_wellFormed_witness :
  exists f,
    NewProviderFilter "hashicorp/aws>5.0.0, hashicorp/helm" = Ok f /\
    (ProviderFilter.enabled f = true <->
     exists e, e ∈ Split "hashicorp/aws>5.0.0, hashicorp/helm" "," /\ TrimSpace e <> "") /\
    (ProviderFilter.enabled f = true <-> ProviderFilter.providers f <> ∅) /\
    (forall key item,
       ProviderFilter.providers f !! key = Some item ->
       key = Namespace item +:+ "/" +:+ Name item /\ Namespace item <> "" /\ Name item <> "") /\
    ((forall e, e ∈ Split "hashicorp/aws>5.0.0, hashicorp/helm" "," -> TrimSpace e = "") ->
     forall namespace name, ProviderFilter.ShouldInclude f namespace name = true).
Proof.
  eexists. split; [vm_compute; reflexivity|].
  apply (NewProviderFilter_wellFormed "hashicorp/aws>5.0.0, hashicorp/helm").
  vm_compute. reflexivity.
Defined.

Lemma platformEntries_inv (entries : list string) (f0 f : PlatformFilter.t) :
  platformEntries entries f0 = Ok f ->
  (PlatformFilter.enabled f = true <->
   PlatformFilter.enabled f0 = true \/ exists e, e ∈ entries /\ TrimSpace e <> "") /\
  (forall key,
     PlatformFilter.platforms f !! key = Some true <->
     PlatformFilter.platforms f0 !! key = Some true \/
     exists e, e ∈ entries /\ TrimSpace e = key /\ key <> "").
Proof.
  revert f0. induction entries as [|e es IH]; intros f0 Hrun; cbn [platformEntries] in Hrun.
  - injection Hrun as <-. split.
    + split; [by left|]. intros [?|(e & Hin & _)]; [done | by apply elem_of_nil in Hin].
    + intros key. split; [by left|].
      intros [?|(e & Hin & _)]; [done | by apply elem_of_nil in Hin].
  - destruct (String.eqb_spec (TrimSpace e) "") as [Hblank|Hne].
    + destruct (IH f0 Hrun) as [Hen Hkeys]. split.
      * rewrite Hen. split.
        -- intros [?|(e' & Hin & He')]; [by left|]. right. exists e'. split; [by right | done].
        -- intros [?|(e' & Hin & He')]; [by left|].
           apply elem_of_cons in Hin as [->|Hin]; [done|]. right. by exists e'.
      * intros key. rewrite Hkeys. split.
        -- intros [?|(e' & Hin & He')]; [by left|]. right. exists e'. split; [by right | done].
        -- intros [?|(e' & Hin & He' & Hk)]; [by left|].
           apply elem_of_cons in Hin as [->|Hin]; [congruence|]. right. by exists e'.
    + destruct (Split (TrimSpace e) "_") as [|os [|arch [|x l]]]; try discriminate.
      destruct (String.eqb os "" || String.eqb arch ""); [discriminate|].
      match type of Hrun with platformEntries es ?f1 = _ =>
        destruct (IH f1 Hrun) as [Hen Hkeys] end.
      cbn [PlatformFilter.enabled PlatformFilter.platforms] in Hen, Hkeys. split.
      * rewrite Hen. split; [|by intros _; left].
        intros _. right. exists e. split; [by left | done].
      * intros key. rewrite Hkeys. split.
        -- intros [Hlook|(e' & Hin & He')].
           ++ destruct (decide (key = TrimSpace e)) as [->|Hk].
              ** right. exists e. split; [by left | done].
              ** left. by rewrite lookup_insert_ne in Hlook.
           ++ right. exists e'. split; [by right | done].
        -- intros [Hlook|(e' & Hin & He' & Hk)].
           ++ left. destruct (decide (TrimSpace e = key)) as [->|Hk].
              ** by rewrite lookup_insert_eq.
              ** by rewrite lookup_insert_ne.
           ++ apply elem_of_cons in Hin as [->|Hin].
              ** left. rewrite He'. by rewrite lookup_insert_eq.
              ** right. by exists e'.
Qed.

(** X7.  A platform filter that parses is enabled exactly when the filter
    string has an entry that is not blank; once enabled it lets [os], [arch]
    through exactly when some entry, trimmed, is [os_arch]. *)
Theorem NewPlatformFilter_ShouldInclude (filterString : string) (f : PlatformFilter.t) :
  NewPlatformFilter filterString = Ok f ->
  (PlatformFilter.enabled f = true <->
   exists e, e ∈ Split filterString "," /\ TrimSpace e <> "") /\
  (forall os arch,
     PlatformFilter.ShouldInclude f os arch = true <->
     PlatformFilter.enabled f = false \/
     exists e, e ∈ Split filterString "," /\ TrimSpace e = os +:+ "_" +:+ arch).
Proof.
  intros Hparse. unfold NewPlatformFilter in Hparse.
  assert (Hboth :
    (PlatformFilter.enabled f = true <->
     exists e, e ∈ Split filterString "," /\ TrimSpace e <> "") /\
    (forall key, key <> "" ->
       PlatformFilter.platforms f !! key = Some true <->
       exists e, e ∈ Split filterString "," /\ TrimSpace e = key)).
  { destruct (String.eqb_spec filterString "") as [->|Hne].
    - injection Hparse as <-. cbn. split.
      + split; [discriminate|].
        intros (e & Hin & He). apply list_elem_of_singleton in Hin as ->. done.
      + intros key Hk. rewrite lookup_empty. split; [discriminate|].
        intros (e & Hin & He). apply list_elem_of_singleton in Hin as ->. done.
    - destruct (platformEntries_inv _ _ _ Hparse) as [Hen Hkeys]. cbn in Hen, Hkeys. split.
      + rewrite Hen. split; [intros [?|?]; done | by right].
      + intros key Hk. rewrite Hkeys, lookup_empty. split.
        * intros [?|(e & Hin & He & _)]; [done | by exists e].
        * intros (e & Hin & He). right. by exists e. }
  destruct Hboth as [Hen Hkeys]. split; [exact Hen|].
  intros os arch. unfold PlatformFilter.ShouldInclude.
  destruct (PlatformFilter.enabled f) eqn:He; cbn [negb].
  - rewrite <- (Hkeys _ (platform_key_nonempty os arch)).
    destruct (PlatformFilter.platforms f !! (os +:+ "_" +:+ arch)) as [[|]|];
      cbn [default from_option id];
      (split; [intros H; try discriminate H; by right
              | intros [H|H]; try discriminate H; done]).
  - split; [by left | done].
Qed.

Lemma NewPlatformFilter_ShouldInclude_witness :
  exists f,
    NewPlatformFilter "linux_amd64, darwin_arm64" = Ok f /\
    (PlatformFilter.enabled f = true <->
     exists e, e ∈ Split "linux_amd64, darwin_arm64" "," /\ TrimSpace e <> "") /\
    (forall os arch,
       PlatformFilter.ShouldInclude f os arch = true <->
       PlatformFilter.enabled f = false \/
       exists e, e ∈ Split "linux_amd64, darwin_arm64" "," /\
                 TrimSpace e = os +:+ "_" +:+ arch).
Proof.
  eexists. split; [vm_compute; reflexivity|].
  apply (NewPlatformFilter_ShouldInclude "linux_amd64, darwin_arm64").
  vm_compute. reflexivity.
Defined.

End Filters.

(** ** The mirror store on disk

    The store is the map from the path of each regular file to its content.
    Directories are implicit.  [history] keeps every state that the store
    went through, so that what another process (the server) may observe can
    be stated.  Each system call can fail for reasons outside the program
    (permissions, a full disk): the oracle [fails] decides. *)

Module FS.

Inductive Op :=
| MkdirAll (path : string)
| Create (path : string)
| Write (path : string) (n : nat)
| Close (path : string)
| Rename (oldPath newPath : string)
| Remove (path : string).

Record World :=
  { disk : gmap string string; history : list (gmap string string) }.

Definition start (d : gmap string string) : World := {| disk := d; history := [d] |}.

(** A change of the store, visible from then on. *)
Definition mutate (f : gmap string string -> gmap string string) (w : World) : World :=
  {| disk := f (disk w); history := history w ++ [f (disk w)] |}.

(** A response body as a stream: the chunks that arrive, then the error
    that ends the stream early, if any. *)
Record Reader := { chunks : list string; readErr : option string }.

Definition content (r : Reader) : string := String.concat "" (chunks r).

(** [os.Create]: the file exists from now on and is empty. *)
Definition create (path : string) : World -> World :=
  mutate (<[path := ""]>).

(** [os.Remove], the result of which the callers ignore. *)
Definition remove (fails : Op -> bool) (path : string) (w : World) : World :=
  if fails (Remove path) then w else mutate (delete path) w.

(** [os.Rename] of a regular file: the target is replaced in one step. *)
Definition rename (oldPath newPath : string) (w : World) : option World :=
  match disk w !! oldPath with
  | None => None
  | Some c => Some (mutate (fun d => <[newPath := c]> (delete oldPath d)) w)
  end.

(** [io.Copy(file, reader)]: each chunk read is written before the next
    one is read. *)
Fixpoint copy (fails : Op -> bool) (path : string) (n : nat) (cs : list string)
    (readErr : option string) (w : World) : option string * World :=
  match cs with
  | [] => (readErr, w)
  | c :: cs' =>
      if fails (Write path n) then (Some "short write", w)
      else copy fails path (S n) cs' readErr
             (mutate (alter (fun old => old +:+ c) path) w)
  end.

(** [os.Stat(path)] succeeds. *)
Definition present (w : World) (path : string) : bool :=
  bool_decide (is_Some (disk w !! path)).

(** [filepath.Join]: the non-empty elements separated by a slash.  The
    elements that the program joins are clean, so that [filepath.Clean]
    leaves the result as it is. *)
Definition Join (elems : list string) : string :=
  String.concat "/" (List.filter (fun e => negb (String.eqb e "")) elems).

(** [filepath.Dir]: the path without its last element. *)
Definition Dir (path : string) : string :=
  match removelast (Strings.Split path "/") with
  | [] => "."
  | elems =>
      let dir := String.concat "/" elems in
      if String.eqb dir "" then "/" else dir
  end.

(** The file at [other] had the content [v] (or was absent) in every state
    so far. *)
Definition stable (other : string) (v : option string) (w : World) : Prop :=
  disk w !! other = v /\ Forall (fun d => d !! other = v) (history w).

(** *** Properties of the store *)

Example Join_store :
  Join ["/data"; "consul"; "consul_1.16.0_linux_amd64.zip"] =
  "/data/consul/consul_1.16.0_linux_amd64.zip".
Proof. reflexivity. Qed.

Example Dir_store : Dir "/data/consul/consul_1.16.0_linux_amd64.zip" = "/data/consul".
Proof. reflexivity. Qed.

Lemma append_empty_r (s : string) : s +:+ "" = s.
Proof.
  induction s as [|c s IH]; [done|].
  change (String c (s +:+ "") = String c s). by rewrite IH.
Qed.

Lemma append_assoc (s1 s2 s3 : string) : (s1 +:+ s2) +:+ s3 = s1 +:+ (s2 +:+ s3).
Proof.
  induction s1 as [|c s1 IH]; [done|].
  change (String c ((s1 +:+ s2) +:+ s3) = String c (s1 +:+ (s2 +:+ s3))).
  by rewrite IH.
Qed.

Lemma tmp_distinct (path : string) : path +:+ ".tmp" <> path.
Proof.
  intros H.
  assert (H' : path +:+ ".tmp" = path +:+ "") by (by rewrite append_empty_r).
  apply (inj (String.app path)) in H'. discriminate.
Qed.

Lemma stable_start (other : string) (d : gmap string string) :
  stable other (d !! other) (start d).
Proof. split; [done|]. by apply Forall_singleton. Qed.

Lemma stable_mutate (other : string) (v : option string) (w : World)
    (f : gmap string string -> gmap string string) :
  (forall d, f d !! other = d !! other) ->
  stable other v w -> stable other v (mutate f w).
Proof.
  intros Hf [Hd Hh]. split; cbn [mutate disk history].
  - by rewrite Hf.
  - apply Forall_app. split; [done|]. apply Forall_singleton. by rewrite Hf.
Qed.

Lemma stable_create (other path : string) (v : option string) (w : World) :
  path <> other -> stable other v w -> stable other v (create path w).
Proof. intros Hne. apply stable_mutate. intros d. by rewrite lookup_insert_ne. Qed.

Lemma stable_remove (fails : Op -> bool) (other path : string) (v : option string)
    (w : World) :
  path <> other -> stable other v w -> stable other v (remove fails path w).
Proof.
  intros Hne Hw. unfold remove. destruct (fails (Remove path)); [done|].
  apply stable_mutate; [|done]. intros d. by rewrite lookup_delete_ne.
Qed.

Lemma stable_copy (fails : Op -> bool) (other path : string) (v : option string)
    (n : nat) (cs : list string) (readErr : option string) (w : World) :
  path <> other -> stable other v w ->
  stable other v (copy fails path n cs readErr w).2.
Proof.
  intros Hne. revert n w. induction cs as [|c cs IH]; intros n w Hw; cbn [copy].
  - done.
  - destruct (fails (Write path n)); [done|].
    apply IH. apply stable_mutate; [|done].
    intros d. by rewrite lookup_alter_ne.
Qed.

(** A copy that reports no error has appended every chunk. *)
Lemma copy_complete (fails : Op -> bool) (path : string) (n : nat) (cs : list string)
    (readErr : option string) (w : World) (c0 : string) :
  disk w !! path = Some c0 ->
  (copy fails path n cs readErr w).1 = None ->
  readErr = None /\
  disk (copy fails path n cs readErr w).2 !! path = Some (c0 +:+ String.concat "" cs).
Proof.
  revert n w c0. induction cs as [|c cs IH]; intros n w c0 Hc0; cbn [copy].
  - intros Herr. split; [done|]. cbn [String.concat snd]. by rewrite append_empty_r.
  - destruct (fails (Write path n)); [discriminate|].
    intros Herr.
    destruct (IH (S n) (mutate (alter (fun old => old +:+ c) path) w) (c0 +:+ c))
      as [Hr Hd]; [|done|].
    + cbn [mutate disk]. by rewrite lookup_alter_eq, Hc0.
    + split; [done|]. rewrite Hd. f_equal.
      destruct cs as [|c' cs'].
      * cbn [String.concat]. by rewrite append_empty_r.
      * cbn [String.concat]. change (c +:+ "" +:+ c' +:+ ?s) with (c +:+ c' +:+ s).
        apply append_assoc.
Qed.

(** Copying into [path] leaves the content of every other file. *)
Lemma copy_disk_other (fails : Op -> bool) (path other : string) (n : nat)
    (cs : list string) (readErr : option string) (w : World) :
  path <> other ->
  disk (copy fails path n cs readErr w).2 !! other = disk w !! other.
Proof.
  intros Hne. revert n w. induction cs as [|c cs IH]; intros n w; cbn [copy]; [done|].
  destruct (fails (Write path n)); [done|].
  rewrite IH. cbn [mutate disk]. by rewrite lookup_alter_ne.
Qed.

Lemma remove_disk_other (fails : Op -> bool) (path other : string) (w : World) :
  path <> other -> disk (remove fails path w) !! other = disk w !! other.
Proof.
  intros Hne. unfold remove. destruct (fails (Remove path)); [done|].
  cbn [mutate disk]. by rewrite lookup_delete_ne.
Qed.

Lemma remove_disk_gone (fails : Op -> bool) (path : string) (w : World) :
  fails (Remove path) = false -> disk (remove fails path w) !! path = None.
Proof. intros Hf. unfold remove. rewrite Hf. cbn [mutate disk]. apply lookup_delete_eq. Qed.

End FS.

(** ** The registry client: provider discovery *)

Module Registry.

Record ProviderListItem :=
  { Namespace : string; Name : string; Description : string }.

(** What becomes of a response body: [io.ReadAll] fails, [json.Unmarshal]
    fails, or the document decodes to a [ProviderList]. *)
Inductive Body :=
| BodyReadErr (cause : string)
| BodyBadJSON (cause : string)
| BodyList (providers : list ProviderListItem).

(** Result of [r.client.Get(url)]. *)
Inductive GetResult :=
| GetErr (cause : string)
| GetResp (status : Z) (body : Body).

Inductive Error :=
| ErrGet (offset : Z) (cause : string)
| ErrStatus (status offset : Z)
| ErrRead (cause : string)
| ErrParse (cause : string).

Definition limit : Z := 100.

(** [fmt.Sprintf("%s/v1/providers?offset=%d&limit=%d", r.baseURL, offset, limit)] *)
Definition listURL (baseURL : string) (offset : Z) : string :=
  baseURL +:+ "/v1/providers?offset=" +:+ pretty offset +:+ "&limit=" +:+ pretty limit.

(** The [for] loop of [DiscoverAllProviders].  The Go loop has no bound of
    its own; [fuel] bounds the number of pages and [None] means that it ran
    out.  The second component lists the URLs requested, in order. *)
Fixpoint discoverLoop (get : string -> GetResult) (baseURL : string) (fuel : nat)
    (offset : Z) (allProviders : list ProviderListItem) (requested : list string)
    : option (Error + list ProviderListItem) * list string :=
  match fuel with
  | O => (None, requested)
  | S fuel' =>
      let url := listURL baseURL offset in
      let requested := requested ++ [url] in
      match get url with
      | GetErr e => (Some (inl (ErrGet offset e)), requested)
      | GetResp status body =>
          if negb (status =? 200)%Z then (Some (inl (ErrStatus status offset)), requested)
          else
            match body with
            | BodyReadErr e => (Some (inl (ErrRead e)), requested)
            | BodyBadJSON e => (Some (inl (ErrParse e)), requested)
            | BodyList providers =>
                if (length providers =? 0)%nat then (Some (inr allProviders), requested)
                else
                  let allProviders := allProviders ++ providers in
                  if (Z.of_nat (length providers) <? limit)%Z
                  then (Some (inr allProviders), requested)
                  else discoverLoop get baseURL fuel' (wrap64 (offset + limit))
                         allProviders requested
            end
      end
  end.

Definition DiscoverAllProviders (get : string -> GetResult) (baseURL : string)
    (fuel : nat) : option (Error + list ProviderListItem) * list string :=
  discoverLoop get baseURL fuel 0 [] [].

(** *** Writing a download: [DownloadFile] and [saveFile] *)

Inductive SaveError :=
| ErrMkdir (dir : string)
| ErrCreateTemp (tempPath : string)
| ErrWriteContent (cause : string)
| ErrCloseFile
| ErrRenameTemp
| ErrDownload (cause : string)
| ErrDownloadStatus (status : Z).

(** [saveFile]: directory, temporary file, copy, close, rename; the
    temporary file is removed on every failure after its creation. *)
Definition saveFile (fails : FS.Op -> bool) (reader : FS.Reader) (destPath : string)
    (w : FS.World) : option SaveError * FS.World :=
  let dir := FS.Dir destPath in
  if fails (FS.MkdirAll dir) then (Some (ErrMkdir dir), w)
  else
    let tempPath := destPath +:+ ".tmp" in
    if fails (FS.Create tempPath) then (Some (ErrCreateTemp tempPath), w)
    else
      let copied :=
        FS.copy fails tempPath 0 (FS.chunks reader) (FS.readErr reader)
          (FS.create tempPath w) in
      let closeErr := fails (FS.Close tempPath) in
      match copied.1 with
      | Some e => (Some (ErrWriteContent e), FS.remove fails tempPath copied.2)
      | None =>
          if closeErr then (Some ErrCloseFile, FS.remove fails tempPath copied.2)
          else if fails (FS.Rename tempPath destPath)
          then (Some ErrRenameTemp, FS.remove fails tempPath copied.2)
          else match FS.rename tempPath destPath copied.2 with
               | Some w' => (None, w')
               | None => (Some ErrRenameTemp, FS.remove fails tempPath copied.2)
               end
      end.

(** Result of [r.client.GetWithContext(ctx, url)] for an archive. *)
Inductive FileResult :=
| FileErr (cause : string)
| FileResp (status : Z) (body : FS.Reader).

Definition DownloadFile (fails : FS.Op -> bool) (get : string -> FileResult)
    (url destPath : string) (w : FS.World) : option SaveError * FS.World :=
  match get url with
  | FileErr e => (Some (ErrDownload e), w)
  | FileResp status body =>
      if negb (status =? 200)%Z then (Some (ErrDownloadStatus status), w)
      else saveFile fails body destPath w
  end.

(** Offset of page [j]. *)
Definition pageOffset (j : nat) : Z := (100 * Z.of_nat j)%Z.

(** Pages [i], [i+1], ..., [i+n-1] of an upstream listing. *)
Definition pagesFrom (pages : nat -> list ProviderListItem) (i n : nat)
    : list ProviderListItem :=
  concat (map pages (seq i n)).

Definition urlsFrom (baseURL : string) (i n : nat) : list string :=
  map (fun j => listURL baseURL (pageOffset j)) (seq i n).

Definition item (n : nat) : ProviderListItem :=
  {| Namespace := "hashicorp"; Name := pretty n; Description := "" |}.

(** An upstream with 130 providers: a full first page and a short second. *)
Definition upstream130 (url : string) : GetResult :=
  if String.eqb url "https://registry.terraform.io/v1/providers?offset=0&limit=100"
  then GetResp 200 (BodyList (map item (seq 0 100)))
  else GetResp 200 (BodyList (map item (seq 100 30))).

Definition pages130 (j : nat) : list ProviderListItem :=
  match j with
  | O => map item (seq 0 100)
  | S _ => map item (seq 100 30)
  end.

(** [IsProviderPath].  Its argument is a path that [filepath.Rel] returned,
    which [filepath.Clean] leaves as it is. *)
Definition IsProviderPath (path : string) : bool :=
  let parts := Strings.Split path "/" in
  if (length parts <? 5)%nat then false
  else Strings.Contains (nth (length parts - 2) parts "") "_".

(** A store with an older archive, and a body in two chunks. *)
Definition oldStore : gmap string string := {[ "/data/a.zip" := "old archive" ]}.

Definition twoChunks : FS.Reader :=
  {| FS.chunks := ["PK-first;"; "second"]; FS.readErr := None |}.

Definition brokenBody : FS.Reader :=
  {| FS.chunks := ["PK-first;"]; FS.readErr := Some "unexpected EOF" |}.

Definition neverFails (op : FS.Op) : bool := false.

Definition staticHost (body : FS.Reader) (url : string) : FileResult := FileResp 200 body.

(** *** Properties of discovery and of [saveFile] *)

Lemma discoverLoop_pages (get : string -> GetResult) (baseURL : string)
    (pages : nat -> list ProviderListItem) (n i fuel : nat)
    (acc : list ProviderListItem) (requested : list string) :
  (100 * Z.of_nat (i + n) < 2 ^ 63)%Z ->
  (forall j, (i <= j < i + n)%nat ->
     get (listURL baseURL (pageOffset j)) = GetResp 200 (BodyList (pages j)) /\
     (100 <= length (pages j))%nat) ->
  get (listURL baseURL (pageOffset (i + n))) = GetResp 200 (BodyList (pages (i + n)%nat)) ->
  (length (pages (i + n)%nat) < 100)%nat ->
  (n < fuel)%nat ->
  discoverLoop get baseURL fuel (pageOffset i) acc requested =
    (Some (inr (acc ++ pagesFrom pages i (S n))), requested ++ urlsFrom baseURL i (S n)).
Proof.
  revert i fuel acc requested.
  induction n as [|n IH]; intros i fuel acc requested Hrange Hfull Hlast Hshort Hfuel.
  - destruct fuel as [|fuel]; [lia|]. cbn [discoverLoop].
    rewrite Nat.add_0_r in Hlast, Hshort. rewrite Hlast. cbn [negb Z.eqb Pos.eqb].
    unfold pagesFrom, urlsFrom. cbn [seq map concat]. rewrite !app_nil_r.
    destruct (length (pages i) =? 0)%nat eqn:Hlen.
    + apply Nat.eqb_eq in Hlen. apply nil_length_inv in Hlen.
      by rewrite Hlen, app_nil_r.
    + replace (Z.of_nat (length (pages i)) <? limit)%Z with true; [done|].
      symmetry. apply Z.ltb_lt. unfold limit. lia.
  - destruct fuel as [|fuel]; [lia|]. cbn [discoverLoop].
    destruct (Hfull i) as [Hget Hlen]; [lia|].
    rewrite Hget. cbn [negb Z.eqb Pos.eqb].
    replace (length (pages i) =? 0)%nat with false
      by (symmetry; apply Nat.eqb_neq; lia).
    replace (Z.of_nat (length (pages i)) <? limit)%Z with false
      by (symmetry; apply Z.ltb_ge; unfold limit; lia).
    assert (Hoff : wrap64 (pageOffset i + limit) = pageOffset (S i)).
    { unfold pageOffset, limit. rewrite wrap64_small; lia. }
    rewrite Hoff.
    rewrite (IH (S i) fuel); try lia.
    + unfold pagesFrom, urlsFrom. cbn [seq map concat].
      by rewrite <- !app_assoc.
    + intros j Hj. apply Hfull. lia.
    + by replace (S i + n)%nat with (i + S n)%nat by lia.
    + by replace (S i + n)%nat with (i + S n)%nat by lia.
Qed.

(** C8. When the pages at offsets 0, 100, ..., 100(k-1) each come back
    with status 200 and at least 100 items and the page at offset 100k comes
    back with fewer than 100 (possibly none), discovery requests exactly the
    [k + 1] URLs [/v1/providers?offset=<100j>&limit=100], [j = 0..k], in
    that order, then stops and returns the pages concatenated in upstream
    order; any supply of more than [k] loop iterations suffices. *)
Theorem DiscoverAllProviders_pagination (get : string -> GetResult) (baseURL : string)
    (pages : nat -> list ProviderListItem) (k fuel : nat) :
  (100 * Z.of_nat k < 2 ^ 63)%Z ->
  (forall j, (j < k)%nat ->
     get (listURL baseURL (pageOffset j)) = GetResp 200 (BodyList (pages j)) /\
     (100 <= length (pages j))%nat) ->
  get (listURL baseURL (pageOffset k)) = GetResp 200 (BodyList (pages k)) ->
  (length (pages k) < 100)%nat ->
  (k < fuel)%nat ->
  DiscoverAllProviders get baseURL fuel =
    (Some (inr (pagesFrom pages 0 (S k))), urlsFrom baseURL 0 (S k)).
Proof.
  intros Hrange Hfull Hlast Hshort Hfuel. unfold DiscoverAllProviders.
  change 0%Z with (pageOffset 0).
  rewrite (discoverLoop_pages get baseURL pages k 0 fuel [] []); auto.
  intros j Hj. apply Hfull. lia.
Qed.

Lemma DiscoverAllProviders_pagination_witness :
  DiscoverAllProviders upstream130 "https://registry.terraform.io" 5 =
    (Some (inr (pagesFrom pages130 0 2)), urlsFrom "https://registry.terraform.io" 0 2).
Proof.
  apply (DiscoverAllProviders_pagination upstream130 "https://registry.terraform.io"
           pages130 1 5).
  - vm_compute. reflexivity.
  - intros j Hj. assert (j = 0%nat) as -> by lia.
    split; [vm_compute; reflexivity | vm_compute; lia].
  - vm_compute. reflexivity.
  - vm_compute. lia.
  - lia.
Defined.

(** A first page with fewer than [limit] items: one request, no second. *)
Example single_page :
  DiscoverAllProviders
    (fun _ => GetResp 200 (BodyList [item 0; item 1])) "https://registry.terraform.io" 3 =
    (Some (inr [item 0; item 1]),
     ["https://registry.terraform.io/v1/providers?offset=0&limit=100"]).
Proof. vm_compute. reflexivity. Qed.

(** X8.  [saveFile] is atomic at the final name: while it runs, and after
    it, the file at [destPath] is what it was before or, once the call has
    succeeded, the complete body. *)
Lemma saveFile_atomic (fails : FS.Op -> bool) (reader : FS.Reader) (destPath : string)
    (w : FS.World) (v : option string) :
  FS.stable destPath v w ->
  match (saveFile fails reader destPath w).1 with
  | Some _ => FS.stable destPath v (saveFile fails reader destPath w).2
  | None =>
      FS.readErr reader = None /\
      FS.disk (saveFile fails reader destPath w).2 !! destPath = Some (FS.content reader) /\
      Forall (fun d => d !! destPath = v \/ d !! destPath = Some (FS.content reader))
        (FS.history (saveFile fails reader destPath w).2)
  end.
Proof.
  intros Hw. unfold saveFile.
  destruct (fails (FS.MkdirAll (FS.Dir destPath))); [done|].
  destruct (fails (FS.Create (destPath +:+ ".tmp"))); [done|].
  pose proof (FS.tmp_distinct destPath) as Hne.
  assert (Hc : FS.stable destPath v
            (FS.copy fails (destPath +:+ ".tmp") 0 (FS.chunks reader) (FS.readErr reader)
               (FS.create (destPath +:+ ".tmp") w)).2).
  { apply FS.stable_copy; [done|]. by apply FS.stable_create. }
  pose proof (FS.copy_complete fails (destPath +:+ ".tmp") 0 (FS.chunks reader)
                (FS.readErr reader) (FS.create (destPath +:+ ".tmp") w) "") as Hfull.
  destruct (FS.copy fails (destPath +:+ ".tmp") 0 (FS.chunks reader) (FS.readErr reader)
              (FS.create (destPath +:+ ".tmp") w)) as [[e|] w1]; cbn [fst snd] in *.
  { by apply FS.stable_remove. }
  destruct (fails (FS.Close (destPath +:+ ".tmp"))); cbn [fst snd].
  { by apply FS.stable_remove. }
  destruct (fails (FS.Rename (destPath +:+ ".tmp") destPath)); cbn [fst snd].
  { by apply FS.stable_remove. }
  destruct Hfull as [Hr Hd];
    [unfold FS.create, FS.mutate; cbn [FS.disk]; by rewrite lookup_insert_eq | done |].
  unfold FS.rename. rewrite Hd. cbn [fst snd FS.mutate FS.disk FS.history].
  split; [done|]. rewrite lookup_insert_eq. split; [done|].
  destruct Hc as [_ Hh]. apply Forall_app. split.
  - eapply Forall_impl; [exact Hh|]. intros d Hdv. by left.
  - apply Forall_singleton. right. by rewrite lookup_insert_eq.
Qed.

(** *** Further properties of [saveFile] and [DownloadFile] *)

Lemma saveFile_atomic_witness :
  match (saveFile neverFails twoChunks "/data/a.zip" (FS.start oldStore)).1 with
  | Some _ =>
      FS.stable "/data/a.zip" (Some "old archive")
        (saveFile neverFails twoChunks "/data/a.zip" (FS.start oldStore)).2
  | None =>
      FS.readErr twoChunks = None /\
      FS.disk (saveFile neverFails twoChunks "/data/a.zip" (FS.start oldStore)).2
        !! "/data/a.zip" = Some (FS.content twoChunks) /\
      Forall (fun d => d !! "/data/a.zip" = Some "old archive" \/
                       d !! "/data/a.zip" = Some (FS.content twoChunks))
        (FS.history (saveFile neverFails twoChunks "/data/a.zip" (FS.start oldStore)).2)
  end.
Proof.
  apply (saveFile_atomic neverFails twoChunks "/data/a.zip" (FS.start oldStore)
           (Some "old archive")).
  exact (FS.stable_start "/data/a.zip" oldStore).
Defined.

(** The final store after [saveFile], at the final name. *)
Lemma saveFile_final (fails : FS.Op -> bool) (reader : FS.Reader) (destPath : string)
    (w : FS.World) :
  match (saveFile fails reader destPath w).1 with
  | Some _ =>
      FS.disk (saveFile fails reader destPath w).2 !! destPath = FS.disk w !! destPath
  | None =>
      FS.readErr reader = None /\
      FS.disk (saveFile fails reader destPath w).2 !! destPath = Some (FS.content reader)
  end.
Proof.
  unfold saveFile.
  destruct (fails (FS.MkdirAll (FS.Dir destPath))); [done|].
  destruct (fails (FS.Create (destPath +:+ ".tmp"))); [done|].
  pose proof (FS.tmp_distinct destPath) as Hne.
  pose proof (FS.copy_disk_other fails (destPath +:+ ".tmp") destPath 0 (FS.chunks reader)
                (FS.readErr reader) (FS.create (destPath +:+ ".tmp") w) Hne) as Hother.
  assert (Hcreate : FS.disk (FS.create (destPath +:+ ".tmp") w) !! destPath =
                    FS.disk w !! destPath).
  { unfold FS.create, FS.mutate. cbn [FS.disk]. by rewrite lookup_insert_ne. }
  rewrite Hcreate in Hother.
  pose proof (FS.copy_complete fails (destPath +:+ ".tmp") 0 (FS.chunks reader)
                (FS.readErr reader) (FS.create (destPath +:+ ".tmp") w) "") as Hfull.
  destruct (FS.copy fails (destPath +:+ ".tmp") 0 (FS.chunks reader) (FS.readErr reader)
              (FS.create (destPath +:+ ".tmp") w)) as [[e|] w1]; cbn [fst snd] in *.
  { by rewrite FS.remove_disk_other. }
  destruct (fails (FS.Close (destPath +:+ ".tmp"))); cbn [fst snd].
  { by rewrite FS.remove_disk_other. }
  destruct (fails (FS.Rename (destPath +:+ ".tmp") destPath)); cbn [fst snd].
  { by rewrite FS.remove_disk_other. }
  destruct Hfull as [Hr Hd];
    [unfold FS.create, FS.mutate; cbn [FS.disk]; by rewrite lookup_insert_eq | done |].
  unfold FS.rename. rewrite Hd. cbn [fst snd FS.mutate FS.disk].
  split; [done|]. by rewrite lookup_insert_eq.
Qed.

(** X9.  Once the temporary file could be created, [saveFile] leaves no
    [.tmp] file behind, whether it succeeds or fails, as long as [os.Remove]
    itself works. *)
Theorem saveFile_no_temp_left (fails : FS.Op -> bool) (reader : FS.Reader)
    (destPath : string) (w : FS.World) :
  fails (FS.MkdirAll (FS.Dir destPath)) = false ->
  fails (FS.Create (destPath +:+ ".tmp")) = false ->
  fails (FS.Remove (destPath +:+ ".tmp")) = false ->
  FS.disk (saveFile fails reader destPath w).2 !! (destPath +:+ ".tmp") = None.
Proof.
  intros Hmk Hcr Hrm. unfold saveFile. rewrite Hmk, Hcr.
  pose proof (FS.tmp_distinct destPath) as Hne.
  destruct (FS.copy fails (destPath +:+ ".tmp") 0 (FS.chunks reader) (FS.readErr reader)
              (FS.create (destPath +:+ ".tmp") w)) as [[e|] w1]; cbn [fst snd].
  { by apply FS.remove_disk_gone. }
  destruct (fails (FS.Close (destPath +:+ ".tmp"))); cbn [fst snd].
  { by apply FS.remove_disk_gone. }
  destruct (fails (FS.Rename (destPath +:+ ".tmp") destPath)); cbn [fst snd].
  { by apply FS.remove_disk_gone. }
  unfold FS.rename. destruct (FS.disk w1 !! (destPath +:+ ".tmp")) as [c|]; cbn [fst snd].
  - cbn [FS.mutate FS.disk]. rewrite lookup_insert_ne by done. apply lookup_delete_eq.
  - by apply FS.remove_disk_gone.
Qed.

Lemma saveFile_no_temp_left_witness :
  FS.disk (saveFile neverFails brokenBody "/data/a.zip" (FS.start oldStore)).2
    !! ("/data/a.zip" +:+ ".tmp") = None.
Proof.
  apply (saveFile_no_temp_left neverFails brokenBody "/data/a.zip" (FS.start oldStore));
    reflexivity.
Defined.

(** X10.  [saveFile] touches two paths only: every file other than the
    destination and its [.tmp] companion keeps its content. *)
Theorem saveFile_other_files (fails : FS.Op -> bool) (reader : FS.Reader)
    (destPath other : string) (w : FS.World) :
  other <> destPath ->
  other <> destPath +:+ ".tmp" ->
  FS.disk (saveFile fails reader destPath w).2 !! other = FS.disk w !! other.
Proof.
  intros Hd Ht. unfold saveFile.
  destruct (fails (FS.MkdirAll (FS.Dir destPath))); [done|].
  destruct (fails (FS.Create (destPath +:+ ".tmp"))); [done|].
  pose proof (FS.copy_disk_other fails (destPath +:+ ".tmp") other 0 (FS.chunks reader)
                (FS.readErr reader) (FS.create (destPath +:+ ".tmp") w)) as Hother.
  assert (Hcreate : FS.disk (FS.create (destPath +:+ ".tmp") w) !! other = FS.disk w !! other).
  { unfold FS.create, FS.mutate. cbn [FS.disk]. by rewrite lookup_insert_ne. }
  rewrite Hcreate in Hother.
  destruct (FS.copy fails (destPath +:+ ".tmp") 0 (FS.chunks reader) (FS.readErr reader)
              (FS.create (destPath +:+ ".tmp") w)) as [[e|] w1]; cbn [fst snd] in *.
  { rewrite FS.remove_disk_other by done. by apply Hother. }
  destruct (fails (FS.Close (destPath +:+ ".tmp"))); cbn [fst snd].
  { rewrite FS.remove_disk_other by done. by apply Hother. }
  destruct (fails (FS.Rename (destPath +:+ ".tmp") destPath)); cbn [fst snd].
  { rewrite FS.remove_disk_other by done. by apply Hother. }
  unfold FS.rename. destruct (FS.disk w1 !! (destPath +:+ ".tmp")) as [c|]; cbn [fst snd].
  - cbn [FS.mutate FS.disk]. rewrite lookup_insert_ne, lookup_delete_ne by done.
    by apply Hother.
  - rewrite FS.remove_disk_other by done. by apply Hother.
Qed.

Lemma saveFile_other_files_witness :
  FS.disk (saveFile neverFails twoChunks "/data/b.zip" (FS.start oldStore)).2 !! "/data/a.zip"
  = FS.disk (FS.start oldStore) !! "/data/a.zip".
Proof.
  apply (saveFile_other_files neverFails twoChunks "/data/b.zip" "/data/a.zip"
           (FS.start oldStore)); discriminate.
Defined.

(** The final store after [DownloadFile], at the destination. *)
Lemma DownloadFile_outcome_final (fails : FS.Op -> bool) (get : string -> FileResult)
    (url destPath : string) (w : FS.World) :
  match (DownloadFile fails get url destPath w).1 with
  | None =>
      exists body,
        get url = FileResp 200 body /\ FS.readErr body = None /\
        FS.disk (DownloadFile fails get url destPath w).2 !! destPath
          = Some (FS.content body)
  | Some _ =>
      FS.disk (DownloadFile fails get url destPath w).2 !! destPath = FS.disk w !! destPath
  end.
Proof.
  unfold DownloadFile. destruct (get url) as [e|status body]; [done|].
  destruct (Z.eqb_spec status 200) as [->|Hst]; cbn [negb]; [|done].
  pose proof (saveFile_final fails body destPath w) as Hfin.
  destruct ((saveFile fails body destPath w).1); [done|].
  destruct Hfin as [Hr Hd]. by exists body.
Qed.

(** X11.  [DownloadFile] reports success only for a 200 response whose body
    arrived whole, and then the destination holds exactly that body; in
    every other case (request error, another status, a body that breaks
    off, a failing system call) the destination is as it was before.  When
    the request fails or the status is not 200, nothing at all is written:
    the store does not go through any new state. *)
Theorem DownloadFile_outcome (fails : FS.Op -> bool) (get : string -> FileResult)
    (url destPath : string) (w : FS.World) :
  match (DownloadFile fails get url destPath w).1 with
  | None =>
      exists body,
        get url = FileResp 200 body /\ FS.readErr body = None /\
        FS.disk (DownloadFile fails get url destPath w).2 !! destPath
          = Some (FS.content body)
  | Some _ =>
      FS.disk (DownloadFile fails get url destPath w).2 !! destPath = FS.disk w !! destPath
  end /\
  ((forall body, get url <> FileResp 200 body) ->
   (DownloadFile fails get url destPath w).2 = w /\
   (DownloadFile fails get url destPath w).1 <> None).
Proof.
  split; [apply DownloadFile_outcome_final|].
  intros Hno. unfold DownloadFile. destruct (get url) as [e|status body]; [done|].
  destruct (Z.eqb_spec status 200) as [->|Hst]; cbn [negb]; [|done].
  by destruct (Hno body).
Qed.

End Registry.

(** ** internal/downloader/binaries/binaries.go *)

Module Binaries.
Import Strings.

Record Platform := { OS : string; Arch : string }.

Record BinaryFilter := { Tool : string; MinVersion : string }.

(** The loop of [ParseBinaryFilter] over the comma-separated parts. *)
Fixpoint binaryEntries (parts : list string) (result : list BinaryFilter)
    : Result (list BinaryFilter) :=
  match parts with
  | [] => Ok result
  | part :: rest =>
      let part := TrimSpace part in
      if String.eqb part "" then binaryEntries rest result
      else
        match Split part ">" with
        | [tool; minVersion] =>
            binaryEntries rest
              (result ++ [{| Tool := TrimSpace tool; MinVersion := TrimSpace minVersion |}])
        | _ => Err ("invalid binary filter format: " +:+ part)
        end
  end.

Definition ParseBinaryFilter (filter : string) : Result (list BinaryFilter) :=
  if String.eqb filter "" then Ok []
  else binaryEntries (Split filter ",") [].

(** Result of [client.Get(url)]. *)
Inductive GetResult :=
| GetErr (cause : string)
| GetResp (status : Z) (body : FS.Reader).

Inductive DownloadError :=
| ErrGet (cause : string)
| ErrStatus (status : Z) (url : string)
| ErrCreate (path : string)
| ErrCopy (cause : string).

(** [downloadFileWithClient]: the body is copied into a file created under
    the final name; the deferred [out.Close()] drops its error. *)
Definition downloadFileWithClient (fails : FS.Op -> bool) (get : string -> GetResult)
    (url destPath : string) (w : FS.World) : option DownloadError * FS.World :=
  match get url with
  | GetErr e => (Some (ErrGet e), w)
  | GetResp status body =>
      if negb (status =? 200)%Z then (Some (ErrStatus status url), w)
      else if fails (FS.Create destPath) then (Some (ErrCreate destPath), w)
      else
        let copied :=
          FS.copy fails destPath 0 (FS.chunks body) (FS.readErr body)
            (FS.create destPath w) in
        (ErrCopy <$> copied.1, copied.2)
  end.

(** [fileExists]: [os.Stat] returns no error. *)
Definition fileExists (w : FS.World) (path : string) : bool := FS.present w path.

Definition zipName (tool version : string) (platform : Platform) : string :=
  tool +:+ "_" +:+ version +:+ "_" +:+ OS platform +:+ "_" +:+ Arch platform +:+ ".zip".

Definition releaseURL (tool version : string) (platform : Platform) : string :=
  "https://releases.hashicorp.com/" +:+ tool +:+ "/" +:+ version +:+ "/"
    +:+ zipName tool version platform.

Definition destPathOf (downloadPath tool version : string) (platform : Platform) : string :=
  FS.Join [FS.Join [downloadPath; tool]; zipName tool version platform].

(** One round of the loops of [DownloadHashiCorpBinaries] over versions and
    platforms.  The boolean tells whether the version was recorded as
    present for the platform. *)
Definition fetchBinary (fails : FS.Op -> bool) (get : string -> GetResult)
    (downloadPath tool version : string) (platform : Platform) (w : FS.World)
    : bool * FS.World :=
  let destDir := FS.Join [downloadPath; tool] in
  let destPath := destPathOf downloadPath tool version platform in
  if fileExists w destPath then (true, w)
  else if fails (FS.MkdirAll destDir) then (false, w)
  else
    let r := downloadFileWithClient fails get (releaseURL tool version platform) destPath w in
    match r.1 with
    | Some _ => (false, r.2)
    | None => (true, r.2)
    end.

(** *** A download that breaks off *)

Definition noFault (op : FS.Op) : bool := false.

Definition linux_amd64 : Platform := {| OS := "linux"; Arch := "amd64" |}.

(** The connection drops after the first chunk of the archive. *)
Definition truncated : FS.Reader :=
  {| FS.chunks := ["PK-first-half;"]; FS.readErr := Some "unexpected EOF" |}.

Definition complete : FS.Reader :=
  {| FS.chunks := ["PK-first-half;"; "second-half"]; FS.readErr := None |}.

Definition consulZip : string := "/data/consul/consul_1.16.0_linux_amd64.zip".

(** First cycle: the release host breaks off.  Second cycle: it is well. *)
Definition firstCycle : bool * FS.World :=
  fetchBinary noFault (fun _ => GetResp 200 truncated) "/data" "consul" "1.16.0"
    linux_amd64 (FS.start ∅).

Definition secondCycle : bool * FS.World :=
  fetchBinary noFault (fun _ => GetResp 200 complete) "/data" "consul" "1.16.0"
    linux_amd64 firstCycle.2.

(** The filter that a part of the filter string stands for, when it has
    exactly one [>]. *)
Definition entryOf (part : string) : option BinaryFilter :=
  match Split (TrimSpace part) ">" with
  | [tool; minVersion] => Some {| Tool := TrimSpace tool; MinVersion := TrimSpace minVersion |}
  | _ => None
  end.

Definition notBlank (part : string) : bool := negb (String.eqb (TrimSpace part) "").

(** *** Entries that lack a side *)

Example ParseBinaryFilter_readme :
  ParseBinaryFilter "consul>1.21.3,terraform>1.6.0" =
  Ok [ {| Tool := "consul"; MinVersion := "1.21.3" |};
       {| Tool := "terraform"; MinVersion := "1.6.0" |} ].
Proof. reflexivity. Qed.

Example ParseBinaryFilter_no_separator :
  ParseBinaryFilter "consul" = Err "invalid binary filter format: consul".
Proof. reflexivity. Qed.

(** The two provider-side parsers refuse an entry with an empty side. *)
Example NewPlatformFilter_empty_side :
  Filters.NewPlatformFilter "linux_" =
  Err "invalid platform format 'linux_', expected 'os_arch'".
Proof. reflexivity. Qed.

Example NewProviderFilter_empty_side :
  Filters.NewProviderFilter "hashicorp/" =
  Err "invalid provider format 'hashicorp/', expected 'namespace/name' or 'namespace/name>version'".
Proof. reflexivity. Qed.

(** C9, as the code has it.  An entry whose version side is empty, an entry
    whose tool side is empty and an entry with both sides empty are
    accepted: parsing succeeds and yields a filter with an empty field.
    Only the number of [>] in the entry is checked. *)
Theorem ParseBinaryFilter_accepts_missing_side :
  ParseBinaryFilter "consul>" = Ok [ {| Tool := "consul"; MinVersion := "" |} ] /\
  ParseBinaryFilter ">1.15.0" = Ok [ {| Tool := ""; MinVersion := "1.15.0" |} ] /\
  ParseBinaryFilter "nomad>1.6.0, > " =
    Ok [ {| Tool := "nomad"; MinVersion := "1.6.0" |}; {| Tool := ""; MinVersion := "" |} ].
Proof. repeat split; reflexivity. Qed.

(** What the loop does check: an entry fails exactly when it does not
    split into two parts at [>]. *)
Lemma binaryEntries_error (parts : list string) (acc : list BinaryFilter) :
  (exists msg, binaryEntries parts acc = Err msg) <->
  exists part, part ∈ parts /\ TrimSpace part <> "" /\
    length (Split (TrimSpace part) ">") <> 2%nat.
Proof.
  revert acc. induction parts as [|p ps IH]; intros acc; cbn [binaryEntries].
  - split; [intros [msg H]; discriminate | intros (part & Hin & _); by apply elem_of_nil in Hin].
  - destruct (String.eqb_spec (TrimSpace p) "") as [Hemp|Hne].
    + rewrite IH. split.
      * intros (part & Hin & H). exists part. split; [by right | done].
      * intros (part & Hin & Hne & Hlen). apply elem_of_cons in Hin as [->|Hin]; [done|].
        by exists part.
    + destruct (Split (TrimSpace p) ">") as [|a [|b [|c l]]] eqn:Hs.
      * split; [intros _|by eexists]. exists p. rewrite Hs. split; [by left | done].
      * split; [intros _|by eexists]. exists p. rewrite Hs. split; [by left | done].
      * rewrite IH. split.
        -- intros (part & Hin & H). exists part. split; [by right | done].
        -- intros (part & Hin & Hne' & Hlen).
           apply elem_of_cons in Hin as [->|Hin]; [by rewrite Hs in Hlen|].
           by exists part.
      * split; [intros _|by eexists]. exists p. rewrite Hs. split; [by left | done].
Qed.

(** Without faults of the disk, a copy writes every chunk that arrives and
    reports the error that ended the stream. *)
Lemma copy_noFault (path : string) (n : nat) (cs : list string)
    (readErr : option string) (w : FS.World) (c0 : string) :
  FS.disk w !! path = Some c0 ->
  (FS.copy noFault path n cs readErr w).1 = readErr /\
  FS.disk (FS.copy noFault path n cs readErr w).2 !! path =
    Some (c0 +:+ String.concat "" cs).
Proof.
  revert n w c0. induction cs as [|c cs IH]; intros n w c0 Hc0; cbn [FS.copy noFault].
  - split; [done|]. cbn [snd String.concat]. by rewrite FS.append_empty_r.
  - destruct (IH (S n) (FS.mutate (alter (fun old => old +:+ c) path) w) (c0 +:+ c))
      as [He Hd].
    + cbn [FS.mutate FS.disk]. by rewrite lookup_alter_eq, Hc0.
    + split; [exact He|]. rewrite Hd. f_equal.
      destruct cs as [|c' cs'].
      * cbn [String.concat]. by rewrite FS.append_empty_r.
      * cbn [String.concat]. change (c +:+ "" +:+ c' +:+ ?s) with (c +:+ c' +:+ s).
        apply FS.append_assoc.
Qed.

(** Whenever the body of a 200 response breaks off, [downloadFileWithClient]
    returns the error and leaves what had arrived under the final name. *)
Lemma downloadFileWithClient_keeps_partial (get : string -> GetResult)
    (url destPath : string) (body : FS.Reader) (e : string) (w : FS.World) :
  get url = GetResp 200 body ->
  FS.readErr body = Some e ->
  (downloadFileWithClient noFault get url destPath w).1 = Some (ErrCopy e) /\
  FS.disk (downloadFileWithClient noFault get url destPath w).2 !! destPath =
    Some (FS.content body).
Proof.
  intros Hget Herr. unfold downloadFileWithClient. rewrite Hget.
  cbn [negb Z.eqb Pos.eqb noFault fst snd].
  destruct (copy_noFault destPath 0 (FS.chunks body) (FS.readErr body)
              (FS.create destPath w) "") as [He Hd].
  { unfold FS.create, FS.mutate. cbn [FS.disk]. by rewrite lookup_insert_eq. }
  rewrite He. rewrite Herr in *. split; [done|]. exact Hd.
Qed.

(** C1, as the code has it.  The binaries subsystem writes the archive
    under its final name [<store>/<tool>/<tool>_<version>_<os>_<arch>.zip]
    from the first byte on.  When the body breaks off, the download reports
    an error and the first half of the archive stays under the final name;
    the next cycle finds a file there, skips the download and records the
    version as present.  Even a download that succeeds shows the first half
    under the final name on its way.  [saveFile], which the provider
    archives go through, leaves nothing under the final name in the same
    situation. *)
Theorem binaries_write_under_final_name :
  destPathOf "/data" "consul" "1.16.0" linux_amd64 = consulZip /\
  firstCycle.1 = false /\
  FS.disk firstCycle.2 !! consulZip = Some "PK-first-half;" /\
  secondCycle.1 = true /\
  FS.disk secondCycle.2 !! consulZip = Some "PK-first-half;" /\
  (fun d : gmap string string => d !! consulZip) <$>
    FS.history (fetchBinary noFault (fun _ => GetResp 200 complete) "/data" "consul"
                  "1.16.0" linux_amd64 (FS.start ∅)).2 =
    [None; Some ""; Some "PK-first-half;"; Some "PK-first-half;second-half"] /\
  (Registry.saveFile noFault truncated consulZip (FS.start ∅)).1 =
    Some (Registry.ErrWriteContent "unexpected EOF") /\
  (fun d : gmap string string => d !! consulZip) <$>
    FS.history (Registry.saveFile noFault truncated consulZip (FS.start ∅)).2 =
    [None; None; None; None] /\
  (fun d : gmap string string => d !! consulZip) <$>
    FS.history (Registry.saveFile noFault complete consulZip (FS.start ∅)).2 =
    [None; None; None; None; Some "PK-first-half;second-half"].
Proof. repeat split; vm_compute; reflexivity. Qed.

(** *** The result of [ParseBinaryFilter] *)

Lemma binaryEntries_ok (parts : list string) (acc l : list BinaryFilter) :
  binaryEntries parts acc = Ok l ->
  exists l', l = acc ++ l' /\
    Forall2 (fun part bf => entryOf part = Some bf) (List.filter notBlank parts) l'.
Proof.
  revert acc. induction parts as [|p ps IH]; intros acc; cbn [binaryEntries List.filter].
  - intros H. injection H as <-. exists []. by rewrite app_nil_r.
  - unfold notBlank at 1. destruct (String.eqb (TrimSpace p) "") eqn:Hb; cbn [negb].
    + apply IH.
    + destruct (Split (TrimSpace p) ">") as [|a [|b [|c l0]]] eqn:Hs; try discriminate.
      intros H. destruct (IH _ H) as (l' & -> & Hall).
      eexists. split; [by rewrite <- app_assoc|].
      constructor; [|done]. unfold entryOf. by rewrite Hs.
Qed.

(** X12.  [ParseBinaryFilter] fails exactly when some entry that is not
    blank does not split into two parts at [>] (it has no [>], or more than
    one), and the message names the first such entry.  When it succeeds,
    the result holds one filter for each entry that is not blank, in the
    order of the string, with both sides trimmed; blank entries are passed
    over. *)
Theorem ParseBinaryFilter_result (filter : string) :
  match ParseBinaryFilter filter with
  | Ok l =>
      Forall2 (fun part bf => entryOf part = Some bf)
        (List.filter notBlank (Split filter ",")) l
  | Err msg =>
      exists part, part ∈ Split filter "," /\ TrimSpace part <> "" /\
        length (Split (TrimSpace part) ">") <> 2%nat
  end.
Proof.
  unfold ParseBinaryFilter. destruct (String.eqb_spec filter "") as [->|Hne].
  - cbn. constructor.
  - destruct (binaryEntries (Split filter ",") []) as [l|msg] eqn:Hrun.
    + destruct (binaryEntries_ok _ _ _ Hrun) as (l' & -> & Hall). exact Hall.
    + apply (binaryEntries_error (Split filter ",") []). by exists msg.
Qed.

End Binaries.

(** ** internal/downloader/service.go *)

Module Service.
Import Strings.

Module ProviderInfo.
Record t :=
  { Namespace : string; Name : string; Platforms : list string; Versions : list string }.

(** The value a Go map yields for a missing key. *)
Definition zero : t :=
  {| Namespace := ""; Name := ""; Platforms := []; Versions := [] |}.
End ProviderInfo.

(** The journal.  The [Binaries] field, which only the binaries pass
    rewrites, is not part of the model. *)
Record ProviderMetadata :=
  { Providers : gmap string ProviderInfo.t; LastCheck : Z }.

Module DownloadJob.
Record t :=
  { Namespace : string; Name : string; Version : string; OS : string; Arch : string }.

Global Instance eq_dec : EqDecision t.
Proof. solve_decision. Defined.

Global Instance countable : Countable t.
Proof.
  refine (inj_countable'
            (fun j => (Namespace j, Name j, Version j, OS j, Arch j))
            (fun '(ns, nm, v, o, a) =>
               {| Namespace := ns; Name := nm; Version := v; OS := o; Arch := a |}) _).
  by intros [].
Defined.
End DownloadJob.

Record DownloadResult :=
  { Job : DownloadJob.t; Error : option string; Skipped : bool }.

(** The two fields of [common.Platform] that planning reads. *)
Module Platform.
Record t := { OS : string; Arch : string }.
End Platform.

Record Service :=
  { DownloadPath : string;
    metadata : ProviderMetadata;
    providerFilter : Filters.ProviderFilter.t;
    platformFilter : Filters.PlatformFilter.t }.

(** *** File system wrappers *)

(** Result of [os.Stat]: the size of the file, [ENOENT], or another error
    (a component that is not a directory, a directory without search
    permission, ...). *)
Inductive StatResult :=
| StatOk (size : Z)
| StatNotExist
| StatFailed (cause : string).

(** An [os.DirEntry]: [file.IsDir()] and [file.Name()]. *)
Record DirEntry := { IsDir : bool; FileName : string }.

Section Wrappers.
Variable os_Stat : string -> StatResult.

(** [fileExists]: [!os.IsNotExist(err)] *)
Definition fileExists (path : string) : bool :=
  match os_Stat path with
  | StatNotExist => false
  | StatOk _ | StatFailed _ => true
  end.

(** [verifyChecksum] *)
Definition verifyChecksum (filePath expectedChecksum : string) : bool :=
  if String.eqb expectedChecksum "" then fileExists filePath
  else if negb (fileExists filePath) then false
  else match os_Stat filePath with
       | StatOk size => if (size =? 0)%Z then false else true
       | StatNotExist | StatFailed _ => false
       end.
End Wrappers.

(** *** The journal update *)

(** [for _, v := range providerInfo.Versions { if v == version { ... break } }] *)
Fixpoint versionExists (versions : list string) (version : string) : bool :=
  match versions with
  | [] => false
  | v :: rest => if String.eqb v version then true else versionExists rest version
  end.

(** [updateMetadata].  [order] is the order in which [range platformSet]
    yields the keys of the map on this call. *)
Definition updateMetadata (order : gset string -> list string) (md : ProviderMetadata)
    (namespace name version osName archName : string) : ProviderMetadata :=
  let providerKey := namespace +:+ "/" +:+ name in
  let providerInfo := default ProviderInfo.zero (Providers md !! providerKey) in
  let platform := osName +:+ "_" +:+ archName in
  let platformSet : gset string :=
    {[ platform ]} ∪ list_to_set (ProviderInfo.Platforms providerInfo) in
  let versions :=
    if versionExists (ProviderInfo.Versions providerInfo) version
    then ProviderInfo.Versions providerInfo
    else ProviderInfo.Versions providerInfo ++ [version] in
  {| Providers :=
       <[ providerKey :=
          {| ProviderInfo.Namespace := namespace;
             ProviderInfo.Name := name;
             ProviderInfo.Platforms := order platformSet;
             ProviderInfo.Versions := versions |} ]> (Providers md);
     LastCheck := LastCheck md |}.

(** Every order in which Go may range over a map: each key once. *)
Definition rangeOrder (order : gset string -> list string) : Prop :=
  forall X : gset string, order X ≡ₚ elements X.

(** Journal entries, and journals, that differ only in the order of the
    [versions] and [platforms] lists. *)
Definition sameInfo (a b : ProviderInfo.t) : Prop :=
  ProviderInfo.Namespace a = ProviderInfo.Namespace b /\
  ProviderInfo.Name a = ProviderInfo.Name b /\
  ProviderInfo.Platforms a ≡ₚ ProviderInfo.Platforms b /\
  ProviderInfo.Versions a ≡ₚ ProviderInfo.Versions b.

Definition sameJournal (a b : ProviderMetadata) : Prop :=
  LastCheck a = LastCheck b /\
  forall key, option_Forall2 sameInfo (Providers a !! key) (Providers b !! key).

(** A journal with one entry, updated with a tuple it already holds. *)
Definition awsJournal : ProviderMetadata :=
  {| Providers :=
       {[ "hashicorp/aws" :=
          {| ProviderInfo.Namespace := "hashicorp";
             ProviderInfo.Name := "aws";
             ProviderInfo.Platforms := ["linux_amd64"; "darwin_arm64"];
             ProviderInfo.Versions := ["5.0.0"; "5.1.0"] |} ]};
     LastCheck := 0 |}.

(** *** The checksum predicate *)

(** The predicate in the specification's words, given whether the file
    exists and whether it has size zero: with an empty checksum accept an
    existing file; otherwise reject a missing or empty file and accept in
    every other case. *)
Definition acceptsAsStated (present empty : bool) (expectedChecksum : string) : bool :=
  if String.eqb expectedChecksum "" then present
  else if negb present || empty then false else true.

Definition statSucceeds (r : StatResult) : bool :=
  match r with
  | StatOk _ => true
  | StatNotExist | StatFailed _ => false
  end.

Definition isEmptyFile (r : StatResult) : bool :=
  match r with
  | StatOk size => (size =? 0)%Z
  | StatNotExist | StatFailed _ => false
  end.

(** A store whose directory cannot be searched: [os.Stat] fails with an
    error that is not [ENOENT]. *)
Definition denied (path : string) : StatResult := StatFailed "permission denied".

(** *** Planning: which jobs are queued *)

Section Planning.
Variable os_ReadDir : string -> option (list DirEntry).

Definition expectedPrefix (name version osName archName : string) : string :=
  "terraform-provider-" +:+ name +:+ "_" +:+ version +:+ "_" +:+ osName
    +:+ "_" +:+ archName.

Definition providerDir (s : Service) (namespace name : string) : string :=
  FS.Join [DownloadPath s; "registry.terraform.io"; namespace; name].

(** The condition under which the scan of the directory stops. *)
Definition isArchive (expectedPrefix : string) (file : DirEntry) : bool :=
  negb (IsDir file) && HasPrefix (FileName file) expectedPrefix
  && negb (HasSuffix (FileName file) ".sig")
  && negb (Contains (FileName file) "SHA256SUMS").

(** [for _, file := range files { if ... { return false } }] *)
Fixpoint scanFiles (expectedPrefix : string) (files : list DirEntry) : bool :=
  match files with
  | [] => false
  | file :: rest =>
      if isArchive expectedPrefix file then true
      else scanFiles expectedPrefix rest
  end.

(** [for _, v := range providerInfo.Versions { if v == version { ... } }]
    and the [return true] after it. *)
Fixpoint scanVersions (s : Service) (namespace name version osName archName : string)
    (versions : list string) : bool :=
  match versions with
  | [] => true
  | v :: rest =>
      if String.eqb v version then
        match os_ReadDir (providerDir s namespace name) with
        | Some files =>
            if scanFiles (expectedPrefix name version osName archName) files
            then false
            else true
        | None => true
        end
      else scanVersions s namespace name version osName archName rest
  end.

(** [shouldDownload] *)
Definition shouldDownload (s : Service) (namespace name version osName archName : string)
    : bool :=
  if Filters.ProviderFilter.IsEnabled (providerFilter s)
     && negb (Filters.ProviderFilter.ShouldInclude (providerFilter s) namespace name)
  then false
  else if Filters.PlatformFilter.IsEnabled (platformFilter s)
          && negb (Filters.PlatformFilter.ShouldInclude (platformFilter s) osName archName)
  then false
  else
    match Providers (metadata s) !! (namespace +:+ "/" +:+ name) with
    | None => true
    | Some providerInfo =>
        scanVersions s namespace name version osName archName
          (ProviderInfo.Versions providerInfo)
    end.

Definition jobFor (namespace name version : string) (platform : Platform.t)
    : DownloadJob.t :=
  {| DownloadJob.Namespace := namespace;
     DownloadJob.Name := name;
     DownloadJob.Version := version;
     DownloadJob.OS := Platform.OS platform;
     DownloadJob.Arch := Platform.Arch platform |}.

(** The loop [for _, platform := range platformsToDownload] of
    [downloadProviders], for one provider and one version. *)
Definition planPlatforms (s : Service) (namespace name version : string)
    (platformsToDownload : list Platform.t) (jobList : list DownloadJob.t)
    : list DownloadJob.t :=
  fold_left
    (fun jobList platform =>
       if shouldDownload s namespace name version
            (Platform.OS platform) (Platform.Arch platform)
       then jobList ++ [jobFor namespace name version platform]
       else jobList)
    platformsToDownload jobList.

(** The journal lists the version for the provider. *)
Definition journalLists (s : Service) (namespace name version : string) : Prop :=
  exists info,
    Providers (metadata s) !! (namespace +:+ "/" +:+ name) = Some info /\
    version ∈ ProviderInfo.Versions info.

(** The provider's directory can be read and holds an entry that is not a
    directory, begins with the expected prefix, does not end in [.sig]
    and does not contain [SHA256SUMS]. *)
Definition onDisk (s : Service) (namespace name version osName archName : string) : Prop :=
  exists files file,
    os_ReadDir (providerDir s namespace name) = Some files /\
    file ∈ files /\
    isArchive (expectedPrefix name version osName archName) file = true.

End Planning.

(** C2 as stated: whether the job is queued is decided by the directory
    alone. *)
Definition presenceAloneDecides (os_ReadDir : string -> option (list DirEntry))
    (s : Service) (namespace name version : string) (platforms : list Platform.t)
    (platform : Platform.t) : Prop :=
  jobFor namespace name version platform
    ∈ planPlatforms os_ReadDir s namespace name version platforms [] <->
  ~ onDisk os_ReadDir s namespace name version (Platform.OS platform) (Platform.Arch platform).

Definition noProviderFilter : Filters.ProviderFilter.t :=
  {| Filters.ProviderFilter.providers := ∅; Filters.ProviderFilter.enabled := false |}.

Definition noPlatformFilter : Filters.PlatformFilter.t :=
  {| Filters.PlatformFilter.platforms := ∅; Filters.PlatformFilter.enabled := false |}.

(** A store that holds the archive of aws 5.0.0 for linux_amd64 ... *)
Definition awsDir (dir : string) : option (list DirEntry) :=
  Some [ {| IsDir := false; FileName := "index.json" |};
         {| IsDir := false; FileName := "terraform-provider-aws_5.0.0_linux_amd64.zip" |} ].

(** ... under a service whose journal is empty (the journal file was lost,
    or the archive was copied in by hand). *)
Definition freshService : Service :=
  {| DownloadPath := "/data";
     metadata := {| Providers := ∅; LastCheck := 0 |};
     providerFilter := noProviderFilter;
     platformFilter := noPlatformFilter |}.

Definition linux_amd64 : Platform.t := {| Platform.OS := "linux"; Platform.Arch := "amd64" |}.

(** The same store under a service whose journal lists aws 5.0.0. *)
Definition warmService : Service :=
  {| DownloadPath := "/data";
     metadata :=
       {| Providers :=
            {[ "hashicorp/aws" :=
               {| ProviderInfo.Namespace := "hashicorp";
                  ProviderInfo.Name := "aws";
                  ProviderInfo.Platforms := ["linux_amd64"];
                  ProviderInfo.Versions := ["5.0.0"] |} ]};
          LastCheck := 0 |};
     providerFilter := noProviderFilter;
     platformFilter := noPlatformFilter |}.

(** *** Collecting the results of a pass *)

(** [isTimeoutError] *)
Definition isTimeoutError (err : option string) : bool :=
  match err with
  | None => false
  | Some errStr =>
      Contains errStr "timeout" || Contains errStr "Client.Timeout"
      || Contains errStr "deadline"
  end.

(** [getProviderFilename] *)
Definition getProviderFilename (namespace name version osName archName : string) : string :=
  "terraform-provider-" +:+ name +:+ "_" +:+ version +:+ "_" +:+ osName
    +:+ "_" +:+ archName +:+ ".zip".

(** [GetProviderPath] *)
Definition GetProviderPath (basePath namespace name version os arch filename : string)
    : string :=
  FS.Join [basePath; "registry.terraform.io"; namespace; name; filename].

(** The variables of [downloadProviders] that the collection loop updates;
    [journal] is [s.metadata].  The counters are bounded by the length of
    the job list, so they are natural numbers. *)
Record Tally :=
  { successful : nat;
    failed : nat;
    skipped : nat;
    resultsSent : nat;
    timeoutJobs : list DownloadJob.t;
    failedJobs : gset DownloadJob.t;
    downloadedFiles : gset string;
    journal : ProviderMetadata }.

Definition startTally (md : ProviderMetadata) : Tally :=
  {| successful := 0; failed := 0; skipped := 0; resultsSent := 0;
     timeoutJobs := []; failedJobs := ∅; downloadedFiles := ∅; journal := md |}.

Definition recordJob (order : gset string -> list string) (md : ProviderMetadata)
    (job : DownloadJob.t) : ProviderMetadata :=
  updateMetadata order md (DownloadJob.Namespace job) (DownloadJob.Name job)
    (DownloadJob.Version job) (DownloadJob.OS job) (DownloadJob.Arch job).

(** The branch [case result := <-results] of the [select]. *)
Definition receive (order : gset string -> list string) (downloadPath : string)
    (t : Tally) (result : DownloadResult) : Tally :=
  let job := Job result in
  match Error result with
  | Some e =>
      {| successful := successful t;
         failed := S (failed t);
         skipped := skipped t;
         resultsSent := S (resultsSent t);
         timeoutJobs :=
           if isTimeoutError (Some e) then timeoutJobs t ++ [job] else timeoutJobs t;
         failedJobs := {[ job ]} ∪ failedJobs t;
         downloadedFiles := downloadedFiles t;
         journal := journal t |}
  | None =>
      if Skipped result then
        {| successful := successful t;
           failed := failed t;
           skipped := S (skipped t);
           resultsSent := S (resultsSent t);
           timeoutJobs := timeoutJobs t;
           failedJobs := failedJobs t;
           downloadedFiles := downloadedFiles t;
           journal := recordJob order (journal t) job |}
      else
        {| successful := S (successful t);
           failed := failed t;
           skipped := skipped t;
           resultsSent := S (resultsSent t);
           timeoutJobs := timeoutJobs t;
           failedJobs := failedJobs t;
           downloadedFiles :=
             {[ GetProviderPath downloadPath (DownloadJob.Namespace job)
                  (DownloadJob.Name job) (DownloadJob.Version job) (DownloadJob.OS job)
                  (DownloadJob.Arch job)
                  (getProviderFilename (DownloadJob.Namespace job) (DownloadJob.Name job)
                     (DownloadJob.Version job) (DownloadJob.OS job)
                     (DownloadJob.Arch job)) ]} ∪ downloadedFiles t;
           journal := recordJob order (journal t) job |}
  end.

(** The loop [for i := 0; i < totalJobs; i++ { select { ... } }] with
    [rounds] iterations left.  [select i] is what the [select] of iteration
    [i] takes: [Some result] when a worker delivers a result within the 30
    seconds of the watchdog, [None] when the watchdog fires first, which
    logs a warning and ends the iteration. *)
Fixpoint collectLoop (order : gset string -> list string) (downloadPath : string)
    (select : nat -> option DownloadResult) (rounds i : nat) (t : Tally) : Tally :=
  match rounds with
  | O => t
  | S rounds' =>
      match select i with
      | Some result =>
          collectLoop order downloadPath select rounds' (S i)
            (receive order downloadPath t result)
      | None => collectLoop order downloadPath select rounds' (S i) t
      end
  end.

Definition collect (order : gset string -> list string) (downloadPath : string)
    (select : nat -> option DownloadResult) (totalJobs : nat) (md : ProviderMetadata)
    : Tally :=
  collectLoop order downloadPath select totalJobs 0 (startTally md).

(** Iterations among [i], ..., [i + rounds - 1] that the watchdog ended. *)
Fixpoint ticks (select : nat -> option DownloadResult) (rounds i : nat) : nat :=
  match rounds with
  | O => 0
  | S rounds' =>
      match select i with
      | Some _ => ticks select rounds' (S i)
      | None => S (ticks select rounds' (S i))
      end
  end.

(** One job is queued; its download takes longer than 30 seconds, so the
    only [select] of the loop is ended by the watchdog. *)
Definition slowWorker (i : nat) : option DownloadResult := None.

(** *** The worker: attempts of one job *)

(** One pass through the body of the attempt loop of [downloadWorker]: what
    [s.downloadProvider] returned under the attempt's context, and whether
    [ctx.Err()] is [context.DeadlineExceeded] afterwards. *)
Record Attempt :=
  { attemptErr : option string; attemptSkipped : bool; deadlineExceeded : bool }.

(** The attempt is followed by another one, if the budget allows. *)
Definition timedOut (a : Attempt) : bool :=
  negb (bool_decide (attemptErr a = None) || attemptSkipped a)
  && (deadlineExceeded a || isTimeoutError (attemptErr a)).

(** [for attempt := 1; attempt <= maxAttempts; attempt++] with [rounds]
    iterations left; [err] and [skipped] are the variables of that name and
    [made] counts the attempts made so far. *)
Fixpoint attemptLoop (attempt : nat -> Attempt) (rounds n : nat)
    (err : option string) (skipped : bool) (made : nat) : option string * bool * nat :=
  match rounds with
  | O => (err, skipped, made)
  | S rounds' =>
      let a := attempt n in
      if bool_decide (attemptErr a = None) || attemptSkipped a
      then (attemptErr a, attemptSkipped a, S made)
      else if deadlineExceeded a || isTimeoutError (attemptErr a)
      then attemptLoop attempt rounds' (S n) (attemptErr a) (attemptSkipped a) (S made)
      else (attemptErr a, attemptSkipped a, S made)
  end.

(** The body of [for job := range jobs]: the result sent for the job, and
    the number of attempts made. *)
Definition runJob (attempt : nat -> Attempt) (maxAttempts : Z) (job : DownloadJob.t)
    : DownloadResult * nat :=
  let r := attemptLoop attempt (Z.to_nat maxAttempts) 1 None false 0 in
  ({| Job := job; Error := r.1.1; Skipped := r.1.2 |}, r.2).

(** The journal lists the version and the platform of the job under the
    job's provider. *)
Definition recorded (md : ProviderMetadata) (job : DownloadJob.t) : Prop :=
  exists info,
    Providers md !! (DownloadJob.Namespace job +:+ "/" +:+ DownloadJob.Name job) = Some info /\
    DownloadJob.Version job ∈ ProviderInfo.Versions info /\
    DownloadJob.OS job +:+ "_" +:+ DownloadJob.Arch job ∈ ProviderInfo.Platforms info.

(** Every version and every platform that [a] lists, [b] lists as well,
    provider by provider. *)
Definition journalGrows (a b : ProviderMetadata) : Prop :=
  forall key info,
    Providers a !! key = Some info ->
    exists info',
      Providers b !! key = Some info' /\
      (forall v, v ∈ ProviderInfo.Versions info -> v ∈ ProviderInfo.Versions info') /\
      (forall p, p ∈ ProviderInfo.Platforms info -> p ∈ ProviderInfo.Platforms info').

Definition awsJob : DownloadJob.t :=
  {| DownloadJob.Namespace := "hashicorp"; DownloadJob.Name := "aws";
     DownloadJob.Version := "5.2.0"; DownloadJob.OS := "linux"; DownloadJob.Arch := "arm64" |}.

(** Every attempt runs into the deadline. *)
Definition alwaysLate (n : nat) : Attempt :=
  {| attemptErr := Some "failed to get package info: context deadline exceeded";
     attemptSkipped := false; deadlineExceeded := true |}.

(** A schedule that delivers the download of [awsJob] at once. *)
Definition promptWorker (i : nat) : option DownloadResult :=
  Some {| Job := awsJob; Error := None; Skipped := false |}.

(** *** One attempt: [downloadProvider] *)

(** The fields of [common.ProviderPackage] that the downloader reads. *)
Record ProviderPackage := { Filename : string; DownloadURL : string; Shasum : string }.




Definition awsPackage : ProviderPackage :=
  {| Filename := "terraform-provider-aws_5.0.0_linux_amd64.zip";
     DownloadURL := "https://releases.hashicorp.com/terraform-provider-aws/5.0.0/aws.zip";
     Shasum := "c0ffee" |}.

(** *** Rebuilding the journal from the store: [regenerateMetadata] *)

(** The callback of [filepath.Walk] on a regular file at [relPath], the
    path relative to the download path; [info.Name()] is its last element. *)
Definition rescanFile (order : gset string -> list string) (md : ProviderMetadata)
    (relPath : string) : ProviderMetadata :=
  if Registry.IsProviderPath relPath then
    let filename := List.last (Split relPath "/") "" in
    if HasPrefix filename "terraform-provider-" && HasSuffix filename ".zip" then
      let base := TrimSuffix (TrimPrefix filename "terraform-provider-") ".zip" in
      match Split base "_" with
      | name :: version :: osName :: archName :: _ =>
          let pathParts := Split relPath "/" in
          if (4 <=? length pathParts)%nat then
            updateMetadata order md (nth (length pathParts - 3) pathParts "")
              name version osName archName
          else md
      | _ => md
      end
    else md
  else md.

(** [regenerateMetadata], up to the point where the journal is written:
    [walked] lists the regular files that the walk visits, in its order. *)
Definition regenerateMetadata (order : gset string -> list string) (md : ProviderMetadata)
    (walked : list string) : ProviderMetadata :=
  fold_left (rescanFile order) walked {| Providers := ∅; LastCheck := LastCheck md |}.

(** Where [GetProviderPath] puts an archive, relative to the download
    path. *)
Definition mirrorPath (namespace name filename : string) : string :=
  FS.Join ["registry.terraform.io"; namespace; name; filename].

(** ** The journal of the binaries

    After [DownloadHashiCorpBinaries], [downloadProviders] folds the
    downloaded binaries into one entry per tool (platforms and versions as
    sets, the latest download time) and turns the sets into lists by
    ranging over them. *)

Module DownloadedBinary.
Record t :=
  { Tool : string; FilePath : string; Platforms : list string;
    Versions : list string; Downloaded : Z }.
End DownloadedBinary.

Module BinEntry.
Record t := { Platforms : gset string; Versions : gset string; Downloaded : Z }.
End BinEntry.

Module BinMeta.
Record t := { Platforms : list string; Versions : list string; Downloaded : Z }.
End BinMeta.

(** One round of [for _, b := range downloadedBinaries]. *)
Definition mergeBinary (binMap : gmap string BinEntry.t) (b : DownloadedBinary.t)
  : gmap string BinEntry.t :=
  let entry :=
    match binMap !! DownloadedBinary.Tool b with
    | Some entry => entry
    | None =>
        {| BinEntry.Platforms := ∅; BinEntry.Versions := ∅;
           BinEntry.Downloaded := DownloadedBinary.Downloaded b |}
    end in
  let platforms := list_to_set (DownloadedBinary.Platforms b) ∪ BinEntry.Platforms entry in
  let versions := list_to_set (DownloadedBinary.Versions b) ∪ BinEntry.Versions entry in
  let downloaded :=
    if (BinEntry.Downloaded entry <? DownloadedBinary.Downloaded b)%Z
    then DownloadedBinary.Downloaded b else BinEntry.Downloaded entry in
  <[DownloadedBinary.Tool b :=
      {| BinEntry.Platforms := platforms; BinEntry.Versions := versions;
         BinEntry.Downloaded := downloaded |}]> binMap.

Definition mergeBinaries (downloadedBinaries : list DownloadedBinary.t)
  : gmap string BinEntry.t :=
  fold_left mergeBinary downloadedBinaries ∅.

(** [for tool, entry := range binMap]: the sets become lists, in the order
    in which the maps are ranged over. *)
Definition serialize (order : gset string -> list string) (entry : BinEntry.t) : BinMeta.t :=
  {| BinMeta.Platforms := order (BinEntry.Platforms entry);
     BinMeta.Versions := order (BinEntry.Versions entry);
     BinMeta.Downloaded := BinEntry.Downloaded entry |}.

Definition binariesJournal (order : gset string -> list string)
  (downloadedBinaries : list DownloadedBinary.t) : gmap string BinMeta.t :=
  serialize order <$> mergeBinaries downloadedBinaries.

(** What the entry of a tool has to hold, given the binaries merged so far. *)
Definition mergedFrom (seen : list DownloadedBinary.t) (tool : string) (entry : BinEntry.t)
  : Prop :=
  (forall p, p ∈ BinEntry.Platforms entry <->
     exists b, b ∈ seen /\ DownloadedBinary.Tool b = tool /\ p ∈ DownloadedBinary.Platforms b) /\
  (forall v, v ∈ BinEntry.Versions entry <->
     exists b, b ∈ seen /\ DownloadedBinary.Tool b = tool /\ v ∈ DownloadedBinary.Versions b) /\
  (exists b, b ∈ seen /\ DownloadedBinary.Tool b = tool /\
     BinEntry.Downloaded entry = DownloadedBinary.Downloaded b) /\
  (forall b, b ∈ seen -> DownloadedBinary.Tool b = tool ->
     (DownloadedBinary.Downloaded b <= BinEntry.Downloaded entry)%Z).

Definition mergeInv (seen : list DownloadedBinary.t) (binMap : gmap string BinEntry.t) : Prop :=
  forall tool,
    match binMap !! tool with
    | Some entry => mergedFrom seen tool entry
    | None => forall b, b ∈ seen -> DownloadedBinary.Tool b <> tool
    end.

Definition consulBinaries : list DownloadedBinary.t :=
  [ {| DownloadedBinary.Tool := "consul";
       DownloadedBinary.FilePath := "consul/consul_1.16.0_linux_amd64.zip";
       DownloadedBinary.Platforms := ["linux_amd64"];
       DownloadedBinary.Versions := ["1.16.0"];
       DownloadedBinary.Downloaded := 5 |};
    {| DownloadedBinary.Tool := "consul";
       DownloadedBinary.FilePath := "consul/consul_1.17.0_linux_amd64.zip";
       DownloadedBinary.Platforms := ["linux_amd64"];
       DownloadedBinary.Versions := ["1.17.0"];
       DownloadedBinary.Downloaded := 5 |} ].

(** *** The retry pass

    The jobs of [timeoutJobs] are queued once more.  The loop
    [for i := 0; i < len(timeoutJobs); i++ { result := <-retryResults ... }]
    has no watchdog: [retryResults i] is the result received in iteration
    [i].  It updates its own counters, [failedJobs] and the journal. *)
Module Retry.
Record t :=
  { retrySuccessful : nat;
    retryFailed : nat;
    retrySkipped : nat;
    retryDownloadedFiles : gset string;
    failedJobs : gset DownloadJob.t;
    journal : ProviderMetadata }.
End Retry.

Definition retryReceive (order : gset string -> list string) (downloadPath : string)
    (r : Retry.t) (result : DownloadResult) : Retry.t :=
  let job := Job result in
  match Error result with
  | Some e =>
      {| Retry.retrySuccessful := Retry.retrySuccessful r;
         Retry.retryFailed := S (Retry.retryFailed r);
         Retry.retrySkipped := Retry.retrySkipped r;
         Retry.retryDownloadedFiles := Retry.retryDownloadedFiles r;
         Retry.failedJobs := Retry.failedJobs r;
         Retry.journal := Retry.journal r |}
  | None =>
      if Skipped result then
        {| Retry.retrySuccessful := Retry.retrySuccessful r;
           Retry.retryFailed := Retry.retryFailed r;
           Retry.retrySkipped := S (Retry.retrySkipped r);
           Retry.retryDownloadedFiles := Retry.retryDownloadedFiles r;
           Retry.failedJobs := Retry.failedJobs r;
           Retry.journal := recordJob order (Retry.journal r) job |}
      else
        {| Retry.retrySuccessful := S (Retry.retrySuccessful r);
           Retry.retryFailed := Retry.retryFailed r;
           Retry.retrySkipped := Retry.retrySkipped r;
           Retry.retryDownloadedFiles :=
             {[ GetProviderPath downloadPath (DownloadJob.Namespace job)
                  (DownloadJob.Name job) (DownloadJob.Version job) (DownloadJob.OS job)
                  (DownloadJob.Arch job)
                  (getProviderFilename (DownloadJob.Namespace job) (DownloadJob.Name job)
                     (DownloadJob.Version job) (DownloadJob.OS job)
                     (DownloadJob.Arch job)) ]} ∪ Retry.retryDownloadedFiles r;
           Retry.failedJobs := Retry.failedJobs r ∖ {[ job ]};
           Retry.journal := recordJob order (Retry.journal r) job |}
  end.

Fixpoint retryLoop (order : gset string -> list string) (downloadPath : string)
    (retryResults : nat -> DownloadResult) (rounds i : nat) (r : Retry.t) : Retry.t :=
  match rounds with
  | O => r
  | S rounds' =>
      retryLoop order downloadPath retryResults rounds' (S i)
        (retryReceive order downloadPath r (retryResults i))
  end.

Definition retryPass (order : gset string -> list string) (downloadPath : string)
    (retryResults : nat -> DownloadResult) (t : Tally) : Retry.t :=
  retryLoop order downloadPath retryResults (length (timeoutJobs t)) 0
    {| Retry.retrySuccessful := 0; Retry.retryFailed := 0; Retry.retrySkipped := 0;
       Retry.retryDownloadedFiles := ∅;
       Retry.failedJobs := failedJobs t;
       Retry.journal := journal t |}.

(** [finalFailed := len(failedJobs)] *)
Definition finalFailed (r : Retry.t) : nat := size (Retry.failedJobs r).

(** No result among those of iterations [i], ..., [i + rounds - 1] reports
    the job as downloaded (no error, not skipped). *)
Definition neverDownloaded (retryResults : nat -> DownloadResult) (i rounds : nat)
    (job : DownloadJob.t) : Prop :=
  forall k, (i <= k < i + rounds)%nat ->
    Job (retryResults k) = job -> Error (retryResults k) = None ->
    Skipped (retryResults k) = true.

(** The first pass ended with the job timed out; by the time of the retry
    the archive is there, and the worker reports the job as skipped. *)
Definition afterTimeout : Tally :=
  {| successful := 0; failed := 1; skipped := 0; resultsSent := 1;
     timeoutJobs := [awsJob]; failedJobs := {[ awsJob ]}; downloadedFiles := ∅;
     journal := {| Providers := ∅; LastCheck := 0 |} |}.

Definition foundOnRetry (i : nat) : DownloadResult :=
  {| Job := awsJob; Error := None; Skipped := true |}.

(** *** Properties of the journal update *)

Lemma versionExists_elem (versions : list string) (version : string) :
  versionExists versions version = true <-> version ∈ versions.
Proof.
  induction versions as [|v vs IH]; cbn [versionExists].
  - split; [discriminate | by intros ?%elem_of_nil].
  - destruct (String.eqb_spec v version) as [->|Hne].
    + split; [intros _; by left | done].
    + rewrite IH. split; [by right|].
      intros [?|?]%elem_of_cons; [congruence | done].
Qed.

Lemma versionExists_app (versions : list string) (version : string) :
  versionExists (versions ++ [version]) version = true.
Proof. apply versionExists_elem, elem_of_app. right. by left. Qed.

Lemma sameInfo_refl (a : ProviderInfo.t) : sameInfo a a.
Proof. by repeat split. Qed.

Lemma rangeOrder_set (order : gset string -> list string) (X : gset string) :
  rangeOrder order -> list_to_set (order X) = X.
Proof.
  intros Ho. apply set_eq. intros x.
  rewrite elem_of_list_to_set, (Ho X). apply elem_of_elements.
Qed.

Lemma rangeOrder_NoDup (order : gset string -> list string) (X : gset string) :
  rangeOrder order -> NoDup (order X).
Proof. intros Ho. rewrite (Ho X). apply NoDup_elements. Qed.

Lemma updateMetadata_lookup (order : gset string -> list string) (md : ProviderMetadata)
    (namespace name version osName archName : string) :
  Providers (updateMetadata order md namespace name version osName archName)
    !! (namespace +:+ "/" +:+ name) =
  Some {| ProviderInfo.Namespace := namespace;
          ProviderInfo.Name := name;
          ProviderInfo.Platforms :=
            order ({[ osName +:+ "_" +:+ archName ]} ∪
                   list_to_set (ProviderInfo.Platforms
                     (default ProviderInfo.zero
                        (Providers md !! (namespace +:+ "/" +:+ name)))));
          ProviderInfo.Versions :=
            let old := ProviderInfo.Versions
                         (default ProviderInfo.zero
                            (Providers md !! (namespace +:+ "/" +:+ name))) in
            if versionExists old version then old else old ++ [version] |}.
Proof. unfold updateMetadata. cbn [Providers]. by rewrite lookup_insert_eq. Qed.

Lemma updateMetadata_other (order : gset string -> list string) (md : ProviderMetadata)
    (namespace name version osName archName key : string) :
  key <> namespace +:+ "/" +:+ name ->
  Providers (updateMetadata order md namespace name version osName archName) !! key =
  Providers md !! key.
Proof. intros Hne. unfold updateMetadata. cbn [Providers]. by rewrite lookup_insert_ne. Qed.

(** C7.  Whatever orders the two map traversals take, recording the same
    [(namespace, name, version, platform)] a second time gives the journal
    of the first time up to the order of the [versions] and [platforms]
    lists.  And when the entry already lists the version and the platform,
    one update leaves the version list as it is and the platform list with
    the same set of elements and without duplicates (a permutation of the
    old list when that had none). *)
Theorem updateMetadata_idempotent (order1 order2 : gset string -> list string)
    (md : ProviderMetadata) (namespace name version osName archName : string) :
  rangeOrder order1 -> rangeOrder order2 ->
  sameJournal
    (updateMetadata order2
       (updateMetadata order1 md namespace name version osName archName)
       namespace name version osName archName)
    (updateMetadata order1 md namespace name version osName archName) /\
  (forall info,
     Providers md !! (namespace +:+ "/" +:+ name) = Some info ->
     version ∈ ProviderInfo.Versions info ->
     osName +:+ "_" +:+ archName ∈ ProviderInfo.Platforms info ->
     exists info',
       Providers (updateMetadata order1 md namespace name version osName archName)
         !! (namespace +:+ "/" +:+ name) = Some info' /\
       ProviderInfo.Versions info' = ProviderInfo.Versions info /\
       list_to_set (ProviderInfo.Platforms info') =@{gset string}
         list_to_set (ProviderInfo.Platforms info) /\
       NoDup (ProviderInfo.Platforms info') /\
       (NoDup (ProviderInfo.Platforms info) ->
        ProviderInfo.Platforms info' ≡ₚ ProviderInfo.Platforms info)).
Proof.
  intros Ho1 Ho2. split.
  - split; [done|]. intros key.
    destruct (decide (key = namespace +:+ "/" +:+ name)) as [->|Hne].
    + rewrite (updateMetadata_lookup order2), !(updateMetadata_lookup order1).
      cbn [from_option id ProviderInfo.Platforms ProviderInfo.Versions].
      constructor. unfold sameInfo.
      cbn [ProviderInfo.Namespace ProviderInfo.Name ProviderInfo.Platforms
           ProviderInfo.Versions].
      split; [done|]. split; [done|]. split.
      * rewrite (rangeOrder_set order1) by done.
        rewrite (Ho2 _), (Ho1 _).
        assert (Hidem : forall (p : string) (X : gset string),
                   {[p]} ∪ ({[p]} ∪ X) = {[p]} ∪ X).
        { intros p X. apply set_eq. intros x. rewrite !elem_of_union. tauto. }
        by rewrite Hidem.
      * set (old := ProviderInfo.Versions
                      (default ProviderInfo.zero
                         (Providers md !! (namespace +:+ "/" +:+ name)))).
        destruct (versionExists old version) eqn:Hv.
        -- by rewrite Hv.
        -- by rewrite versionExists_app.
    + rewrite (updateMetadata_other order2), (updateMetadata_other order1) by done.
      destruct (Providers md !! key) as [i|]; constructor. apply sameInfo_refl.
  - intros info Hinfo Hv Hp. eexists. split; [apply updateMetadata_lookup|].
    rewrite Hinfo.
    cbn [from_option id ProviderInfo.Platforms ProviderInfo.Versions].
    apply versionExists_elem in Hv. rewrite Hv.
    assert (Hset : {[osName +:+ "_" +:+ archName]} ∪
                     list_to_set (ProviderInfo.Platforms info) =@{gset string}
                   list_to_set (ProviderInfo.Platforms info)).
    { apply set_eq. intros x. rewrite elem_of_union, elem_of_singleton.
      rewrite !elem_of_list_to_set. split; [intros [->|?]; done | by right]. }
    rewrite Hset. split; [done|]. split; [by apply rangeOrder_set|].
    split; [by apply rangeOrder_NoDup|].
    intros Hnd. rewrite (Ho1 _). by apply elements_list_to_set.
Qed.

Lemma rangeOrder_elements : rangeOrder elements.
Proof. by intros X. Qed.

Lemma rangeOrder_reverse : rangeOrder (fun X => reverse (elements X)).
Proof. intros X. apply reverse_Permutation. Qed.

Lemma updateMetadata_idempotent_witness :
  sameJournal
    (updateMetadata (fun X => reverse (elements X))
       (updateMetadata elements awsJournal "hashicorp" "aws" "5.1.0" "linux" "amd64")
       "hashicorp" "aws" "5.1.0" "linux" "amd64")
    (updateMetadata elements awsJournal "hashicorp" "aws" "5.1.0" "linux" "amd64") /\
  (forall info,
     Providers awsJournal !! ("hashicorp" +:+ "/" +:+ "aws") = Some info ->
     "5.1.0" ∈ ProviderInfo.Versions info ->
     "linux" +:+ "_" +:+ "amd64" ∈ ProviderInfo.Platforms info ->
     exists info',
       Providers (updateMetadata elements awsJournal "hashicorp" "aws" "5.1.0" "linux" "amd64")
         !! ("hashicorp" +:+ "/" +:+ "aws") = Some info' /\
       ProviderInfo.Versions info' = ProviderInfo.Versions info /\
       list_to_set (ProviderInfo.Platforms info') =@{gset string}
         list_to_set (ProviderInfo.Platforms info) /\
       NoDup (ProviderInfo.Platforms info') /\
       (NoDup (ProviderInfo.Platforms info) ->
        ProviderInfo.Platforms info' ≡ₚ ProviderInfo.Platforms info)).
Proof.
  apply (updateMetadata_idempotent elements (fun X => reverse (elements X)) awsJournal
           "hashicorp" "aws" "5.1.0" "linux" "amd64").
  - exact rangeOrder_elements.
  - exact rangeOrder_reverse.
Defined.

(** *** Properties of the checksum predicate *)

(** C4 as stated fails on a file that cannot be examined.  Reading "the
    file exists" as the code's [fileExists], a non-empty checksum should be
    accepted (the file is neither missing nor empty), and the code rejects.
    Reading it as "[os.Stat] succeeds", an empty checksum should be
    rejected, and the code accepts. *)
Lemma verifyChecksum_inaccessible_counterexample :
  verifyChecksum denied "/data/a.zip" "c0ffee" <>
    acceptsAsStated (fileExists denied "/data/a.zip")
      (isEmptyFile (denied "/data/a.zip")) "c0ffee" /\
  verifyChecksum denied "/data/a.zip" "" <>
    acceptsAsStated (statSucceeds (denied "/data/a.zip"))
      (isEmptyFile (denied "/data/a.zip")) "".
Proof. split; vm_compute; discriminate. Qed.

(** C4, amended.  With an empty checksum the predicate is [fileExists]:
    true unless [os.Stat] reports that the file does not exist.  With a
    non-empty checksum it is false when the file does not exist, cannot be
    examined or has size zero, and true in every other case, that is when
    [os.Stat] succeeds with a non-zero size.  The answer depends on the
    result of [os.Stat] alone: the content of the file is never read. *)
Theorem verifyChecksum_spec (os_Stat : string -> StatResult) (P H : string) :
  (H = "" ->
     verifyChecksum os_Stat P H = fileExists os_Stat P /\
     (verifyChecksum os_Stat P H = true <-> os_Stat P <> StatNotExist)) /\
  (H <> "" ->
     (os_Stat P = StatNotExist \/ (exists e, os_Stat P = StatFailed e) \/
      os_Stat P = StatOk 0) ->
     verifyChecksum os_Stat P H = false) /\
  (H <> "" ->
     forall size, os_Stat P = StatOk size -> size <> 0%Z ->
     verifyChecksum os_Stat P H = true) /\
  (forall os_Stat' : string -> StatResult,
     os_Stat' P = os_Stat P ->
     verifyChecksum os_Stat' P H = verifyChecksum os_Stat P H).
Proof.
  unfold verifyChecksum, fileExists.
  split; [|split; [|split]].
  - intros ->. cbn [String.eqb]. split; [reflexivity|].
    destruct (os_Stat P); split; intros; congruence.
  - intros Hne Hcase. destruct (String.eqb_spec H ""); [done|].
    destruct Hcase as [-> | [[e ->] | ->]]; reflexivity.
  - intros Hne size Hs Hnz. destruct (String.eqb_spec H ""); [done|].
    rewrite Hs. cbn [negb]. destruct (Z.eqb_spec size 0); [done | reflexivity].
  - intros os_Stat' Hsame. by rewrite Hsame.
Qed.

Example verifyChecksum_cases :
  verifyChecksum (fun _ => StatOk 4096) "/data/a.zip" "c0ffee" = true /\
  verifyChecksum (fun _ => StatOk 0) "/data/a.zip" "c0ffee" = false /\
  verifyChecksum (fun _ => StatOk 0) "/data/a.zip" "" = true /\
  verifyChecksum (fun _ => StatNotExist) "/data/a.zip" "" = false.
Proof. repeat split; reflexivity. Qed.

(** *** Properties of planning *)

Section PlanningFacts.
Variable os_ReadDir : string -> option (list DirEntry).

Lemma scanFiles_elem (pre : string) (files : list DirEntry) :
  scanFiles pre files = true <-> exists file, file ∈ files /\ isArchive pre file = true.
Proof.
  induction files as [|f fs IH]; cbn [scanFiles].
  - split; [discriminate | intros (f & Hin & _); by apply elem_of_nil in Hin].
  - destruct (isArchive pre f) eqn:Hf.
    + split; [intros _; exists f; split; [by left | done] | done].
    + rewrite IH. split.
      * intros (f' & Hin & Hf'). exists f'. split; [by right | done].
      * intros (f' & Hin & Hf'). apply elem_of_cons in Hin as [->|Hin]; [congruence|].
        by exists f'.
Qed.

Lemma scanVersions_false (s : Service) (namespace name version osName archName : string)
    (versions : list string) :
  scanVersions os_ReadDir s namespace name version osName archName versions = false <->
  version ∈ versions /\ onDisk os_ReadDir s namespace name version osName archName.
Proof.
  induction versions as [|v vs IH]; cbn [scanVersions].
  - split; [discriminate | intros [Hin _]; by apply elem_of_nil in Hin].
  - destruct (String.eqb_spec v version) as [->|Hne].
    + unfold onDisk.
      destruct (os_ReadDir (providerDir s namespace name)) as [files|].
      * destruct (scanFiles (expectedPrefix name version osName archName) files) eqn:Hscan.
        -- apply scanFiles_elem in Hscan as (f & Hin & Hf).
           split; [intros _|done]. split; [by left|]. by exists files, f.
        -- split; [discriminate|]. intros [_ (files' & f & Heq & Hin & Hf)].
           injection Heq as <-.
           assert (scanFiles (expectedPrefix name version osName archName) files = true)
             by (apply scanFiles_elem; by exists f).
           congruence.
      * split; [discriminate|]. intros [_ (files' & f & Heq & _)]. discriminate.
    + rewrite IH. split.
      * intros [Hin Hd]. split; [by right | done].
      * intros [Hin Hd]. apply elem_of_cons in Hin as [?|Hin]; [congruence | done].
Qed.

Lemma shouldDownload_char (s : Service) (namespace name version osName archName : string) :
  Filters.ProviderFilter.ShouldInclude (providerFilter s) namespace name = true ->
  Filters.PlatformFilter.ShouldInclude (platformFilter s) osName archName = true ->
  shouldDownload os_ReadDir s namespace name version osName archName = false <->
  journalLists s namespace name version /\
  onDisk os_ReadDir s namespace name version osName archName.
Proof.
  intros Hprov Hplat. unfold shouldDownload, journalLists.
  rewrite Hprov, Hplat. cbn [negb]. rewrite !andb_false_r.
  destruct (Providers (metadata s) !! (namespace +:+ "/" +:+ name)) as [info|].
  - rewrite scanVersions_false. split.
    + intros [Hin Hd]. split; [by exists info | done].
    + intros [(info' & Heq & Hin) Hd]. injection Heq as <-. done.
  - split; [discriminate | intros [(info & Heq & _) _]; discriminate].
Qed.

Lemma planPlatforms_filter (s : Service) (namespace name version : string)
    (platforms : list Platform.t) (jobList : list DownloadJob.t) :
  planPlatforms os_ReadDir s namespace name version platforms jobList =
  jobList ++
    map (jobFor namespace name version)
      (List.filter
         (fun p => shouldDownload os_ReadDir s namespace name version (Platform.OS p) (Platform.Arch p))
         platforms).
Proof.
  unfold planPlatforms. revert jobList.
  induction platforms as [|p ps IH]; intros jobList; cbn [fold_left List.filter map].
  - by rewrite app_nil_r.
  - rewrite IH.
    destruct (shouldDownload os_ReadDir s namespace name version (Platform.OS p) (Platform.Arch p)).
    + cbn [map]. by rewrite <- app_assoc.
    + done.
Qed.

End PlanningFacts.

(** The archive is on disk and the job is queued all the same: the journal
    does not list the version. *)
Lemma presence_alone_counterexample :
  onDisk awsDir freshService "hashicorp" "aws" "5.0.0" "linux" "amd64" /\
  planPlatforms awsDir freshService "hashicorp" "aws" "5.0.0" [linux_amd64] [] =
    [jobFor "hashicorp" "aws" "5.0.0" linux_amd64] /\
  ~ presenceAloneDecides awsDir freshService "hashicorp" "aws" "5.0.0"
      [linux_amd64] linux_amd64.
Proof.
  assert (Hdisk : onDisk awsDir freshService "hashicorp" "aws" "5.0.0" "linux" "amd64").
  { exists [ {| IsDir := false; FileName := "index.json" |};
             {| IsDir := false;
                FileName := "terraform-provider-aws_5.0.0_linux_amd64.zip" |} ],
           {| IsDir := false; FileName := "terraform-provider-aws_5.0.0_linux_amd64.zip" |}.
    split; [reflexivity|]. split; [right; by left | reflexivity]. }
  assert (Hplan : planPlatforms awsDir freshService "hashicorp" "aws" "5.0.0"
                    [linux_amd64] [] = [jobFor "hashicorp" "aws" "5.0.0" linux_amd64])
    by (vm_compute; reflexivity).
  split; [exact Hdisk|]. split; [exact Hplan|].
  unfold presenceAloneDecides. rewrite Hplan. intros [Hqueued _].
  apply Hqueued; [by left | exact Hdisk].
Qed.

Lemma jobFor_inj (namespace name version : string) (p q : Platform.t) :
  jobFor namespace name version p = jobFor namespace name version q -> p = q.
Proof. destruct p, q. unfold jobFor. cbn. intros H. by injection H as -> ->. Qed.

(** C2, amended.  For a combination that passes the provider filter and
    the platform filter, the job is queued unless both hold: the journal
    has an entry for the provider that lists the version, and the provider's
    directory can be read and holds an entry that is not a directory, begins
    with [terraform-provider-<name>_<version>_<os>_<arch>], does not end in
    [.sig] and does not contain [SHA256SUMS].  The archive on disk alone
    does not keep the job out of the queue. *)
Theorem planPlatforms_queues (os_ReadDir : string -> option (list DirEntry))
    (s : Service) (namespace name version : string) (platforms : list Platform.t)
    (platform : Platform.t) :
  platform ∈ platforms ->
  Filters.ProviderFilter.ShouldInclude (providerFilter s) namespace name = true ->
  Filters.PlatformFilter.ShouldInclude (platformFilter s)
    (Platform.OS platform) (Platform.Arch platform) = true ->
  (jobFor namespace name version platform
     ∈ planPlatforms os_ReadDir s namespace name version platforms [] <->
   ~ (journalLists s namespace name version /\
      onDisk os_ReadDir s namespace name version
        (Platform.OS platform) (Platform.Arch platform))) /\
  (shouldDownload os_ReadDir s namespace name version
     (Platform.OS platform) (Platform.Arch platform) = true <->
   ~ (journalLists s namespace name version /\
      onDisk os_ReadDir s namespace name version
        (Platform.OS platform) (Platform.Arch platform))).
Proof.
  intros Hin Hprov Hplat.
  pose proof (shouldDownload_char os_ReadDir s namespace name version
                (Platform.OS platform) (Platform.Arch platform) Hprov Hplat) as Hchar.
  assert (Hsd : shouldDownload os_ReadDir s namespace name version
                  (Platform.OS platform) (Platform.Arch platform) = true <->
                ~ (journalLists s namespace name version /\
                   onDisk os_ReadDir s namespace name version
                     (Platform.OS platform) (Platform.Arch platform))).
  { rewrite <- Hchar.
    destruct (shouldDownload os_ReadDir s namespace name version
                (Platform.OS platform) (Platform.Arch platform));
      split; intros; congruence. }
  split; [|exact Hsd].
  rewrite <- Hsd, planPlatforms_filter. cbn [app].
  rewrite list_elem_of_In, in_map_iff. split.
  - intros (p & Hjob & Hp). apply jobFor_inj in Hjob as ->.
    apply filter_In in Hp as [_ Hp]. exact Hp.
  - intros Hsh. exists platform. split; [done|].
    apply filter_In. split; [by apply list_elem_of_In | exact Hsh].
Qed.

Lemma planPlatforms_queues_witness :
  (jobFor "hashicorp" "aws" "5.0.0" linux_amd64
     ∈ planPlatforms awsDir warmService "hashicorp" "aws" "5.0.0" [linux_amd64] [] <->
   ~ (journalLists warmService "hashicorp" "aws" "5.0.0" /\
      onDisk awsDir warmService "hashicorp" "aws" "5.0.0"
        (Platform.OS linux_amd64) (Platform.Arch linux_amd64))) /\
  (shouldDownload awsDir warmService "hashicorp" "aws" "5.0.0"
     (Platform.OS linux_amd64) (Platform.Arch linux_amd64) = true <->
   ~ (journalLists warmService "hashicorp" "aws" "5.0.0" /\
      onDisk awsDir warmService "hashicorp" "aws" "5.0.0"
        (Platform.OS linux_amd64) (Platform.Arch linux_amd64))).
Proof.
  apply (planPlatforms_queues awsDir warmService "hashicorp" "aws" "5.0.0"
           [linux_amd64] linux_amd64).
  - by left.
  - reflexivity.
  - reflexivity.
Defined.

Example warm_store_skips :
  planPlatforms awsDir warmService "hashicorp" "aws" "5.0.0" [linux_amd64] [] = [].
Proof. vm_compute. reflexivity. Qed.

(** *** Properties of the collection loop *)

Lemma receive_resultsSent (order : gset string -> list string) (downloadPath : string)
    (t : Tally) (result : DownloadResult) :
  resultsSent (receive order downloadPath t result) = S (resultsSent t).
Proof.
  unfold receive. destruct (Error result); [done|]. by destruct (Skipped result).
Qed.

Lemma collectLoop_resultsSent (order : gset string -> list string) (downloadPath : string)
    (select : nat -> option DownloadResult) (rounds i : nat) (t : Tally) :
  resultsSent (collectLoop order downloadPath select rounds i t) + ticks select rounds i =
  resultsSent t + rounds.
Proof.
  revert i t. induction rounds as [|rounds IH]; intros i t; cbn [collectLoop ticks].
  - lia.
  - destruct (select i) as [result|].
    + pose proof (IH (S i) (receive order downloadPath t result)) as H.
      rewrite receive_resultsSent in H. lia.
    + pose proof (IH (S i) t) as H. lia.
Qed.

(** C3, as the code has it.  Every iteration of the collection loop counts
    towards [totalJobs], the ones that the watchdog ends included: the
    number of results received is [totalJobs] minus the number of watchdog
    ticks.  With one job and one tick the loop ends with no result
    received, the job's result is left in the channel and the journal is
    not updated for it. *)
Theorem collect_watchdog_ends_round :
  (forall (order : gset string -> list string) (downloadPath : string)
          (select : nat -> option DownloadResult) (totalJobs : nat)
          (md : ProviderMetadata),
     resultsSent (collect order downloadPath select totalJobs md)
       + ticks select totalJobs 0 = totalJobs) /\
  resultsSent (collect elements "/data" slowWorker 1 awsJournal) = 0 /\
  journal (collect elements "/data" slowWorker 1 awsJournal) = awsJournal /\
  resultsSent (collect elements "/data" slowWorker 1 awsJournal) <> 1.
Proof.
  split.
  - intros order downloadPath select totalJobs md. unfold collect.
    rewrite collectLoop_resultsSent. reflexivity.
  - repeat split. discriminate.
Qed.

(** *** Further properties of the journal and of the collection loop *)

Lemma updateMetadata_records (order : gset string -> list string) (md : ProviderMetadata)
    (job : DownloadJob.t) :
  rangeOrder order -> recorded (recordJob order md job) job.
Proof.
  intros Ho. unfold recorded, recordJob. eexists. split; [apply updateMetadata_lookup|].
  cbn [ProviderInfo.Versions ProviderInfo.Platforms]. split.
  - destruct (versionExists _ _) eqn:Hv.
    + by apply versionExists_elem.
    + apply elem_of_app. right. by left.
  - rewrite (Ho _). apply elem_of_elements, elem_of_union. left. by apply elem_of_singleton.
Qed.

Lemma updateMetadata_grows (order : gset string -> list string) (md : ProviderMetadata)
    (namespace name version osName archName : string) :
  rangeOrder order ->
  journalGrows md (updateMetadata order md namespace name version osName archName).
Proof.
  intros Ho key info Hinfo.
  destruct (decide (key = namespace +:+ "/" +:+ name)) as [->|Hne].
  - eexists. split; [apply updateMetadata_lookup|]. rewrite Hinfo.
    cbn [from_option id ProviderInfo.Versions ProviderInfo.Platforms]. split.
    + intros v Hv. destruct (versionExists _ _); [done|]. apply elem_of_app. by left.
    + intros p Hp. rewrite (Ho _). apply elem_of_elements, elem_of_union. right.
      by apply elem_of_list_to_set.
  - exists info. by rewrite updateMetadata_other.
Qed.

Lemma journalGrows_refl (md : ProviderMetadata) : journalGrows md md.
Proof. intros key info H. by exists info. Qed.

Lemma journalGrows_trans (a b c : ProviderMetadata) :
  journalGrows a b -> journalGrows b c -> journalGrows a c.
Proof.
  intros Hab Hbc key info Ha.
  destruct (Hab key info Ha) as (ib & Hb & Hv & Hp).
  destruct (Hbc key ib Hb) as (ic & Hc & Hv' & Hp').
  exists ic. split; [done|]. split; auto.
Qed.

Lemma recorded_grows (a b : ProviderMetadata) (job : DownloadJob.t) :
  journalGrows a b -> recorded a job -> recorded b job.
Proof.
  intros Hab (info & Hinfo & Hv & Hp).
  destruct (Hab _ info Hinfo) as (info' & Hinfo' & Hvs & Hps).
  exists info'. split; [done|]. split; auto.
Qed.

(** X13.  An update of the journal only adds: every version and platform
    that a provider's entry listed is still listed afterwards, no entry
    disappears, and the entry of the updated provider lists the new version
    and platform. *)
Theorem updateMetadata_only_adds (order : gset string -> list string)
    (md : ProviderMetadata) (job : DownloadJob.t) :
  rangeOrder order ->
  journalGrows md (recordJob order md job) /\ recorded (recordJob order md job) job.
Proof.
  intros Ho. split; [by apply updateMetadata_grows | by apply updateMetadata_records].
Qed.

Lemma updateMetadata_only_adds_witness :
  journalGrows awsJournal (recordJob elements awsJournal awsJob) /\
  recorded (recordJob elements awsJournal awsJob) awsJob.
Proof. apply (updateMetadata_only_adds elements awsJournal awsJob). exact rangeOrder_elements. Defined.

Lemma receive_grows (order : gset string -> list string) (downloadPath : string)
    (t : Tally) (result : DownloadResult) :
  rangeOrder order -> journalGrows (journal t) (journal (receive order downloadPath t result)).
Proof.
  intros Ho. unfold receive. destruct (Error result); [apply journalGrows_refl|].
  destruct (Skipped result); cbn [journal]; by apply updateMetadata_grows.
Qed.

Lemma collectLoop_grows (order : gset string -> list string) (downloadPath : string)
    (select : nat -> option DownloadResult) (rounds i : nat) (t : Tally) :
  rangeOrder order ->
  journalGrows (journal t) (journal (collectLoop order downloadPath select rounds i t)).
Proof.
  intros Ho. revert i t. induction rounds as [|rounds IH]; intros i t; cbn [collectLoop].
  - apply journalGrows_refl.
  - destruct (select i) as [result|]; [|apply IH].
    eapply journalGrows_trans; [by apply receive_grows | apply IH].
Qed.

Lemma collectLoop_records (order : gset string -> list string) (downloadPath : string)
    (select : nat -> option DownloadResult) (rounds i k : nat) (t : Tally)
    (result : DownloadResult) :
  rangeOrder order ->
  (i <= k < i + rounds)%nat ->
  select k = Some result ->
  Error result = None ->
  recorded (journal (collectLoop order downloadPath select rounds i t)) (Job result).
Proof.
  intros Ho. revert i t. induction rounds as [|rounds IH]; intros i t Hk Hsel Herr; [lia|].
  cbn [collectLoop]. destruct (decide (k = i)) as [->|Hne].
  - rewrite Hsel. eapply recorded_grows; [by apply collectLoop_grows|].
    unfold receive. rewrite Herr.
    destruct (Skipped result); cbn [journal]; by apply updateMetadata_records.
  - destruct (select i); apply IH; try done; lia.
Qed.

(** X14.  Whatever the order of arrival, every result without an error
    that the collection loop receives, downloaded or skipped, is in the
    journal when the loop ends: the provider's entry lists the job's version
    and platform. *)
Theorem collect_records_successes (order : gset string -> list string)
    (downloadPath : string) (select : nat -> option DownloadResult) (totalJobs k : nat)
    (md : ProviderMetadata) (result : DownloadResult) :
  rangeOrder order ->
  (k < totalJobs)%nat ->
  select k = Some result ->
  Error result = None ->
  recorded (journal (collect order downloadPath select totalJobs md)) (Job result) /\
  journalGrows md (journal (collect order downloadPath select totalJobs md)).
Proof.
  intros Ho Hk Hsel Herr. unfold collect. split.
  - apply (collectLoop_records order downloadPath select totalJobs 0 k); try done. lia.
  - by apply (collectLoop_grows order downloadPath select totalJobs 0 (startTally md)).
Qed.

Lemma collect_records_successes_witness :
  recorded (journal (collect elements "/data" promptWorker 3 awsJournal))
    (Job {| Job := awsJob; Error := None; Skipped := false |}) /\
  journalGrows awsJournal (journal (collect elements "/data" promptWorker 3 awsJournal)).
Proof.
  apply (collect_records_successes elements "/data" promptWorker 3 1 awsJournal
           {| Job := awsJob; Error := None; Skipped := false |}).
  - exact rangeOrder_elements.
  - lia.
  - reflexivity.
  - reflexivity.
Defined.

(** What the collection loop keeps true of its counters. *)
Lemma receive_tally (order : gset string -> list string) (downloadPath : string)
    (t : Tally) (result : DownloadResult) :
  successful t + failed t + skipped t = resultsSent t ->
  (forall j, j ∈ timeoutJobs t -> j ∈ failedJobs t) ->
  size (failedJobs t) <= failed t ->
  length (timeoutJobs t) <= failed t ->
  let t' := receive order downloadPath t result in
  successful t' + failed t' + skipped t' = resultsSent t' /\
  (forall j, j ∈ timeoutJobs t' -> j ∈ failedJobs t') /\
  size (failedJobs t') <= failed t' /\
  length (timeoutJobs t') <= failed t'.
Proof.
  intros Hsum Hsub Hsize Hlen. unfold receive.
  destruct (Error result) as [e|].
  - cbn [successful failed skipped resultsSent timeoutJobs failedJobs].
    split; [lia|]. split; [|split].
    + intros j Hj. apply elem_of_union.
      destruct (isTimeoutError (Some e)); [|right; by apply Hsub].
      apply elem_of_app in Hj as [Hj|Hj]; [right; by apply Hsub|].
      left. apply list_elem_of_singleton in Hj. by apply elem_of_singleton.
    + pose proof (size_union_alt {[Job result]} (failedJobs t)) as Hu.
      pose proof (subseteq_size (failedJobs t ∖ {[Job result]}) (failedJobs t)) as Hd.
      rewrite size_singleton in Hu.
      assert (failedJobs t ∖ {[Job result]} ⊆ failedJobs t) as Hsubset.
      { intros x Hx. by apply elem_of_difference in Hx as [Hx _]. }
      specialize (Hd Hsubset). lia.
    + destruct (isTimeoutError (Some e)); [rewrite length_app; cbn [length]|]; lia.
  - destruct (Skipped result);
      cbn [successful failed skipped resultsSent timeoutJobs failedJobs];
      (split; [lia|]); (split; [done|]); split; lia.
Qed.

(** X15.  When the collection loop ends, every result received was counted
    once as downloaded, failed or skipped; no more results were received
    than jobs were queued; each job kept for the retry pass is in the set of
    failed jobs; and neither that set nor the retry batch is larger than
    the count of failures. *)
Theorem collect_tally_invariants (order : gset string -> list string)
    (downloadPath : string) (select : nat -> option DownloadResult) (totalJobs : nat)
    (md : ProviderMetadata) :
  successful (collect order downloadPath select totalJobs md)
    + failed (collect order downloadPath select totalJobs md)
    + skipped (collect order downloadPath select totalJobs md)
    = resultsSent (collect order downloadPath select totalJobs md) /\
  resultsSent (collect order downloadPath select totalJobs md) <= totalJobs /\
  (forall j, j ∈ timeoutJobs (collect order downloadPath select totalJobs md) ->
             j ∈ failedJobs (collect order downloadPath select totalJobs md)) /\
  size (failedJobs (collect order downloadPath select totalJobs md))
    <= failed (collect order downloadPath select totalJobs md) /\
  length (timeoutJobs (collect order downloadPath select totalJobs md))
    <= failed (collect order downloadPath select totalJobs md).
Proof.
  assert (Hinv : forall rounds i t,
    successful t + failed t + skipped t = resultsSent t ->
    (forall j, j ∈ timeoutJobs t -> j ∈ failedJobs t) ->
    size (failedJobs t) <= failed t ->
    length (timeoutJobs t) <= failed t ->
    let t' := collectLoop order downloadPath select rounds i t in
    successful t' + failed t' + skipped t' = resultsSent t' /\
    (forall j, j ∈ timeoutJobs t' -> j ∈ failedJobs t') /\
    size (failedJobs t') <= failed t' /\
    length (timeoutJobs t') <= failed t').
  { induction rounds as [|rounds IH]; intros i t H1 H2 H3 H4; cbn [collectLoop]; [done|].
    destruct (select i) as [result|]; [|by apply IH].
    destruct (receive_tally order downloadPath t result H1 H2 H3 H4) as (G1 & G2 & G3 & G4).
    by apply IH. }
  unfold collect.
  destruct (Hinv totalJobs 0 (startTally md)) as (G1 & G2 & G3 & G4); cbn; try done.
  { intros j Hj. by apply elem_of_nil in Hj. }
  split; [exact G1|]. split; [|done].
  pose proof (collectLoop_resultsSent order downloadPath select totalJobs 0 (startTally md)) as H.
  cbn [startTally resultsSent] in H. lia.
Qed.

(** *** Properties of the worker *)

Lemma attemptLoop_char (attempt : nat -> Attempt) (r n made : nat)
    (err : option string) (skipped : bool) :
  exists k : nat,
    (1 <= k <= S r)%nat /\
    (attemptLoop attempt (S r) n err skipped made).2 = (made + k)%nat /\
    (attemptLoop attempt (S r) n err skipped made).1 =
      (attemptErr (attempt (n + k - 1)%nat), attemptSkipped (attempt (n + k - 1)%nat)) /\
    (forall j, (j + 1 < k)%nat -> timedOut (attempt (n + j)%nat) = true) /\
    (timedOut (attempt (n + k - 1)%nat) = true -> k = S r).
Proof.
  revert n made err skipped. induction r as [|r IH]; intros n made err skipped.
  - exists 1%nat. replace (n + 1 - 1)%nat with n by lia. cbn [attemptLoop].
    split; [lia|]. unfold timedOut.
    destruct (bool_decide (attemptErr (attempt n) = None) || attemptSkipped (attempt n));
      cbn [fst snd negb andb].
    + split; [lia|]. split; [done|]. split; [intros; lia | done].
    + destruct (deadlineExceeded (attempt n) || isTimeoutError (attemptErr (attempt n)));
        cbn [fst snd]; (split; [lia|]); (split; [done|]); split; intros; lia.
  - change (attemptLoop attempt (S (S r)) n err skipped made) with
      (let a := attempt n in
       if bool_decide (attemptErr a = None) || attemptSkipped a
       then (attemptErr a, attemptSkipped a, S made)
       else if deadlineExceeded a || isTimeoutError (attemptErr a)
       then attemptLoop attempt (S r) (S n) (attemptErr a) (attemptSkipped a) (S made)
       else (attemptErr a, attemptSkipped a, S made)).
    cbv zeta.
    destruct (bool_decide (attemptErr (attempt n) = None) || attemptSkipped (attempt n))
      eqn:Hdone.
    { exists 1%nat. replace (n + 1 - 1)%nat with n by lia. cbn [fst snd].
      split; [lia|]. split; [lia|]. split; [done|]. split; [intros; lia|].
      unfold timedOut. rewrite Hdone. discriminate. }
    destruct (deadlineExceeded (attempt n) || isTimeoutError (attemptErr (attempt n)))
      eqn:Hto.
    + destruct (IH (S n) (S made) (attemptErr (attempt n)) (attemptSkipped (attempt n)))
        as (k & Hk & Hmade & Hres & Hbefore & Hlast).
      exists (S k). replace (n + S k - 1)%nat with (S n + k - 1)%nat by lia.
      split; [lia|]. split; [lia|]. split; [done|]. split.
      * intros j Hj. destruct j as [|j].
        -- rewrite Nat.add_0_r. unfold timedOut. by rewrite Hdone, Hto.
        -- replace (n + S j)%nat with (S n + j)%nat by lia. apply Hbefore. lia.
      * intros H. apply Hlast in H. lia.
    + exists 1%nat. replace (n + 1 - 1)%nat with n by lia. cbn [fst snd].
      split; [lia|]. split; [lia|]. split; [done|]. split; [intros; lia|].
      unfold timedOut. rewrite Hdone, Hto. discriminate.
Qed.

(** X16.  With a budget of at least one attempt, a worker makes between one
    and [maxAttempts] attempts for a job and reports what the last one
    returned.  Every attempt before the last one failed on a timeout (the
    deadline of the attempt passed, or the error text mentions a timeout),
    and the last attempt is such a failure only when the budget is used
    up: a success, a skip or any other error ends the job at once. *)
Theorem runJob_attempts (attempt : nat -> Attempt) (maxAttempts : Z) (job : DownloadJob.t) :
  (1 <= maxAttempts)%Z ->
  exists k : nat,
    (1 <= k)%nat /\ (Z.of_nat k <= maxAttempts)%Z /\
    (runJob attempt maxAttempts job).2 = k /\
    (runJob attempt maxAttempts job).1 =
      {| Job := job; Error := attemptErr (attempt k); Skipped := attemptSkipped (attempt k) |} /\
    (forall j, (1 <= j < k)%nat -> timedOut (attempt j) = true) /\
    (timedOut (attempt k) = true -> Z.of_nat k = maxAttempts).
Proof.
  intros Hm. unfold runJob.
  replace (Z.to_nat maxAttempts) with (S (Z.to_nat (maxAttempts - 1))) by lia.
  destruct (attemptLoop_char attempt (Z.to_nat (maxAttempts - 1)) 1 0 None false)
    as (k & Hk & Hmade & Hres & Hbefore & Hlast).
  exists k. replace (1 + k - 1)%nat with k in * by lia.
  split; [lia|]. split; [lia|]. cbn [fst snd]. split; [by rewrite Hmade|]. split.
  - by rewrite Hres.
  - split.
    + intros j Hj. replace j with (1 + (j - 1))%nat by lia. apply Hbefore. lia.
    + intros H. apply Hlast in H. lia.
Qed.

Lemma runJob_attempts_witness :
  exists k : nat,
    (1 <= k)%nat /\ (Z.of_nat k <= 5)%Z /\
    (runJob alwaysLate 5 awsJob).2 = k /\
    (runJob alwaysLate 5 awsJob).1 =
      {| Job := awsJob; Error := attemptErr (alwaysLate k);
         Skipped := attemptSkipped (alwaysLate k) |} /\
    (forall j, (1 <= j < k)%nat -> timedOut (alwaysLate j) = true) /\
    (timedOut (alwaysLate k) = true -> Z.of_nat k = 5%Z).
Proof. apply (runJob_attempts alwaysLate 5 awsJob). lia. Defined.

(** X17.  With [maxAttempts] zero or negative the attempt loop never runs:
    the worker reports the job with a nil error and not skipped although
    nothing was attempted, the collection loop counts it as downloaded, and
    the journal lists its version and platform. *)
Theorem runJob_no_budget (order : gset string -> list string) (downloadPath : string)
    (attempt : nat -> Attempt) (maxAttempts : Z) (job : DownloadJob.t) (t : Tally) :
  (maxAttempts <= 0)%Z ->
  rangeOrder order ->
  runJob attempt maxAttempts job = ({| Job := job; Error := None; Skipped := false |}, 0%nat) /\
  successful (receive order downloadPath t (runJob attempt maxAttempts job).1)
    = S (successful t) /\
  recorded (journal (receive order downloadPath t (runJob attempt maxAttempts job).1)) job.
Proof.
  intros Hm Ho. unfold runJob.
  replace (Z.to_nat maxAttempts) with 0%nat by lia.
  cbn [attemptLoop fst snd]. split; [done|]. unfold receive. cbn [Error Skipped Job].
  split; [done|]. cbn [journal]. by apply updateMetadata_records.
Qed.

Lemma runJob_no_budget_witness :
  runJob alwaysLate 0 awsJob = ({| Job := awsJob; Error := None; Skipped := false |}, 0%nat) /\
  successful (receive elements "/data" (startTally awsJournal) (runJob alwaysLate 0 awsJob).1)
    = S (successful (startTally awsJournal)) /\
  recorded (journal (receive elements "/data" (startTally awsJournal)
                       (runJob alwaysLate 0 awsJob).1)) awsJob.
Proof.
  apply (runJob_no_budget elements "/data" alwaysLate 0 awsJob (startTally awsJournal)).
  - lia.
  - exact rangeOrder_elements.
Defined.

(** *** The second cycle *)

Lemma getProviderFilename_prefix (namespace name version osName archName : string) :
  getProviderFilename namespace name version osName archName =
  expectedPrefix name version osName archName +:+ ".zip".
Proof.
  unfold getProviderFilename, expectedPrefix. by rewrite !FS.append_assoc.
Qed.

(** X18.  Once a job has been recorded in the journal and its archive,
    under the name the downloader expects, is listed in the provider's
    directory, planning does not queue the job again.  The name must not
    contain [SHA256SUMS]: an archive of a provider or version so named is
    never recognised. *)
Theorem shouldDownload_after_update (os_ReadDir : string -> option (list DirEntry))
    (order : gset string -> list string) (s : Service)
    (namespace name version osName archName : string) (files : list DirEntry) :
  rangeOrder order ->
  os_ReadDir (providerDir s namespace name) = Some files ->
  {| IsDir := false;
     FileName := getProviderFilename namespace name version osName archName |} ∈ files ->
  Contains (getProviderFilename namespace name version osName archName) "SHA256SUMS" = false ->
  shouldDownload os_ReadDir
    {| DownloadPath := DownloadPath s;
       metadata := updateMetadata order (metadata s) namespace name version osName archName;
       providerFilter := providerFilter s;
       platformFilter := platformFilter s |}
    namespace name version osName archName = false.
Proof.
  intros Ho Hdir Hin Hsums. unfold shouldDownload.
  cbn [providerFilter platformFilter metadata].
  destruct (_ && _); [done|]. destruct (_ && _); [done|].
  rewrite updateMetadata_lookup.
  apply scanVersions_false. split.
  - cbn [ProviderInfo.Versions]. destruct (versionExists _ _) eqn:Hv.
    + by apply versionExists_elem.
    + apply elem_of_app. right. by left.
  - eexists files, _. split; [exact Hdir|]. split; [exact Hin|].
    unfold isArchive. cbn [IsDir FileName negb andb]. rewrite Hsums. cbn [negb].
    rewrite andb_true_r, getProviderFilename_prefix, HasPrefix_append. cbn [andb].
    by rewrite (HasSuffix_other_extension _ ".zip" ".sig").
Qed.

Lemma shouldDownload_after_update_witness :
  shouldDownload awsDir
    {| DownloadPath := DownloadPath freshService;
       metadata := updateMetadata elements (metadata freshService)
                     "hashicorp" "aws" "5.0.0" "linux" "amd64";
       providerFilter := providerFilter freshService;
       platformFilter := platformFilter freshService |}
    "hashicorp" "aws" "5.0.0" "linux" "amd64" = false.
Proof.
  apply (shouldDownload_after_update awsDir elements freshService
           "hashicorp" "aws" "5.0.0" "linux" "amd64"
           [ {| IsDir := false; FileName := "index.json" |};
             {| IsDir := false; FileName := "terraform-provider-aws_5.0.0_linux_amd64.zip" |} ]).
  - exact rangeOrder_elements.
  - reflexivity.
  - right. by left.
  - reflexivity.
Defined.

(** *** Properties of [downloadProvider] *)



(** *** Properties of [regenerateMetadata] *)

Lemma GetProviderPath_mirrorPath (basePath namespace name version os arch filename : string) :
  namespace <> "" -> name <> "" -> filename <> "" -> basePath <> "" ->
  GetProviderPath basePath namespace name version os arch filename =
  basePath +:+ "/" +:+ mirrorPath namespace name filename.
Proof.
  intros Hns Hn Hf Hb. unfold GetProviderPath, mirrorPath, FS.Join.
  cbn [List.filter String.eqb negb].
  destruct (String.eqb_spec basePath ""); [done|].
  destruct (String.eqb_spec namespace ""); [done|].
  destruct (String.eqb_spec name ""); [done|].
  destruct (String.eqb_spec filename ""); [done|].
  cbn [negb String.concat Ascii.eqb Bool.eqb]. reflexivity.
Qed.

Lemma Split_Join_length (elems : list string) :
  Forall (fun s => hasByte "/" s = false) elems ->
  (length (Split (FS.Join elems) "/") <= Nat.max 1 (length elems))%nat.
Proof.
  intros Hall. unfold FS.Join.
  set (kept := List.filter (fun e => negb (String.eqb e "")) elems).
  assert (Hlen : (length kept <= length elems)%nat) by apply List.filter_length_le.
  assert (Hkept : Forall (fun s => hasByte "/" s = false) kept).
  { apply Forall_forall. intros x Hx. apply list_elem_of_In, filter_In in Hx as [Hx _].
    apply list_elem_of_In in Hx. by eapply Forall_forall in Hall. }
  destruct kept as [|a kept'] eqn:Hk.
  - cbn. lia.
  - rewrite (Split_concat (a :: kept') "/") by done. lia.
Qed.

Lemma rescanFile_shallow (order : gset string -> list string) (md : ProviderMetadata)
    (relPath : string) :
  (length (Split relPath "/") < 5)%nat -> rescanFile order md relPath = md.
Proof.
  intros Hlen. unfold rescanFile, Registry.IsProviderPath.
  by replace (length (Split relPath "/") <? 5)%nat with true
    by (symmetry; by apply Nat.ltb_lt).
Qed.

(** X20.  Rebuilding the journal from a store as the downloader writes it
    records nothing.  The downloader puts its files at most four levels
    below the download path (the journal at the top, [<tool>/<zip>],
    [registry.terraform.io/<namespace>/<name>/<file>]); [IsProviderPath] asks
    for five path elements, so every file is passed over and the journal
    comes out with no provider at all. *)
Theorem regenerateMetadata_mirror_layout (order : gset string -> list string)
    (md : ProviderMetadata) (walked : list string) :
  (forall p, p ∈ walked ->
     exists elems,
       (length elems <= 4)%nat /\ Forall (fun e => hasByte "/" e = false) elems /\
       p = FS.Join elems) ->
  regenerateMetadata order md walked = {| Providers := ∅; LastCheck := LastCheck md |}.
Proof.
  unfold regenerateMetadata.
  generalize ({| Providers := ∅; LastCheck := LastCheck md |}) as acc.
  induction walked as [|p ps IH]; intros acc Hall; cbn [fold_left]; [done|].
  rewrite rescanFile_shallow.
  - apply IH. intros q Hq. apply Hall. by right.
  - destruct (Hall p) as (elems & Hlen & Hfree & ->); [by left|].
    pose proof (Split_Join_length elems Hfree) as Hsplit. lia.
Qed.

Lemma regenerateMetadata_mirror_layout_witness :
  regenerateMetadata elements awsJournal
    [ ".tf-mirror-metadata.json";
      "consul/consul_1.16.0_linux_amd64.zip";
      mirrorPath "hashicorp" "aws" "terraform-provider-aws_5.0.0_linux_amd64.zip" ]
  = {| Providers := ∅; LastCheck := LastCheck awsJournal |}.
Proof.
  apply (regenerateMetadata_mirror_layout elements awsJournal).
  intros p Hp. apply elem_of_cons in Hp as [->|Hp].
  { exists [".tf-mirror-metadata.json"]. split; [cbn; lia|]. split; [|reflexivity].
    repeat constructor. }
  apply elem_of_cons in Hp as [->|Hp].
  { exists ["consul"; "consul_1.16.0_linux_amd64.zip"]. split; [cbn; lia|].
    split; [|reflexivity]. repeat constructor. }
  apply list_elem_of_singleton in Hp as ->.
  exists ["registry.terraform.io"; "hashicorp"; "aws";
          "terraform-provider-aws_5.0.0_linux_amd64.zip"].
  split; [cbn; lia|]. split; [|reflexivity]. repeat constructor.
Defined.

(** *** The journal of the binaries *)

Lemma mergeBinary_inv (seen : list DownloadedBinary.t) (binMap : gmap string BinEntry.t)
  (b : DownloadedBinary.t) :
  mergeInv seen binMap -> mergeInv (seen ++ [b]) (mergeBinary binMap b).
Proof.
  intros Hinv tool. unfold mergeBinary.
  destruct (decide (DownloadedBinary.Tool b = tool)) as [Heq|Hne].
  - subst tool. rewrite lookup_insert_eq.
    specialize (Hinv (DownloadedBinary.Tool b)).
    destruct (binMap !! DownloadedBinary.Tool b) as [entry|] eqn:Hl.
    + destruct Hinv as (Hp & Hv & (b0 & Hb0 & Ht0 & Hd0) & Hmax).
      unfold mergedFrom; cbn. repeat split.
      * rewrite elem_of_union, elem_of_list_to_set, Hp.
        intros [H|(b1 & H1 & H2 & H3)].
        -- exists b. rewrite elem_of_app, list_elem_of_singleton. auto.
        -- exists b1. rewrite elem_of_app. auto.
      * rewrite elem_of_union, elem_of_list_to_set, Hp.
        intros (b1 & H1 & H2 & H3).
        apply elem_of_app in H1 as [H1|H1].
        -- right. by exists b1.
        -- apply list_elem_of_singleton in H1 as ->. by left.
      * rewrite elem_of_union, elem_of_list_to_set, Hv.
        intros [H|(b1 & H1 & H2 & H3)].
        -- exists b. rewrite elem_of_app, list_elem_of_singleton. auto.
        -- exists b1. rewrite elem_of_app. auto.
      * rewrite elem_of_union, elem_of_list_to_set, Hv.
        intros (b1 & H1 & H2 & H3).
        apply elem_of_app in H1 as [H1|H1].
        -- right. by exists b1.
        -- apply list_elem_of_singleton in H1 as ->. by left.
      * destruct (Z.ltb_spec (BinEntry.Downloaded entry) (DownloadedBinary.Downloaded b)).
        -- exists b. rewrite elem_of_app, list_elem_of_singleton. auto.
        -- exists b0. rewrite elem_of_app. auto.
      * intros b1 H1 H2. apply elem_of_app in H1 as [H1|H1].
        -- specialize (Hmax b1 H1 H2).
           destruct (Z.ltb_spec (BinEntry.Downloaded entry) (DownloadedBinary.Downloaded b)); lia.
        -- apply list_elem_of_singleton in H1 as ->.
           destruct (Z.ltb_spec (BinEntry.Downloaded entry) (DownloadedBinary.Downloaded b)); lia.
    + assert (Hnone : forall b1, b1 ∈ seen ++ [b] ->
                DownloadedBinary.Tool b1 = DownloadedBinary.Tool b -> b1 = b).
      { intros b1 H1 H2. apply elem_of_app in H1 as [H1|H1].
        - by destruct (Hinv b1 H1).
        - by apply list_elem_of_singleton in H1. }
      unfold mergedFrom; cbn. rewrite Z.ltb_irrefl. repeat split.
      * rewrite elem_of_union, elem_of_list_to_set.
        intros [H|H]; [|by apply elem_of_empty in H].
        exists b. rewrite elem_of_app, list_elem_of_singleton. auto.
      * intros (b1 & H1 & H2 & H3). rewrite (Hnone b1 H1 H2) in H3.
        rewrite elem_of_union, elem_of_list_to_set. by left.
      * rewrite elem_of_union, elem_of_list_to_set.
        intros [H|H]; [|by apply elem_of_empty in H].
        exists b. rewrite elem_of_app, list_elem_of_singleton. auto.
      * intros (b1 & H1 & H2 & H3). rewrite (Hnone b1 H1 H2) in H3.
        rewrite elem_of_union, elem_of_list_to_set. by left.
      * exists b. rewrite elem_of_app, list_elem_of_singleton. auto.
      * intros b1 H1 H2. rewrite (Hnone b1 H1 H2). lia.
  - rewrite lookup_insert_ne by done. specialize (Hinv tool).
    assert (Hmem : forall b1, DownloadedBinary.Tool b1 = tool ->
              (b1 ∈ seen ++ [b] <-> b1 ∈ seen)).
    { intros b1 H1. rewrite elem_of_app, list_elem_of_singleton. split; [|auto].
      intros [H|H]; [done|]. subst b1. by destruct Hne. }
    destruct (binMap !! tool) as [entry|].
    + destruct Hinv as (Hp & Hv & (b0 & Hb0 & Ht0 & Hd0) & Hmax).
      unfold mergedFrom. repeat split.
      * rewrite Hp. intros (b1 & H1 & H2 & H3). exists b1. by rewrite Hmem.
      * rewrite Hp. intros (b1 & H1 & H2 & H3). exists b1. by rewrite <- Hmem.
      * rewrite Hv. intros (b1 & H1 & H2 & H3). exists b1. by rewrite Hmem.
      * rewrite Hv. intros (b1 & H1 & H2 & H3). exists b1. by rewrite <- Hmem.
      * exists b0. by rewrite Hmem.
      * intros b1 H1 H2. apply Hmax; [|done]. by rewrite <- Hmem.
    + intros b1 H1 H2. apply (Hinv b1); [|done]. by rewrite <- Hmem.
Qed.

Lemma mergeBinaries_inv (rest seen : list DownloadedBinary.t)
  (binMap : gmap string BinEntry.t) :
  mergeInv seen binMap -> mergeInv (seen ++ rest) (fold_left mergeBinary rest binMap).
Proof.
  revert seen binMap. induction rest as [|b rest IH]; intros seen binMap Hinv.
  - by rewrite app_nil_r.
  - cbn [fold_left]. replace (seen ++ b :: rest) with ((seen ++ [b]) ++ rest)
      by (by rewrite <- app_assoc).
    apply IH. by apply mergeBinary_inv.
Qed.

(** X21.  The binaries section of the journal has an entry for a tool
    exactly when some downloaded binary is of that tool.  The entry's
    platforms and versions are those of the tool's binaries taken together,
    each listed once, and its download time is the latest of theirs.  This
    holds for every order in which Go ranges over the sets. *)
Theorem binariesJournal_merges (order : gset string -> list string)
  (downloadedBinaries : list DownloadedBinary.t) (tool : string) :
  rangeOrder order ->
  match binariesJournal order downloadedBinaries !! tool with
  | Some m =>
      (forall p, p ∈ BinMeta.Platforms m <->
         exists b, b ∈ downloadedBinaries /\ DownloadedBinary.Tool b = tool /\
           p ∈ DownloadedBinary.Platforms b) /\
      (forall v, v ∈ BinMeta.Versions m <->
         exists b, b ∈ downloadedBinaries /\ DownloadedBinary.Tool b = tool /\
           v ∈ DownloadedBinary.Versions b) /\
      NoDup (BinMeta.Platforms m) /\ NoDup (BinMeta.Versions m) /\
      (exists b, b ∈ downloadedBinaries /\ DownloadedBinary.Tool b = tool /\
         BinMeta.Downloaded m = DownloadedBinary.Downloaded b) /\
      (forall b, b ∈ downloadedBinaries -> DownloadedBinary.Tool b = tool ->
         (DownloadedBinary.Downloaded b <= BinMeta.Downloaded m)%Z)
  | None => forall b, b ∈ downloadedBinaries -> DownloadedBinary.Tool b <> tool
  end.
Proof.
  intros Horder. unfold binariesJournal, mergeBinaries. rewrite lookup_fmap.
  assert (Hinv : mergeInv ([] ++ downloadedBinaries)
                   (fold_left mergeBinary downloadedBinaries ∅)).
  { apply mergeBinaries_inv. intros t. rewrite lookup_empty.
    intros b Hb. by apply elem_of_nil in Hb. }
  cbn [app] in Hinv. specialize (Hinv tool).
  destruct (fold_left mergeBinary downloadedBinaries ∅ !! tool) as [entry|]; cbn.
  - destruct Hinv as (Hp & Hv & Hd & Hmax).
    split; [|split; [|split; [|split; [|split]]]].
    + intros p. rewrite (Horder (BinEntry.Platforms entry)), elem_of_elements. apply Hp.
    + intros v. rewrite (Horder (BinEntry.Versions entry)), elem_of_elements. apply Hv.
    + rewrite (Horder (BinEntry.Platforms entry)). apply NoDup_elements.
    + rewrite (Horder (BinEntry.Versions entry)). apply NoDup_elements.
    + exact Hd.
    + exact Hmax.
  - exact Hinv.
Qed.

Lemma binariesJournal_merges_witness :
  rangeOrder elements /\
  match binariesJournal elements consulBinaries !! "consul" with
  | Some m =>
      (forall p, p ∈ BinMeta.Platforms m <->
         exists b, b ∈ consulBinaries /\ DownloadedBinary.Tool b = "consul" /\
           p ∈ DownloadedBinary.Platforms b) /\
      (forall v, v ∈ BinMeta.Versions m <->
         exists b, b ∈ consulBinaries /\ DownloadedBinary.Tool b = "consul" /\
           v ∈ DownloadedBinary.Versions b) /\
      NoDup (BinMeta.Platforms m) /\ NoDup (BinMeta.Versions m) /\
      (exists b, b ∈ consulBinaries /\ DownloadedBinary.Tool b = "consul" /\
         BinMeta.Downloaded m = DownloadedBinary.Downloaded b) /\
      (forall b, b ∈ consulBinaries -> DownloadedBinary.Tool b = "consul" ->
         (DownloadedBinary.Downloaded b <= BinMeta.Downloaded m)%Z)
  | None => forall b, b ∈ consulBinaries -> DownloadedBinary.Tool b <> "consul"
  end.
Proof.
  assert (H : rangeOrder elements) by (intros X; reflexivity).
  split; [exact H|]. exact (binariesJournal_merges elements consulBinaries "consul" H).
Defined.

(** *** The retry pass *)

Lemma retryReceive_grows (order : gset string -> list string) (downloadPath : string)
    (r : Retry.t) (result : DownloadResult) :
  rangeOrder order ->
  journalGrows (Retry.journal r) (Retry.journal (retryReceive order downloadPath r result)).
Proof.
  intros Ho. unfold retryReceive. destruct (Error result); [apply journalGrows_refl|].
  destruct (Skipped result); cbn [Retry.journal]; by apply updateMetadata_grows.
Qed.

Lemma retryLoop_grows (order : gset string -> list string) (downloadPath : string)
    (retryResults : nat -> DownloadResult) (rounds i : nat) (r : Retry.t) :
  rangeOrder order ->
  journalGrows (Retry.journal r)
    (Retry.journal (retryLoop order downloadPath retryResults rounds i r)).
Proof.
  intros Ho. revert i r. induction rounds as [|rounds IH]; intros i r; cbn [retryLoop].
  - apply journalGrows_refl.
  - eapply journalGrows_trans; [by apply retryReceive_grows | apply IH].
Qed.

Lemma retryLoop_records (order : gset string -> list string) (downloadPath : string)
    (retryResults : nat -> DownloadResult) (rounds i k : nat) (r : Retry.t) :
  rangeOrder order ->
  (i <= k < i + rounds)%nat ->
  Error (retryResults k) = None ->
  recorded (Retry.journal (retryLoop order downloadPath retryResults rounds i r))
    (Job (retryResults k)).
Proof.
  intros Ho. revert i r. induction rounds as [|rounds IH]; intros i r Hk Herr; [lia|].
  cbn [retryLoop]. destruct (decide (k = i)) as [->|Hne].
  - eapply recorded_grows; [by apply retryLoop_grows|].
    unfold retryReceive. rewrite Herr.
    destruct (Skipped (retryResults i)); cbn [Retry.journal]; by apply updateMetadata_records.
  - apply IH; [lia|done].
Qed.

Lemma retryLoop_counters (order : gset string -> list string) (downloadPath : string)
    (retryResults : nat -> DownloadResult) (rounds i : nat) (r : Retry.t) :
  let r' := retryLoop order downloadPath retryResults rounds i r in
  (Retry.retrySuccessful r' + Retry.retryFailed r' + Retry.retrySkipped r'
   = Retry.retrySuccessful r + Retry.retryFailed r + Retry.retrySkipped r + rounds)%nat.
Proof.
  revert i r. induction rounds as [|rounds IH]; intros i r; cbn [retryLoop]; [cbn; lia|].
  cbn zeta in IH |- *. rewrite IH. unfold retryReceive.
  destruct (Error (retryResults i)); [cbn; lia|].
  destruct (Skipped (retryResults i)); cbn; lia.
Qed.

Lemma retryLoop_failedJobs (order : gset string -> list string) (downloadPath : string)
    (retryResults : nat -> DownloadResult) (rounds i : nat) (r : Retry.t)
    (job : DownloadJob.t) :
  job ∈ Retry.failedJobs (retryLoop order downloadPath retryResults rounds i r) <->
  job ∈ Retry.failedJobs r /\ neverDownloaded retryResults i rounds job.
Proof.
  revert i r. induction rounds as [|rounds IH]; intros i r; cbn [retryLoop].
  - split; [|tauto]. intros H. split; [done|]. intros k Hk. lia.
  - rewrite IH. unfold retryReceive at 1.
    destruct (Error (retryResults i)) as [e|] eqn:Herr;
      [|destruct (Skipped (retryResults i)) eqn:Hskip]; cbn [Retry.failedJobs].
    + split; intros [Hin Hnever]; (split; [done|]); intros k Hk Hjob Hnone.
      * destruct (decide (k = i)) as [->|Hne]; [congruence|]. apply Hnever; [lia|done..].
      * apply Hnever; [lia|done..].
    + split; intros [Hin Hnever]; (split; [done|]); intros k Hk Hjob Hnone.
      * destruct (decide (k = i)) as [->|Hne]; [done|]. apply Hnever; [lia|done..].
      * apply Hnever; [lia|done..].
    + rewrite elem_of_difference, elem_of_singleton. split.
      * intros [[Hin Hjob0] Hnever]. split; [done|]. intros k Hk Hjob Hnone.
        destruct (decide (k = i)) as [->|Hne]; [by destruct Hjob0|].
        apply Hnever; [lia|done..].
      * intros [Hin Hnever]. split; [split; [done|]|].
        -- intros ->. specialize (Hnever i ltac:(lia) eq_refl Herr). congruence.
        -- intros k Hk. apply Hnever. lia.
Qed.

(** X22.  The retry pass receives one result for each timed-out job.  A
    job is still counted as failed afterwards exactly when it was counted
    as failed before and no retry result reports it as downloaded; a retry
    result that reports the job as skipped (the archive was found) leaves
    it among the failed jobs, although every result without an error, the
    skipped ones included, is recorded in the journal.  The journal only
    grows. *)
Theorem retryPass_outcome (order : gset string -> list string) (downloadPath : string)
    (retryResults : nat -> DownloadResult) (t : Tally) :
  rangeOrder order ->
  let r := retryPass order downloadPath retryResults t in
  (Retry.retrySuccessful r + Retry.retryFailed r + Retry.retrySkipped r
   = length (timeoutJobs t))%nat /\
  (forall job,
     job ∈ Retry.failedJobs r <->
     job ∈ failedJobs t /\ neverDownloaded retryResults 0 (length (timeoutJobs t)) job) /\
  (forall k, (k < length (timeoutJobs t))%nat ->
     Error (retryResults k) = None ->
     recorded (Retry.journal r) (Job (retryResults k))) /\
  journalGrows (journal t) (Retry.journal r).
Proof.
  intros Ho r. subst r. unfold retryPass. split; [|split; [|split]].
  - pose proof (retryLoop_counters order downloadPath retryResults
                  (length (timeoutJobs t)) 0) as H.
    cbn zeta in H. rewrite H. cbn. lia.
  - intros job. by rewrite retryLoop_failedJobs.
  - intros k Hk Herr. apply retryLoop_records; [done|lia|done].
  - by apply (retryLoop_grows order downloadPath retryResults (length (timeoutJobs t)) 0
                {| Retry.journal := journal t |}).
Qed.

Lemma retryPass_outcome_witness :
  rangeOrder elements /\
  let r := retryPass elements "/data" foundOnRetry afterTimeout in
  (Retry.retrySuccessful r + Retry.retryFailed r + Retry.retrySkipped r
   = length (timeoutJobs afterTimeout))%nat /\
  (forall job,
     job ∈ Retry.failedJobs r <->
     job ∈ failedJobs afterTimeout /\
     neverDownloaded foundOnRetry 0 (length (timeoutJobs afterTimeout)) job) /\
  (forall k, (k < length (timeoutJobs afterTimeout))%nat ->
     Error (foundOnRetry k) = None ->
     recorded (Retry.journal r) (Job (foundOnRetry k))) /\
  journalGrows (journal afterTimeout) (Retry.journal r).
Proof.
  assert (H : rangeOrder elements) by (intros X; reflexivity).
  split; [exact H|]. exact (retryPass_outcome elements "/data" foundOnRetry afterTimeout H).
Defined.

(** A job that timed out and is found on disk by the retry is written to
    the journal and still counted in [finalFailed]. *)
Example retry_skipped_counted_failed :
  let r := retryPass elements "/data" foundOnRetry afterTimeout in
  finalFailed r = 1%nat /\ Retry.retrySkipped r = 1%nat /\
  Providers (Retry.journal r) !! "hashicorp/aws"
  = Some {| ProviderInfo.Namespace := "hashicorp"; ProviderInfo.Name := "aws";
            ProviderInfo.Platforms := ["linux_arm64"];
            ProviderInfo.Versions := ["5.2.0"] |}.
Proof. vm_compute. repeat split. Qed.

End Service.

(** ** internal/server/metrics.go *)

Module Server.
Import Strings.

Module EndpointStat.
Record t :=
  { RequestCount : Z; ErrorCount : Z; AverageResponse : Z; LastAccess : Z }.

(** The value a Go map yields for a missing key. *)
Definition zero : t :=
  {| RequestCount := 0; ErrorCount := 0; AverageResponse := 0; LastAccess := 0 |}.
End EndpointStat.

(** The fields of [Metrics] that the request path updates; times are
    instants in nanoseconds, durations [int64] nanoseconds.  [SystemInfo]
    is read from the runtime and left out. *)
Module Metrics.
Record t :=
  { StartTime : Z;
    RequestCount : Z;
    ErrorCount : Z;
    ProvidersServed : gmap string Z;
    ResponseTimes : list Z;
    AverageResponse : Z;
    LastRequestTime : Z;
    DiskUsage : Z;
    EndpointStats : gmap string EndpointStat.t }.
End Metrics.

Definition NewMetrics (now : Z) : Metrics.t :=
  {| Metrics.StartTime := now;
     Metrics.RequestCount := 0;
     Metrics.ErrorCount := 0;
     Metrics.ProvidersServed := ∅;
     Metrics.ResponseTimes := [];
     Metrics.AverageResponse := 0;
     Metrics.LastRequestTime := 0;
     Metrics.DiskUsage := 0;
     Metrics.EndpointStats := ∅ |}.

(** [var total time.Duration; for _, rt := range m.ResponseTimes { total += rt }] *)
Definition total (responseTimes : list Z) : Z :=
  fold_left (fun total rt => wrap64 (total + rt)) responseTimes 0%Z.

(** [RecordRequest]; [now] and [lastAccess] are the two readings of
    [time.Now()].  Go's integer division truncates towards zero. *)
Definition RecordRequest (now lastAccess : Z) (m : Metrics.t) (endpoint : string)
    (duration : Z) (isError : bool) : Metrics.t :=
  let requestCount := wrap64 (Metrics.RequestCount m + 1) in
  let responseTimes :=
    (if (100 <=? length (Metrics.ResponseTimes m))%nat
     then tail (Metrics.ResponseTimes m) else Metrics.ResponseTimes m) ++ [duration] in
  let averageResponse :=
    if (0 <? length responseTimes)%nat
    then Z.quot (total responseTimes) (Z.of_nat (length responseTimes))
    else Metrics.AverageResponse m in
  let stat := default EndpointStat.zero (Metrics.EndpointStats m !! endpoint) in
  let statRequestCount := wrap64 (EndpointStat.RequestCount stat + 1) in
  let statErrorCount :=
    if isError then wrap64 (EndpointStat.ErrorCount stat + 1)
    else EndpointStat.ErrorCount stat in
  let statAverageResponse :=
    if (0 <? statRequestCount)%Z
    then Z.quot
           (wrap64 (wrap64 (EndpointStat.AverageResponse stat * wrap64 (statRequestCount - 1))
                    + duration))
           statRequestCount
    else EndpointStat.AverageResponse stat in
  {| Metrics.StartTime := Metrics.StartTime m;
     Metrics.RequestCount := requestCount;
     Metrics.ErrorCount :=
       if isError then wrap64 (Metrics.ErrorCount m + 1) else Metrics.ErrorCount m;
     Metrics.ProvidersServed := Metrics.ProvidersServed m;
     Metrics.ResponseTimes := responseTimes;
     Metrics.AverageResponse := averageResponse;
     Metrics.LastRequestTime := now;
     Metrics.DiskUsage := Metrics.DiskUsage m;
     Metrics.EndpointStats :=
       <[ endpoint :=
          {| EndpointStat.RequestCount := statRequestCount;
             EndpointStat.ErrorCount := statErrorCount;
             EndpointStat.AverageResponse := statAverageResponse;
             EndpointStat.LastAccess := lastAccess |} ]> (Metrics.EndpointStats m) |}.

(** [RecordProviderServed]: [m.ProvidersServed[provider]++] *)
Definition RecordProviderServed (m : Metrics.t) (provider : string) : Metrics.t :=
  {| Metrics.StartTime := Metrics.StartTime m;
     Metrics.RequestCount := Metrics.RequestCount m;
     Metrics.ErrorCount := Metrics.ErrorCount m;
     Metrics.ProvidersServed :=
       <[ provider := wrap64 (default 0%Z (Metrics.ProvidersServed m !! provider) + 1) ]>
         (Metrics.ProvidersServed m);
     Metrics.ResponseTimes := Metrics.ResponseTimes m;
     Metrics.AverageResponse := Metrics.AverageResponse m;
     Metrics.LastRequestTime := Metrics.LastRequestTime m;
     Metrics.DiskUsage := Metrics.DiskUsage m;
     Metrics.EndpointStats := Metrics.EndpointStats m |}.

(** One call of [RecordRequest] with its arguments and clock readings. *)
Record Request :=
  { at_ : Z; accessAt : Z; endpoint : string; duration : Z; isError : bool }.

Definition record (m : Metrics.t) (rq : Request) : Metrics.t :=
  RecordRequest (at_ rq) (accessAt rq) m (endpoint rq) (duration rq) (isError rq).

(** The calls of [RecordRequest] are serialised by [m.mu]. *)
Definition serve (reqs : list Request) (m : Metrics.t) : Metrics.t :=
  fold_left record reqs m.

Definition sumZ (l : list Z) : Z := foldr Z.add 0%Z l.

Definition toEndpoint (e : string) (rq : Request) : bool := String.eqb (endpoint rq) e.

Definition errorAt (e : string) (rq : Request) : bool := toEndpoint e rq && isError rq.

Definition count (p : Request -> bool) (reqs : list Request) : Z :=
  Z.of_nat (length (List.filter p reqs)).

(** The bytes that [escapeLabel] escapes. *)
Definition backslash : ascii := "092"%char.
Definition dquote : ascii := "034"%char.

(** [escapeLabel] *)
Definition escapeLabel (s : string) : string :=
  let s := ReplaceAll s backslash (String backslash (String backslash EmptyString)) in
  let s := ReplaceAll s dquote (String backslash (String dquote EmptyString)) in
  s.

(** In [s], every backslash is followed by a byte that it escapes, and no
    double quote stands outside such a pair. *)
Fixpoint quotesEscaped (s : string) : bool :=
  match s with
  | EmptyString => true
  | String c rest =>
      if Ascii.eqb c backslash then
        match rest with
        | EmptyString => false
        | String _ rest' => quotesEscaped rest'
        end
      else if Ascii.eqb c dquote then false
      else quotesEscaped rest
  end.

Definition get (e : string) (d : Z) : Request :=
  {| at_ := 0; accessAt := 0; endpoint := e; duration := d; isError := false |}.

Definition threeRequests : list Request :=
  [get "/health" 1000; get "/metrics" 2000; get "/health" 6000].

(** *** Properties of the metrics *)

Lemma wrap64_add_l (a b : Z) : wrap64 (wrap64 a + b) = wrap64 (a + b).
Proof.
  unfold wrap64. f_equal.
  replace ((a + 2 ^ 63) mod 2 ^ 64 - 2 ^ 63 + b + 2 ^ 63)%Z
    with ((a + 2 ^ 63) mod 2 ^ 64 + b)%Z by lia.
  rewrite Zplus_mod_idemp_l. f_equal. lia.
Qed.

Lemma serve_snoc (reqs : list Request) (rq : Request) (m : Metrics.t) :
  serve (reqs ++ [rq]) m = record (serve reqs m) rq.
Proof. unfold serve. by rewrite fold_left_app. Qed.

Lemma serve_window (reqs : list Request) (m : Metrics.t) :
  (length (Metrics.ResponseTimes m) <= 100)%nat ->
  Metrics.ResponseTimes (serve reqs m)
  = drop (length (Metrics.ResponseTimes m) + length reqs - 100)
      (Metrics.ResponseTimes m ++ (duration <$> reqs)).
Proof.
  revert m. induction reqs as [|rq reqs IH]; intros m Hlen.
  - cbn [serve fold_left length fmap list_fmap].
    replace (length (Metrics.ResponseTimes m) + 0 - 100)%nat with 0%nat by lia.
    by rewrite app_nil_r.
  - change (serve (rq :: reqs) m) with (serve reqs (record m rq)).
    assert (Hstep : Metrics.ResponseTimes (record m rq)
                    = (if (100 <=? length (Metrics.ResponseTimes m))%nat
                       then tail (Metrics.ResponseTimes m) else Metrics.ResponseTimes m)
                        ++ [duration rq]) by reflexivity.
    destruct (Nat.leb_spec 100 (length (Metrics.ResponseTimes m))) as [Hfull|Hroom].
    + destruct (Metrics.ResponseTimes m) as [|x tl] eqn:Hrt; [cbn in Hfull; lia|].
      cbn [tail length] in *.
      rewrite IH by (rewrite Hstep, length_app; cbn; lia).
      rewrite Hstep, length_app. cbn [length fmap list_fmap app].
      replace (length tl + 1 + length reqs - 100)%nat with (length reqs) by lia.
      replace (S (length tl) + S (length reqs) - 100)%nat with (S (length reqs)) by lia.
      cbn [drop]. by rewrite <- app_assoc.
    + rewrite IH by (rewrite Hstep, length_app; cbn; lia).
      rewrite Hstep, length_app. cbn [length fmap list_fmap].
      rewrite <- app_assoc. cbn [app]. f_equal. lia.
Qed.

Lemma total_from (l : list Z) (acc bound : Z) :
  Forall (fun d => 0 <= d <= bound)%Z l ->
  (0 <= acc)%Z -> (acc + Z.of_nat (length l) * bound < 2 ^ 63)%Z ->
  fold_left (fun total rt => wrap64 (total + rt)) l acc = (acc + sumZ l)%Z.
Proof.
  revert acc. induction l as [|d l IH]; intros acc Hall Hacc Hbound.
  - cbn. lia.
  - apply Forall_cons in Hall as [Hd Hall]. cbn [fold_left sumZ foldr].
    cbn [length] in Hbound. rewrite Nat2Z.inj_succ in Hbound.
    assert (Hrest : (0 <= Z.of_nat (length l) * bound)%Z) by nia.
    rewrite wrap64_small by lia.
    rewrite IH; [fold (sumZ l); lia|done|lia|lia].
Qed.

Lemma sumZ_bounds (l : list Z) (lo hi : Z) :
  Forall (fun d => lo <= d <= hi)%Z l ->
  (Z.of_nat (length l) * lo <= sumZ l <= Z.of_nat (length l) * hi)%Z.
Proof.
  induction 1 as [|d l Hd Hall IH]; cbn [sumZ foldr length]; [lia|].
  fold (sumZ l). nia.
Qed.

(** X23.  [ResponseTimes] holds the durations of the last 100 requests,
    oldest first (all of them while fewer than 100 have been recorded),
    whatever the requests are. *)
Theorem RecordRequest_window (now : Z) (reqs : list Request) :
  Metrics.ResponseTimes (serve reqs (NewMetrics now))
  = drop (length reqs - 100) (duration <$> reqs).
Proof.
  rewrite serve_window by (cbn; lia). reflexivity.
Qed.

(** X24.  When the durations are not negative and at most [bound], with
    [100 * bound] below 2^63, the average response time after a request is
    the sum of the durations of the last 100 requests (or of all of them
    while there are fewer) divided by their number, rounded down; it lies
    between 0 and [bound]. *)
Theorem RecordRequest_average (now bound : Z) (reqs : list Request) :
  Forall (fun rq => 0 <= duration rq <= bound)%Z reqs ->
  (100 * bound < 2 ^ 63)%Z ->
  reqs <> [] ->
  let window := drop (length reqs - 100) (duration <$> reqs) in
  Metrics.AverageResponse (serve reqs (NewMetrics now))
  = (sumZ window / Z.of_nat (length window))%Z /\
  (0 <= Metrics.AverageResponse (serve reqs (NewMetrics now)) <= bound)%Z.
Proof.
  intros Hall Hbound Hne window.
  assert (Hwin : Metrics.ResponseTimes (serve reqs (NewMetrics now)) = window).
  { rewrite serve_window by (cbn; lia). reflexivity. }
  assert (Hlen : (0 < length window <= 100)%nat).
  { subst window. rewrite length_drop, length_fmap.
    destruct reqs; [done|cbn [length]; lia]. }
  assert (Hin : Forall (fun d => 0 <= d <= bound)%Z window).
  { subst window. apply Forall_drop. by apply Forall_fmap. }
  assert (Havg : Metrics.AverageResponse (serve reqs (NewMetrics now))
                 = Z.quot (total window) (Z.of_nat (length window))).
  { rewrite <- Hwin. destruct (exists_last Hne) as (init & rq & ->).
    rewrite serve_snoc. unfold record, RecordRequest.
    cbn [Metrics.AverageResponse Metrics.ResponseTimes].
    rewrite length_app. cbn [length].
    destruct (Nat.ltb_spec 0 (length
      (if (100 <=? length (Metrics.ResponseTimes (serve init (NewMetrics now))))%nat
       then tail (Metrics.ResponseTimes (serve init (NewMetrics now)))
       else Metrics.ResponseTimes (serve init (NewMetrics now))) + 1)); [done|lia]. }
  assert (Htot : total window = sumZ window).
  { unfold total. rewrite (total_from window 0 bound); [lia|done|lia|].
    destruct Hin; [cbn; lia|]. nia. }
  pose proof (sumZ_bounds window 0 bound Hin) as Hsum.
  rewrite Havg, Htot, Z.quot_div_nonneg by lia. split; [done|].
  split.
  - apply Z.div_pos; lia.
  - apply Z.div_le_upper_bound; lia.
Qed.

Lemma RecordRequest_average_witness :
  Forall (fun rq => 0 <= duration rq <= 6000)%Z threeRequests /\
  (100 * 6000 < 2 ^ 63)%Z /\
  threeRequests <> [] /\
  let window := drop (length threeRequests - 100) (duration <$> threeRequests) in
  Metrics.AverageResponse (serve threeRequests (NewMetrics 0))
  = (sumZ window / Z.of_nat (length window))%Z /\
  (0 <= Metrics.AverageResponse (serve threeRequests (NewMetrics 0)) <= 6000)%Z.
Proof.
  assert (H1 : Forall (fun rq => 0 <= duration rq <= 6000)%Z threeRequests).
  { repeat constructor; cbn; lia. }
  assert (H2 : (100 * 6000 < 2 ^ 63)%Z) by lia.
  assert (H3 : threeRequests <> []) by discriminate.
  split; [exact H1|]. split; [exact H2|]. split; [exact H3|].
  exact (RecordRequest_average 0 6000 threeRequests H1 H2 H3).
Defined.

Lemma count_snoc (p : Request -> bool) (reqs : list Request) (rq : Request) :
  count p (reqs ++ [rq]) = (count p reqs + (if p rq then 1 else 0))%Z.
Proof.
  unfold count. rewrite List.filter_app, length_app. cbn [List.filter].
  destruct (p rq); cbn [length]; lia.
Qed.

Lemma count_nonneg (p : Request -> bool) (reqs : list Request) : (0 <= count p reqs)%Z.
Proof. unfold count. lia. Qed.

Lemma serve_endpoint_count (now : Z) (reqs : list Request) (e : string) :
  match Metrics.EndpointStats (serve reqs (NewMetrics now)) !! e with
  | Some stat =>
      (0 < count (toEndpoint e) reqs)%Z /\
      EndpointStat.RequestCount stat = wrap64 (count (toEndpoint e) reqs) /\
      EndpointStat.ErrorCount stat = wrap64 (count (errorAt e) reqs)
  | None => count (toEndpoint e) reqs = 0%Z
  end.
Proof.
  induction reqs as [|rq reqs Hstat] using rev_ind.
  - cbn. by rewrite lookup_empty.
  - rewrite serve_snoc, !count_snoc.
    unfold record at 1, RecordRequest. cbn [Metrics.EndpointStats].
    assert (Hto : toEndpoint e rq = String.eqb (endpoint rq) e) by reflexivity.
    assert (Hat : errorAt e rq = String.eqb (endpoint rq) e && isError rq) by reflexivity.
    rewrite Hto, Hat. clear Hto Hat.
    destruct (String.eqb_spec (endpoint rq) e) as [->|Hne].
    * rewrite lookup_insert_eq. cbn [EndpointStat.RequestCount EndpointStat.ErrorCount].
      pose proof (count_nonneg (toEndpoint e) reqs) as Hpos.
      destruct (Metrics.EndpointStats (serve reqs (NewMetrics now)) !! e) as [stat|].
      -- destruct Hstat as (_ & Hrc & Hec). cbn [from_option id default].
         split; [lia|]. split; [by rewrite Hrc, wrap64_add_l|].
         cbn [andb]. destruct (isError rq); [by rewrite Hec, wrap64_add_l|].
         by rewrite Z.add_0_r.
      -- cbn [from_option id default EndpointStat.zero EndpointStat.RequestCount
              EndpointStat.ErrorCount].
         assert (Hzero : count (errorAt e) reqs = 0%Z).
         { unfold count in *. assert (Hnil : List.filter (toEndpoint e) reqs = [])
             by (destruct (List.filter (toEndpoint e) reqs); [done|cbn in Hstat; lia]).
           clear -Hnil. induction reqs as [|r reqs IH]; [done|].
           cbn [List.filter] in *. unfold errorAt at 1.
           destruct (toEndpoint e r); [done|]. cbn [andb]. by apply IH. }
         rewrite Hstat, Hzero. split; [lia|]. split; [done|].
         cbn [andb]. by destruct (isError rq).
    * rewrite lookup_insert_ne by done. cbn [andb]. rewrite !Z.add_0_r. exact Hstat.
Qed.

(** X25.  The counters count: after any sequence of requests,
    [RequestCount] is the number of requests and [ErrorCount] the number of
    those with an error, as 64-bit integers; an endpoint has an entry in
    [EndpointStats] exactly when a request went to it, and the entry counts
    the requests and the errors of that endpoint. *)
Theorem RecordRequest_counts (now : Z) (reqs : list Request) (e : string) :
  let m := serve reqs (NewMetrics now) in
  Metrics.RequestCount m = wrap64 (Z.of_nat (length reqs)) /\
  Metrics.ErrorCount m = wrap64 (count isError reqs) /\
  match Metrics.EndpointStats m !! e with
  | Some stat =>
      (0 < count (toEndpoint e) reqs)%Z /\
      EndpointStat.RequestCount stat = wrap64 (count (toEndpoint e) reqs) /\
      EndpointStat.ErrorCount stat = wrap64 (count (errorAt e) reqs)
  | None => count (toEndpoint e) reqs = 0%Z
  end.
Proof.
  cbn zeta. split; [|split; [|apply serve_endpoint_count]].
  - induction reqs as [|rq reqs IH] using rev_ind; [reflexivity|].
    rewrite serve_snoc, length_app. cbn [length]. unfold record, RecordRequest.
    cbn [Metrics.RequestCount]. rewrite IH, wrap64_add_l. f_equal. lia.
  - induction reqs as [|rq reqs IH] using rev_ind; [reflexivity|].
    rewrite serve_snoc, count_snoc. unfold record, RecordRequest.
    cbn [Metrics.ErrorCount]. destruct (isError rq); [|by rewrite Z.add_0_r].
    by rewrite IH, wrap64_add_l.
Qed.

Lemma count_le (p : Request -> bool) (reqs : list Request) :
  (count p reqs <= Z.of_nat (length reqs))%Z.
Proof.
  unfold count. induction reqs as [|rq reqs IH]; cbn [List.filter length]; [lia|].
  destruct (p rq); cbn [length]; lia.
Qed.

(** X26.  The running average of an endpoint stays within the range of the
    durations recorded for it: when every request to the endpoint took
    between [lo] and [hi], with [lo] not negative and the number of
    requests times [hi + 1] below 2^63, the endpoint's average response
    time lies between [lo] and [hi]. *)
Theorem RecordRequest_endpoint_average (now lo hi : Z) (reqs : list Request) (e : string) :
  Forall (fun rq => endpoint rq = e -> lo <= duration rq <= hi)%Z reqs ->
  (0 <= lo)%Z ->
  (Z.of_nat (length reqs) * (hi + 1) < 2 ^ 63)%Z ->
  forall stat,
    Metrics.EndpointStats (serve reqs (NewMetrics now)) !! e = Some stat ->
    (lo <= EndpointStat.AverageResponse stat <= hi)%Z.
Proof.
  intros Hall Hlo. induction reqs as [|rq reqs IH] using rev_ind; intros Hbound stat.
  - cbn. by rewrite lookup_empty.
  - apply Forall_app in Hall as [Hall Hrq]. rewrite Forall_singleton in Hrq.
    rewrite length_app, Nat2Z.inj_add in Hbound. cbn [length] in Hbound.
    pose proof (count_le (toEndpoint e) reqs) as Hle.
    pose proof (count_nonneg (toEndpoint e) reqs) as Hge.
    assert (Hhi : (lo <= hi)%Z \/ endpoint rq <> e).
    { destruct (decide (endpoint rq = e)) as [Heq|Hne]; [left; specialize (Hrq Heq); lia|by right]. }
    rewrite serve_snoc. unfold record at 1, RecordRequest. cbn [Metrics.EndpointStats].
    destruct (decide (endpoint rq = e)) as [Heq|Hne].
    + rewrite Heq, lookup_insert_eq. intros [= <-]. cbn [EndpointStat.AverageResponse].
      specialize (Hrq Heq).
      assert (Hhi1 : (0 < hi + 1)%Z) by lia.
      assert (Hsmall : (Z.of_nat (length reqs) * (hi + 1) < 2 ^ 63)%Z) by nia.
      specialize (IH Hall Hsmall).
      pose proof (serve_endpoint_count now reqs e) as Hcount.
      set (c := count (toEndpoint e) reqs) in *.
      assert (Hc : (c < 2 ^ 63 - 1)%Z) by nia.
      assert (Hold :
        exists avg,
          EndpointStat.AverageResponse
            (default EndpointStat.zero (Metrics.EndpointStats (serve reqs (NewMetrics now)) !! e))
          = avg /\
          EndpointStat.RequestCount
            (default EndpointStat.zero (Metrics.EndpointStats (serve reqs (NewMetrics now)) !! e))
          = c /\
          (lo * c <= avg * c <= hi * c)%Z).
      { destruct (Metrics.EndpointStats (serve reqs (NewMetrics now)) !! e) as [old|].
        - destruct Hcount as (Hpos & Hrc & _). specialize (IH old eq_refl).
          eexists. split; [reflexivity|]. cbn [from_option id default].
          rewrite Hrc, wrap64_small by lia. split; [done|]. nia.
        - eexists. split; [reflexivity|]. cbn [from_option id default EndpointStat.zero
            EndpointStat.RequestCount EndpointStat.AverageResponse].
          rewrite Hcount. split; [done|]. lia. }
      destruct Hold as (avg & -> & -> & Havg).
      assert (Hprod : (hi * (c + 1) < 2 ^ 63)%Z) by nia.
      rewrite (wrap64_small (c + 1)) by lia.
      destruct (Z.ltb_spec 0 (c + 1)) as [_|Hbad]; [|lia].
      replace (c + 1 - 1)%Z with c by lia.
      rewrite (wrap64_small c) by lia.
      rewrite (wrap64_small (avg * c)) by nia.
      rewrite (wrap64_small (avg * c + duration rq)) by nia.
      rewrite Z.quot_div_nonneg by nia. split.
      * apply Z.div_le_lower_bound; nia.
      * apply Z.div_le_upper_bound; nia.
    + rewrite lookup_insert_ne by done. apply IH; [done|].
      destruct (Z.le_gt_cases 0 (hi + 1)); [nia|].
      destruct Hhi as [Hhi|Hhi]; [lia|]. nia.
Qed.

Lemma RecordRequest_endpoint_average_witness :
  Forall (fun rq => endpoint rq = "/health" -> 1000 <= duration rq <= 6000)%Z threeRequests /\
  (0 <= 1000)%Z /\
  (Z.of_nat (length threeRequests) * (6000 + 1) < 2 ^ 63)%Z /\
  forall stat,
    Metrics.EndpointStats (serve threeRequests (NewMetrics 0)) !! "/health" = Some stat ->
    (1000 <= EndpointStat.AverageResponse stat <= 6000)%Z.
Proof.
  assert (H1 : Forall (fun rq => endpoint rq = "/health" -> 1000 <= duration rq <= 6000)%Z
                 threeRequests).
  { repeat constructor; cbn; intros; lia. }
  assert (H2 : (0 <= 1000)%Z) by lia.
  assert (H3 : (Z.of_nat (length threeRequests) * (6000 + 1) < 2 ^ 63)%Z) by (cbn; lia).
  split; [exact H1|]. split; [exact H2|]. split; [exact H3|].
  exact (RecordRequest_endpoint_average 0 1000 6000 threeRequests "/health" H1 H2 H3).
Defined.

(** *** [escapeLabel] *)

Lemma escapeLabel_cons (c : ascii) (s : string) :
  escapeLabel (String c s)
  = if Ascii.eqb c backslash then String backslash (String backslash (escapeLabel s))
    else if Ascii.eqb c dquote then String backslash (String dquote (escapeLabel s))
    else String c (escapeLabel s).
Proof.
  unfold escapeLabel. cbn [ReplaceAll].
  destruct (Ascii.eqb_spec c backslash) as [->|Hb].
  - reflexivity.
  - destruct (Ascii.eqb_spec c dquote) as [->|Hq].
    + reflexivity.
    + cbn [ReplaceAll]. destruct (Ascii.eqb_spec c dquote); [done|reflexivity].
Qed.

(** X27.  [escapeLabel] loses nothing and leaves no bare quote: different
    labels have different escaped forms, and in the escaped form every
    double quote and every backslash of the label stands behind an
    escaping backslash. *)
Theorem escapeLabel_faithful :
  (forall a b, escapeLabel a = escapeLabel b -> a = b) /\
  (forall s, quotesEscaped (escapeLabel s) = true).
Proof.
  split.
  - induction a as [|c a IH]; intros [|d b] H.
    + done.
    + rewrite escapeLabel_cons in H. cbn in H.
      destruct (Ascii.eqb d backslash); [discriminate|].
      destruct (Ascii.eqb d dquote); discriminate.
    + rewrite escapeLabel_cons in H. change (escapeLabel EmptyString) with EmptyString in H.
      destruct (Ascii.eqb c backslash); [discriminate|].
      destruct (Ascii.eqb c dquote); discriminate.
    + rewrite !escapeLabel_cons in H.
      destruct (Ascii.eqb_spec c backslash) as [->|Hcb];
        [|destruct (Ascii.eqb_spec c dquote) as [->|Hcq]];
        (destruct (Ascii.eqb_spec d backslash) as [->|Hdb];
          [|destruct (Ascii.eqb_spec d dquote) as [->|Hdq]]);
        try (injection H as H; f_equal; by apply IH);
        try (injection H as H; done);
        try (injection H as H1 H2; done);
        try (injection H as H1 H2; congruence).
      injection H as -> H. f_equal. by apply IH.
  - induction s as [|c s IH]; [done|].
    rewrite escapeLabel_cons.
    destruct (Ascii.eqb_spec c backslash) as [->|Hcb]; [exact IH|].
    destruct (Ascii.eqb_spec c dquote) as [->|Hcq]; [exact IH|].
    cbn [quotesEscaped].
    destruct (Ascii.eqb_spec c backslash); [done|].
    destruct (Ascii.eqb_spec c dquote); [done|exact IH].
Qed.

End Server.
